(** * Criteria-driven evaluation reconciliation: a shallow embedding

    The development follows three components of the application:
    [CriteriaTable.tsx], [EditEmployeeDialog.tsx] and the employee
    evaluation form ([EmployeeForm]).  Host-language primitives that the
    components call (string methods, regular-expression replacement,
    [Array.prototype.indexOf], [Array.prototype.sort], [Map]) are collected
    in the module [JS]; the persistence service in the module [Supabase]. *)

From Stdlib Require Import ZArith List String Ascii Bool Lia.
From Stdlib Require Import Sorting.Permutation Sorting.Sorted.
From Stdlib Require Import Numbers.DecimalString.
From stdpp Require Import base option list strings gmap.

Local Open Scope string_scope.
Local Open Scope Z_scope.

(* ===================================================================== *)
(** * Host-language primitives *)
(* ===================================================================== *)

Module JS.

(** Strings are sequences of code units.  The model covers code units below
    256 (one [ascii] each), which is where every criterion name of the
    application lives. *)

Definition charCode (c : ascii) : N := N_of_ascii c.

Definition in_range (lo hi : N) (c : ascii) : bool :=
  ((lo <=? charCode c) && (charCode c <=? hi))%N.

(** [String.prototype.toLowerCase], one code unit: A-Z, and the upper-case
    letters U+00C0-U+00DE of the Latin-1 block (U+00D7 is the times sign). *)
Definition toLowerCase_char (c : ascii) : ascii :=
  if in_range 65 90 c
     || (in_range 192 222 c && negb (charCode c =? 215)%N)
  then ascii_of_N (charCode c + 32)
  else c.

Fixpoint toLowerCase (s : string) : string :=
  match s with
  | EmptyString => EmptyString
  | String c s' => String (toLowerCase_char c) (toLowerCase s')
  end.

(** Character classes of the regular expressions in [createFieldName]. *)

(** [\s]: TAB, LF, VT, FF, CR, SPACE and NO-BREAK SPACE. *)
Definition is_space (c : ascii) : bool :=
  in_range 9 13 c || (charCode c =? 32)%N || (charCode c =? 160)%N.

(** [[a-z0-9]] *)
Definition is_lower_alnum (c : ascii) : bool :=
  in_range 97 122 c || in_range 48 57 c.

Definition is_underscore (c : ascii) : bool := (charCode c =? 95)%N.

(** [s.replace(/[^...]/g, '')] for a negated character class: the code units
    of the class are kept, all others are deleted. *)
Fixpoint keep (cls : ascii -> bool) (s : string) : string :=
  match s with
  | EmptyString => EmptyString
  | String c s' => if cls c then String c (keep cls s') else keep cls s'
  end.

(** [s.replace(/X+/g, r)] for a character class [X] and a one-unit
    replacement [r]: every maximal run of [X] becomes one [r].  [in_run]
    tells whether the previous code unit was in the class. *)
Fixpoint replace_runs (cls : ascii -> bool) (r : ascii) (in_run : bool)
         (s : string) : string :=
  match s with
  | EmptyString => EmptyString
  | String c s' =>
      if cls c
      then if in_run then replace_runs cls r true s'
           else String r (replace_runs cls r true s')
      else String c (replace_runs cls r false s')
  end.

Fixpoint drop_leading (cls : ascii -> bool) (s : string) : string :=
  match s with
  | EmptyString => EmptyString
  | String c s' => if cls c then drop_leading cls s' else s
  end.

Fixpoint drop_trailing (cls : ascii -> bool) (s : string) : string :=
  match s with
  | EmptyString => EmptyString
  | String c s' =>
      match drop_trailing cls s' with
      | EmptyString => if cls c then EmptyString else String c EmptyString
      | t => String c t
      end
  end.

(** [s.replace(/^X+|X+$/g, '')]: the leading run and the trailing run of the
    class are deleted. *)
Definition trim_runs (cls : ascii -> bool) (s : string) : string :=
  drop_trailing cls (drop_leading cls s).

(** [String.prototype.includes] *)
Fixpoint includes (s sub : string) : bool :=
  String.prefix sub s
  || match s with
     | EmptyString => false
     | String _ s' => includes s' sub
     end.

(** [Array.prototype.indexOf] on an array of strings; [-1] when absent. *)
Fixpoint indexOf_from (l : list string) (x : string) (i : Z) : Z :=
  match l with
  | [] => -1
  | y :: l' => if String.eqb y x then i else indexOf_from l' x (i + 1)
  end.

Definition indexOf (l : list string) (x : string) : Z := indexOf_from l x 0.

(** [Array.prototype.includes] on an array of strings. *)
Definition array_includes (l : list string) (x : string) : bool :=
  existsb (String.eqb x) l.

(** Number-to-string conversion of an integer, as in a template literal. *)
Definition toString (n : Z) : string :=
  NilEmpty.string_of_int (Z.to_int n).

(** Numbers are integers here: the form only ever holds the results of
    [parseInt(..) || 0] and the integer defaults.  [v || d] on a possibly
    missing number: [undefined] and [0] are falsy. *)
Definition num_or (v : option Z) (d : Z) : Z :=
  match v with
  | Some n => if n =? 0 then d else n
  | None => d
  end.

(** Property values of the untyped objects handed to the consumers of the
    evaluation records. [None] stands for [undefined] when read. *)
Inductive value : Type :=
  | JNum (n : Z)
  | JStr (s : string).

Definition truthy (v : option value) : bool :=
  match v with
  | Some (JNum n) => negb (n =? 0)
  | Some (JStr s) => negb (String.eqb s "")
  | None => false
  end.

(** [a || b] *)
Definition or_else (a b : option value) : option value :=
  if truthy a then a else b.

(** A property used where a string is expected. *)
Definition string_of (v : option value) : string :=
  match v with
  | Some (JStr s) => s
  | Some (JNum n) => toString n
  | None => "undefined"
  end.

(** [obj[k] = v]; storing [undefined] reads back as [undefined]. *)
Definition set_prop (k : string) (v : option value)
           (obj : gmap string value) : gmap string value :=
  match v with
  | Some x => <[k := x]> obj
  | None => delete k obj
  end.

(** [Array.prototype.sort(cmp)]: the host sorts stably; for a consistent
    comparator the result is the stable sorted arrangement, computed here by
    stable insertion ([cmp a b > 0] puts [a] after [b]). *)
Section Sort.
Context {A : Type} (cmp : A -> A -> Z).

Fixpoint insert_sorted (x : A) (l : list A) : list A :=
  match l with
  | [] => [x]
  | y :: l' => if cmp y x <=? 0 then y :: insert_sorted x l' else x :: l
  end.

Definition sort (l : list A) : list A :=
  fold_left (fun acc x => insert_sorted x acc) l [].
End Sort.

(** [Map<string, V>]: keys in insertion order; [set] on a present key
    replaces the value in place. *)
Section Map.
Context {V : Type}.

Fixpoint Map_get (m : list (string * V)) (k : string) : option V :=
  match m with
  | [] => None
  | (k', v) :: m' => if String.eqb k' k then Some v else Map_get m' k
  end.

Definition Map_has (m : list (string * V)) (k : string) : bool :=
  match Map_get m k with Some _ => true | None => false end.

Fixpoint Map_set (m : list (string * V)) (k : string) (v : V)
  : list (string * V) :=
  match m with
  | [] => [(k, v)]
  | (k', v') :: m' =>
      if String.eqb k' k then (k', v) :: m' else (k', v') :: Map_set m' k v
  end.

Definition Map_values (m : list (string * V)) : list V := map snd m.
End Map.

(** [Array.from(new Set(xs))]: the distinct elements, in insertion order. *)
Definition Set_from (xs : list string) : list string :=
  fold_left (fun acc x => if existsb (String.eqb x) acc then acc
                          else (acc ++ [x])%list) xs [].

(** The names every plain object inherits from [Object.prototype].  Read on
    an object that has no own property of that name, each yields a function
    (an object for [__proto__]): a truthy value without a [push] method. *)
Definition Object_prototype_names : list string :=
  [ "constructor"; "hasOwnProperty"; "isPrototypeOf"; "propertyIsEnumerable";
    "toLocaleString"; "toString"; "valueOf"; "__proto__";
    "__defineGetter__"; "__defineSetter__"; "__lookupGetter__";
    "__lookupSetter__" ].

Definition inherited (k : string) : bool :=
  existsb (String.eqb k) Object_prototype_names.

(** [obj[k] = v] for a number or string [v] on a plain object.  The value
    becomes an own property of the object, except under the name
    [__proto__]: there the assignment reaches the accessor inherited from
    [Object.prototype], which ignores a value that is not an object, and
    nothing is stored. *)
Definition assign (k : string) (v : value) (obj : gmap string value)
  : gmap string value :=
  if String.eqb k "__proto__" then obj else <[k := v]> obj.

(** What [obj[k]] finds on a plain object: the own property, or, when the
    object has no own property of that name, the member of that name
    inherited from [Object.prototype]. *)
Inductive found : Type :=
  | Own (v : value)
  | Member (name : string).

Definition get (obj : gmap string value) (k : string) : option found :=
  match obj !! k with
  | Some v => Some (Own v)
  | None => if inherited k then Some (Member k) else None
  end.

(** An inherited member is a function or an object: truthy. *)
Definition truthy_found (f : option found) : bool :=
  match f with
  | Some (Own v) => truthy (Some v)
  | Some (Member _) => true
  | None => false
  end.

(** [a || b] on what was found. *)
Definition found_or (a : option found) (b : found) : found :=
  match a with
  | Some f => if truthy_found a then f else b
  | None => b
  end.

(** The property name that [obj[f]] uses for a key [f].  A string is its own
    name and a number its decimal; for an inherited member the name is the
    text the host converts it to, [memberKey]. *)
Definition property_key (memberKey : string -> string) (f : found) : string :=
  match f with
  | Own (JStr s) => s
  | Own (JNum n) => toString n
  | Member name => memberKey name
  end.

End JS.

(* ===================================================================== *)
(** * Shared data *)
(* ===================================================================== *)

Inductive CriteriaType : Type := Benefit | Cost.

(** A row of the [criteria] table (the weight column is not read by any
    function below). *)
Record Criteria : Type := mkCriteria {
  id : string;
  name : string;
  category : string;
  type : CriteriaType;
  scale : string
}.

(** The canonical order, declared identically in the three components. *)
Definition CANONICAL_CRITERIA_ORDER : list string :=
  [ "Kualitas Kerja"; "Tanggung Jawab"; "Kuantitas Kerja"; "Pemahaman Tugas";
    "Inisiatif"; "Kerjasama";
    "Jumlah Hari Alpa"; "Jumlah Keterlambatan"; "Jumlah Hari Izin";
    "Jumlah Hari Sakit"; "Pulang Cepat";
    "Prestasi"; "Surat Peringatan" ].

(** The comparator handed to [sort] in every [fetchCriteria].  The fallback
    [a.name.localeCompare(b.name)] is the host's collation, a parameter. *)
Definition compareCriteria (localeCompare : string -> string -> Z)
           (a b : Criteria) : Z :=
  let indexA := JS.indexOf CANONICAL_CRITERIA_ORDER (name a) in
  let indexB := JS.indexOf CANONICAL_CRITERIA_ORDER (name b) in
  if (indexA =? -1) && (indexB =? -1) then localeCompare (name a) (name b)
  else if indexA =? -1 then 1
  else if indexB =? -1 then -1
  else indexA - indexB.

Definition sortedCriteria (localeCompare : string -> string -> Z)
           (criteriaData : list Criteria) : list Criteria :=
  JS.sort (compareCriteria localeCompare) criteriaData.

(** [getCriteriaCode], declared identically in the three components. *)
Definition getCriteriaCode (criteriaName : string) : string :=
  let index := JS.indexOf CANONICAL_CRITERIA_ORDER criteriaName in
  if negb (index =? -1) then "C" +:+ JS.toString (index + 1) else "C?".

(** The thirteen legacy slots of the employee-centric record: criterion
    name, property of the [Employee] interface, and the constant used when
    the slot has no value.  The same thirteen triples appear in the
    evaluation form's projection (initial object and [switch]) and in its
    [newEmployee] literal; the dialog's [updatedEmployee] literal uses the
    same name/property pairs. *)
Definition LEGACY_SLOTS : list (string * (string * Z)) :=
  [ ("Kualitas Kerja", ("kualitasKerja", 1));
    ("Tanggung Jawab", ("tanggungJawab", 1));
    ("Kuantitas Kerja", ("kuantitasKerja", 1));
    ("Pemahaman Tugas", ("pemahamanTugas", 1));
    ("Inisiatif", ("inisiatif", 1));
    ("Kerjasama", ("kerjasama", 1));
    ("Jumlah Hari Alpa", ("hariAlpa", 0));
    ("Jumlah Keterlambatan", ("keterlambatan", 0));
    ("Jumlah Hari Izin", ("hariIzin", 0));
    ("Jumlah Hari Sakit", ("hariSakit", 0));
    ("Pulang Cepat", ("pulangCepat", 0));
    ("Prestasi", ("prestasi", 0));
    ("Surat Peringatan", ("suratPeringatan", 0)) ].

(** An [Employee] object as the consumers receive it: the declared
    properties and the dynamically added ones live in one object. *)
Abbreviation Employee := (gmap string JS.value).

(* ===================================================================== *)
(** * The persistence service *)
(* ===================================================================== *)

(** The components reach the score store through a client library; the
    store itself is not among the sources.  Its three operations are
    modelled from the contract of the specification (sections 4.5, 5 and 6)
    and from the arguments the components pass. *)

Module Supabase.

(** A row of the [employees] table (only the columns read below). *)
Record DBEmployee : Type := mkDBEmployee {
  emp_id : string;
  emp_name : string
}.

(** A persisted row of [evaluation_scores]. *)
Record ScoreRow : Type := mkScoreRow {
  es_id : string;
  es_employee_id : string;
  es_criteria_id : string;
  es_score : Z
}.

(** An element of the array handed to [upsert]: [id] is optional. *)
Record ScoreData : Type := mkScoreData {
  sd_id : option string;
  employee_id : string;
  criteria_id : string;
  score : Z
}.

(** A row of [evaluation_scores] joined with its employee and criterion. *)
Record EvaluationScore : Type := mkEvaluationScore {
  row : ScoreRow;
  employees : option DBEmployee;
  criteria : option Criteria
}.

Record Database : Type := mkDatabase {
  employees_table : list DBEmployee;
  criteria_table : list Criteria;
  evaluation_scores : list ScoreRow
}.

Inductive Request : Type :=
  | SelectExisting (employeeId : string)
  | Upsert (rows : list ScoreData)
  | SelectJoined.

(** The service as the client sees it: its tables, which requests it
    answers with an error, the identity it gives to a newly inserted row,
    and the requests received so far (oldest first). *)
Record Server : Type := mkServer {
  tables : Database;
  rejects : Request -> bool;
  new_id : list ScoreRow -> string;
  requests : list Request
}.

(** The [{ data, error }] answer of a request. *)
Inductive Response (A : Type) : Type :=
  | Data (data : A)
  | Error (message : string).
Arguments Data {A} data.
Arguments Error {A} message.

Definition received (r : Request) (s : Server) : Server :=
  {| tables := tables s; rejects := rejects s; new_id := new_id s;
     requests := requests s ++ [r] |}.

Definition with_scores (rows : list ScoreRow) (s : Server) : Server :=
  {| tables := {| employees_table := employees_table (tables s);
                  criteria_table := criteria_table (tables s);
                  evaluation_scores := rows |};
     rejects := rejects s; new_id := new_id s; requests := requests s |}.

(** Modelled from the spec: [fetchExisting(employeeId)], called as
    [from('evaluation_scores').select('id, criteria_id').eq('employee_id', e)]:
    identity and criterion of the rows of the employee. *)
Definition existing_of (employeeId : string) (rows : list ScoreRow)
  : list (string * string) :=
  map (fun r => (es_id r, es_criteria_id r))
      (List.filter (fun r => String.eqb (es_employee_id r) employeeId) rows).

Definition select_existing (employeeId : string) (s : Server)
  : Response (list (string * string)) * Server :=
  let s' := received (SelectExisting employeeId) s in
  if rejects s (SelectExisting employeeId)
  then (Error "fetch failed", s')
  else (Data (existing_of employeeId (evaluation_scores (tables s))), s').

(** Modelled from the spec: [upsertBatch(plan, conflictKey = (employeeId,
    criterionId))], called as [upsert(rows, { onConflict:
    'employee_id,criteria_id', ignoreDuplicates: false })].  A payload row
    that conflicts with a persisted row on (employee_id, criteria_id)
    updates that row with the columns it carries; otherwise it is inserted,
    with a fresh identity when it carries none.  The batch is applied as a
    whole: rejected, it changes nothing. *)
Definition conflicts (d : ScoreData) (r : ScoreRow) : bool :=
  String.eqb (es_employee_id r) (employee_id d)
  && String.eqb (es_criteria_id r) (criteria_id d).

Definition merged (d : ScoreData) (r : ScoreRow) : ScoreRow :=
  {| es_id := match sd_id d with Some i => i | None => es_id r end;
     es_employee_id := es_employee_id r;
     es_criteria_id := es_criteria_id r;
     es_score := score d |}.

Definition upsert_row (fresh : list ScoreRow -> string)
           (rows : list ScoreRow) (d : ScoreData) : list ScoreRow :=
  if existsb (conflicts d) rows
  then map (fun r => if conflicts d r then merged d r else r) rows
  else rows ++ [ {| es_id := match sd_id d with
                             | Some i => i
                             | None => fresh rows
                             end;
                    es_employee_id := employee_id d;
                    es_criteria_id := criteria_id d;
                    es_score := score d |} ].

Definition upsert_rows (fresh : list ScoreRow -> string)
           (rows : list ScoreRow) (payload : list ScoreData) : list ScoreRow :=
  fold_left (upsert_row fresh) payload rows.

Definition upsert (payload : list ScoreData) (s : Server)
  : Response unit * Server :=
  let s' := received (Upsert payload) s in
  if rejects s (Upsert payload)
  then (Error "upsert failed", s')
  else (Data tt,
        with_scores
          (upsert_rows (new_id s) (evaluation_scores (tables s)) payload) s').

(** Modelled from the spec: [fetchAllJoined()], called as
    [select('*, employees!inner(..), criteria!inner(..)')]: every score row
    with its employee and its criterion; rows without a matching employee
    or criterion are left out. *)
Definition joined (db : Database) : list EvaluationScore :=
  flat_map
    (fun r =>
       match find (fun e => String.eqb (emp_id e) (es_employee_id r))
                  (employees_table db),
             find (fun c => String.eqb (id c) (es_criteria_id r))
                  (criteria_table db)
       with
       | Some e, Some c =>
           [ {| row := r; employees := Some e; criteria := Some c |} ]
       | _, _ => []
       end)
    (evaluation_scores db).

Definition select_joined (s : Server)
  : Response (list EvaluationScore) * Server :=
  let s' := received SelectJoined s in
  if rejects s SelectJoined
  then (Error "fetch failed", s')
  else (Data (joined (tables s)), s').

(** Modelled from the spec: [deleteAllFor(employeeId)], called as
    [from('evaluation_scores').delete().eq('employee_id', employeeId)]:
    the rows of the employee are removed, the others stay. *)
Definition delete_scores (employeeId : string) (rows : list ScoreRow)
  : list ScoreRow :=
  List.filter (fun r => negb (String.eqb (es_employee_id r) employeeId)) rows.

End Supabase.

(** A computation that talks to the service and may throw. *)
Inductive Completion (A : Type) : Type :=
  | Returned (a : A)
  | Thrown (error : string).
Arguments Returned {A} a.
Arguments Thrown {A} error.

Definition Async (A : Type) : Type :=
  Supabase.Server -> Completion A * Supabase.Server.

Definition ret {A} (a : A) : Async A := fun s => (Returned a, s).

Definition bind {A B} (m : Async A) (k : A -> Async B) : Async B :=
  fun s => match m s with
           | (Returned a, s') => k a s'
           | (Thrown e, s') => (Thrown e, s')
           end.

Notation "'let*' x ':=' m 'in' k" := (bind m (fun x => k))
  (at level 10, x name, m at level 100, k at level 200).

(** [const { data, error } = await request; if (error) throw error;] *)
Definition await_or_throw {A}
           (request : Supabase.Server -> Supabase.Response A * Supabase.Server)
  : Async A :=
  fun s => match request s with
           | (Supabase.Data d, s') => (Returned d, s')
           | (Supabase.Error e, s') => (Thrown e, s')
           end.

(** [try { body } catch (error) { handler }] *)
Definition try_catch {A} (body : Async A) (handler : string -> A)
  : Supabase.Server -> A * Supabase.Server :=
  fun s => match body s with
           | (Returned a, s') => (a, s')
           | (Thrown e, s') => (handler e, s')
           end.

(** What a submit handler has done when it ends: the toasts it showed
    (title, description) and the record it handed to its callback, if any. *)
Record Outcome : Type := mkOutcome {
  toasts : list (string * string);
  handed_over : option Employee
}.

Definition failure (description : string) : Outcome :=
  {| toasts := [("Error", description)]; handed_over := None |}.

Definition success (description : string) (e : Employee) : Outcome :=
  {| toasts := [("Berhasil", description)]; handed_over := Some e |}.

(** An object literal: later properties win. *)
Definition object_of (props : list (string * JS.value)) : Employee :=
  fold_left (fun o kv => <[fst kv := snd kv]> o) props ∅.

(** The part of [handleSubmit] that both components share verbatim:
    [existingScoresMap] and the [scoreData] object of one criterion.
    [formValue] is how the component reads the criterion's form value. *)
Definition existingScoresMap (existingScores : list (string * string))
  : list (string * string) :=
  fold_left (fun m sc => JS.Map_set m (snd sc) (fst sc)) existingScores [].

Definition scoreData (employeeId : string) (m : list (string * string))
           (formValue : Criteria -> option Z) (criterion : Criteria)
  : Supabase.ScoreData :=
  let existingId := JS.Map_get m (id criterion) in
  {| Supabase.sd_id :=
       match existingId with
       | Some i => if String.eqb i "" then None else Some i
       | None => None
       end;
     Supabase.employee_id := employeeId;
     Supabase.criteria_id := id criterion;
     Supabase.score := JS.num_or (formValue criterion) 0 |}.

Definition evaluationScoresData (employeeId : string)
           (existingScores : list (string * string))
           (formValue : Criteria -> option Z) (criteria : list Criteria)
  : list Supabase.ScoreData :=
  map (scoreData employeeId (existingScoresMap existingScores) formValue)
      criteria.

(** Grouping as the three components write it: the accumulator is a plain
    object from group key to array; a criterion is pushed onto the array
    under its key, which is created when the object has nothing under the
    key.  A key that names an inherited member finds that member instead of
    an array, and the [push] throws: [None]. *)
Definition group_push (key : Criteria -> string)
           (acc : option (gmap string (list Criteria))) (criterion : Criteria)
  : option (gmap string (list Criteria)) :=
  match acc with
  | None => None
  | Some groups =>
      match groups !! key criterion with
      | Some members => Some (<[key criterion := (members ++ [criterion])%list]> groups)
      | None =>
          if JS.inherited (key criterion) then None
          else Some (<[key criterion := [criterion]]> groups)
      end
  end.

(* ===================================================================== *)
(** * CriteriaTable.tsx *)
(* ===================================================================== *)

Module CriteriaTable.

Definition groupBy (array : list Criteria) (key : Criteria -> string)
  : option (gmap string (list Criteria)) :=
  fold_left (group_push key) array (Some ∅).

Definition groupedCriteria (criteria : list Criteria)
  : option (gmap string (list Criteria)) :=
  groupBy criteria category.

End CriteriaTable.

(* ===================================================================== *)
(** * EditEmployeeDialog.tsx *)
(* ===================================================================== *)

Module EditEmployeeDialog.

Definition createFieldName (criteriaName : string) : string :=
  JS.replace_runs JS.is_underscore "_" false
    (JS.trim_runs JS.is_underscore
       (JS.replace_runs JS.is_space "_" false
          (JS.keep (fun c => JS.is_lower_alnum c || JS.is_space c)
             (JS.toLowerCase criteriaName)))).

(** [specialMappings[fieldName] || fieldName], where [specialMappings] is
    an object literal with the listed properties: a field name that the
    literal lacks and [Object.prototype] has finds the inherited member,
    which is truthy and is what the mapping returns. *)
Definition lookup_or_self (specialMappings : list (string * string))
           (fieldName : string) : JS.found :=
  match JS.Map_get specialMappings fieldName with
  | Some mapped =>
      JS.Own (JS.JStr (if String.eqb mapped "" then fieldName else mapped))
  | None =>
      if JS.inherited fieldName then JS.Member fieldName
      else JS.Own (JS.JStr fieldName)
  end.

Definition createDatabaseFieldMapping (criteriaName : string) : JS.found :=
  let fieldName := createFieldName criteriaName in
  lookup_or_self
    [ ("kualitas_kerja", "kualitas_kerja");
      ("tanggung_jawab", "tanggung_jawab");
      ("kuantitas_kerja", "kuantitas_kerja");
      ("pemahaman_tugas", "pemahaman_tugas");
      ("inisiatif", "inisiatif");
      ("kerjasama", "kerjasama");
      ("jumlah_hari_alpa", "hari_alpa");
      ("jumlah_keterlambatan", "keterlambatan");
      ("jumlah_hari_izin", "hari_izin");
      ("jumlah_hari_sakit", "hari_sakit");
      ("pulang_cepat", "pulang_cepat");
      ("prestasi", "prestasi");
      ("surat_peringatan", "surat_peringatan") ]
    fieldName.

Definition createEmployeeFieldMapping (criteriaName : string) : JS.found :=
  let fieldName := createFieldName criteriaName in
  lookup_or_self
    [ ("kualitas_kerja", "kualitasKerja");
      ("tanggung_jawab", "tanggungJawab");
      ("kuantitas_kerja", "kuantitasKerja");
      ("pemahaman_tugas", "pemahamanTugas");
      ("inisiatif", "inisiatif");
      ("kerjasama", "kerjasama");
      ("jumlah_hari_alpa", "hariAlpa");
      ("jumlah_keterlambatan", "keterlambatan");
      ("jumlah_hari_izin", "hariIzin");
      ("jumlah_hari_sakit", "hariSakit");
      ("pulang_cepat", "pulangCepat");
      ("prestasi", "prestasi");
      ("surat_peringatan", "suratPeringatan") ]
    fieldName.

Record State : Type := mkState {
  employee : option Employee;
  criteria : list Criteria;
  formData : gmap string Z
}.

Definition formValue (formData : gmap string Z) (criterion : Criteria)
  : option Z :=
  formData !! createFieldName (name criterion).

(** [{ ...employee, kualitasKerja: formData[..] || employee.kualitasKerja,
    ... }] *)
Definition updatedEmployee (employee : Employee) (formData : gmap string Z)
  : Employee :=
  fold_left
    (fun o slot =>
       JS.set_prop (fst (snd slot))
         (JS.or_else (JS.JNum <$> formData !! createFieldName (fst slot))
                     (employee !! fst (snd slot)))
         o)
    LEGACY_SLOTS employee.

Definition handleSubmit (st : State)
  : Supabase.Server -> Outcome * Supabase.Server :=
  match employee st with
  | None => fun s => ({| toasts := []; handed_over := None |}, s)
  | Some employee =>
      let employeeId := JS.string_of (employee !! "id") in
      try_catch
        (let* existingScores :=
           await_or_throw (Supabase.select_existing employeeId) in
         let data :=
           evaluationScoresData employeeId existingScores
             (formValue (formData st)) (criteria st) in
         let* _ := await_or_throw (Supabase.upsert data) in
         ret (success
                "Data evaluasi karyawan berhasil diperbarui dengan struktur terorganisir"
                (updatedEmployee employee (formData st))))
        (fun _ => failure "Gagal memperbarui data evaluasi")
  end.

(** The effect that fills the form when the dialog has an employee and
    criteria: [newFormData[formFieldName] = employee[employeeFieldName] || 0].
    [memberKey] is the text the host converts an inherited member to when
    the mapping returned one and it is used as the property name.  A form
    field name never is [__proto__], so the assignment stores. *)
Definition newFormData (memberKey : string -> string) (employee : Employee)
           (criteria : list Criteria) : gmap string JS.found :=
  fold_left
    (fun fd criterion =>
       let formFieldName := createFieldName (name criterion) in
       let employeeFieldName := createEmployeeFieldMapping (name criterion) in
       let value :=
         JS.found_or
           (JS.get employee (JS.property_key memberKey employeeFieldName))
           (JS.Own (JS.JNum 0)) in
       <[formFieldName := value]> fd)
    criteria ∅.

Definition groupedCriteria (criteria : list Criteria)
  : option (gmap string (list Criteria)) :=
  fold_left (group_push category) criteria (Some ∅).

End EditEmployeeDialog.

(* ===================================================================== *)
(** * The employee evaluation form *)
(* ===================================================================== *)

Module EmployeeForm.

Record State : Type := mkState {
  dbEmployees : list Supabase.DBEmployee;
  evaluationScores : list Supabase.EvaluationScore;
  criteria : list Criteria;
  selectedEmployeeId : string;
  formData : gmap string Z
}.

(** [fetchCriteria]: the value a criterion's slot gets when the form is
    initialised. *)
Definition initialFormValue (criterion : Criteria) : Z :=
  match type criterion with
  | Benefit =>
      if JS.includes (scale criterion) "1-5" then 1
      else if JS.includes (scale criterion) "0-1"
              || JS.includes (scale criterion) "0/1" then 0
      else 1
  | Cost => 0
  end.

Definition newFormData (sortedCriteria : list Criteria) : gmap string Z :=
  fold_left (fun fd criterion => <[id criterion := initialFormValue criterion]> fd)
            sortedCriteria ∅.

(** [handleSubmit]: the value a criterion's slot gets when the form is reset
    after a save. *)
Definition resetFormValue (criterion : Criteria) : Z :=
  match type criterion with
  | Benefit => if JS.includes (scale criterion) "1-5" then 1 else 0
  | Cost => 0
  end.

Definition defaultFormData (criteria : list Criteria) : gmap string Z :=
  fold_left (fun fd criterion => <[id criterion := resetFormValue criterion]> fd)
            criteria ∅.

(** [convertEvaluationScoresToEmployees] *)

(** The object put into [employeeMap] for a newly seen employee. *)
Definition initialEmployee (employeeId employeeName : string) : Employee :=
  object_of
    (("id", JS.JStr employeeId) :: ("name", JS.JStr employeeName)
     :: map (fun slot => (fst (snd slot), JS.JNum (snd (snd slot))))
            LEGACY_SLOTS).

(** The [switch] on [score.criteria.name]: the property that receives the
    score; the [default] branch assigns under the name itself. *)
Definition employeeField (criteriaName : string) : string :=
  match JS.Map_get LEGACY_SLOTS criteriaName with
  | Some slot => fst slot
  | None => criteriaName
  end.

(** One score of the [forEach]: the employee's record is created when the
    id is new, and the score is assigned to its property of the record,
    [employee.kualitasKerja = score.score] for a canonical name and
    [employee[score.criteria.name] = score.score] otherwise. *)
Definition project_step (employeeMap : list (string * Employee))
           (score : Supabase.EvaluationScore) : list (string * Employee) :=
  match Supabase.employees score, Supabase.criteria score with
  | Some emp, Some crit =>
      let employeeId := Supabase.es_employee_id (Supabase.row score) in
      let employeeMap :=
        if negb (JS.Map_has employeeMap employeeId)
        then JS.Map_set employeeMap employeeId
               (initialEmployee employeeId (Supabase.emp_name emp))
        else employeeMap in
      match JS.Map_get employeeMap employeeId with
      | Some employee =>
          JS.Map_set employeeMap employeeId
            (JS.assign (employeeField (name crit))
                       (JS.JNum (Supabase.es_score (Supabase.row score)))
                       employee)
      | None => employeeMap
      end
  | _, _ => employeeMap
  end.

Definition employeeMap (evaluationScores : list Supabase.EvaluationScore)
  : list (string * Employee) :=
  fold_left project_step evaluationScores [].

Definition convertEvaluationScoresToEmployees (st : State) : list Employee :=
  JS.Map_values (employeeMap (evaluationScores st)).

(** [fetchEvaluationScores] *)
Definition fetchEvaluationScores (st : State) (s : Supabase.Server)
  : (list (string * string) * State) * Supabase.Server :=
  match Supabase.select_joined s with
  | (Supabase.Error _, s') =>
      (([("Error", "Gagal mengambil data evaluasi dari database")], st), s')
  | (Supabase.Data data, s') =>
      (([], {| dbEmployees := dbEmployees st;
               evaluationScores := data;
               criteria := criteria st;
               selectedEmployeeId := selectedEmployeeId st;
               formData := formData st |}), s')
  end.

(** [handleSubmit] *)

Definition formValue (formData : gmap string Z) (criterion : Criteria)
  : option Z :=
  formData !! id criterion.

(** [formData[criteria.find(c => c.name === n)?.id || ''] || d] *)
Definition legacyValue (criteria : list Criteria) (formData : gmap string Z)
           (n : string) (d : Z) : Z :=
  JS.num_or
    (formData !! match find (fun c => String.eqb (name c) n) criteria with
                 | Some c => if String.eqb (id c) "" then "" else id c
                 | None => ""
                 end)
    d.

(** The object literal, and after it the loop that assigns
    [newEmployee[criterion.name] = formData[criterion.id] || 0] for the
    criteria outside the canonical names. *)
Definition newEmployee (selectedEmployee : Supabase.DBEmployee)
           (criteria : list Criteria) (formData : gmap string Z) : Employee :=
  let literal :=
    object_of
      (("id", JS.JStr (Supabase.emp_id selectedEmployee))
       :: ("name", JS.JStr (Supabase.emp_name selectedEmployee))
       :: map (fun slot =>
                 (fst (snd slot),
                  JS.JNum (legacyValue criteria formData
                             (fst slot) (snd (snd slot)))))
              LEGACY_SLOTS) in
  fold_left
    (fun o criterion =>
       if negb (JS.array_includes CANONICAL_CRITERIA_ORDER (name criterion))
       then JS.assign (name criterion)
                      (JS.JNum (JS.num_or (formData !! id criterion) 0)) o
       else o)
    criteria literal.

Definition handleSubmit (st : State)
  : Supabase.Server -> (Outcome * State) * Supabase.Server :=
  if String.eqb (selectedEmployeeId st) ""
  then fun s => ((failure "Silakan pilih karyawan terlebih dahulu", st), s)
  else
    match find (fun emp => String.eqb (Supabase.emp_id emp)
                                      (selectedEmployeeId st))
               (dbEmployees st) with
    | None =>
        fun s => ((failure "Karyawan yang dipilih tidak ditemukan", st), s)
    | Some selectedEmployee =>
        try_catch
          (let* existingScores :=
             await_or_throw
               (Supabase.select_existing (selectedEmployeeId st)) in
           let data :=
             evaluationScoresData (selectedEmployeeId st) existingScores
               (formValue (formData st)) (criteria st) in
           let* _ := await_or_throw (Supabase.upsert data) in
           let saved :=
             success
               "Data evaluasi karyawan berhasil disimpan dengan struktur fleksibel dan terorganisir"
               (newEmployee selectedEmployee (criteria st) (formData st)) in
           let st' :=
             {| dbEmployees := dbEmployees st;
                evaluationScores := evaluationScores st;
                criteria := criteria st;
                selectedEmployeeId := "";
                formData := defaultFormData (criteria st) |} in
           fun s =>
             match fetchEvaluationScores st' s with
             | ((shown, st''), s') =>
                 (Returned
                    ({| toasts := toasts saved ++ shown;
                        handed_over := handed_over saved |}, st''), s')
             end)
          (fun _ => (failure "Gagal menyimpan data evaluasi", st))
    end.

(** [fetchCriteria], given the answer of the criteria select: the criteria
    are sorted and the form gets a slot for each. *)
Definition fetchCriteria (localeCompare : string -> string -> Z)
           (answer : Supabase.Response (list Criteria)) (st : State)
  : list (string * string) * State :=
  match answer with
  | Supabase.Error _ => ([("Error", "Gagal mengambil data kriteria")], st)
  | Supabase.Data criteriaData =>
      let sorted := sortedCriteria localeCompare criteriaData in
      ([], {| dbEmployees := dbEmployees st;
              evaluationScores := evaluationScores st;
              criteria := sorted;
              selectedEmployeeId := selectedEmployeeId st;
              formData := newFormData sorted |})
  end.

(** The [min] and [max] attributes of a criterion's input. *)
Definition inputMin (criterion : Criteria) : string :=
  match type criterion with
  | Benefit => if JS.includes (scale criterion) "1-5" then "1" else "0"
  | Cost => "0"
  end.

Definition inputMax (criterion : Criteria) : string :=
  if JS.includes (scale criterion) "1-5" then "5"
  else if JS.includes (scale criterion) "0-1"
          || JS.includes (scale criterion) "0/1" then "1"
  else "10".

(** The employees offered for evaluation. *)
Definition evaluatedEmployeeIds (st : State) : list string :=
  JS.Set_from
    (map (fun sc => Supabase.es_employee_id (Supabase.row sc))
         (evaluationScores st)).

Definition availableEmployees (st : State) : list Supabase.DBEmployee :=
  List.filter
    (fun emp => negb (JS.array_includes (evaluatedEmployeeIds st)
                                        (Supabase.emp_id emp)))
    (dbEmployees st).

Definition groupedCriteria (st : State)
  : option (gmap string (list Criteria)) :=
  fold_left (group_push category) (criteria st) (Some ∅).

(** The criteria listed as additional in the detail dialog. *)
Definition additionalCriteria (st : State) : list Criteria :=
  List.filter
    (fun c => negb (JS.array_includes CANONICAL_CRITERIA_ORDER (name c)))
    (criteria st).

(** [handleEmployeeDelete]; [confirmed] is the user's answer to the
    confirmation, [rejected] whether the service answers the delete with an
    error. *)
Definition handleEmployeeDelete (confirmed rejected : bool)
           (employeeId : string) (st : State) (s : Supabase.Server)
  : (list (string * string) * State) * Supabase.Server :=
  if negb confirmed then (([], st), s)
  else if rejected
  then (([("Error", "Gagal menghapus data evaluasi")], st), s)
  else
    let s1 :=
      Supabase.with_scores
        (Supabase.delete_scores employeeId
           (Supabase.evaluation_scores (Supabase.tables s))) s in
    match fetchEvaluationScores st s1 with
    | ((shown, st'), s2) =>
        ((("Berhasil", "Data evaluasi karyawan berhasil dihapus") :: shown,
          st'), s2)
    end.

(** [handleInputChange]: [{ ...prev, [criteria_id]: value }]. *)
Definition handleInputChange (criteria_id : string) (value : Z) (st : State)
  : State :=
  {| dbEmployees := dbEmployees st;
     evaluationScores := evaluationScores st;
     criteria := criteria st;
     selectedEmployeeId := selectedEmployeeId st;
     formData := <[criteria_id := value]> (formData st) |}.

(** The employee select's [onValueChange]. *)
Definition setSelectedEmployeeId (employeeId : string) (st : State) : State :=
  {| dbEmployees := dbEmployees st;
     evaluationScores := evaluationScores st;
     criteria := criteria st;
     selectedEmployeeId := employeeId;
     formData := formData st |}.

End EmployeeForm.

(* ===================================================================== *)
(** * Vocabulary of the statements *)
(* ===================================================================== *)

(** Every code unit of [s] is in the class. *)
Fixpoint every (cls : ascii -> bool) (s : string) : bool :=
  match s with
  | EmptyString => true
  | String c s' => cls c && every cls s'
  end.

Definition not_underscore (c : ascii) : bool := negb (JS.is_underscore c).

Definition token_char (c : ascii) : bool :=
  JS.is_lower_alnum c || JS.is_underscore c.

(** Position of a criterion in the canonical order, and whether it has one. *)
Definition position (c : Criteria) : Z :=
  JS.indexOf CANONICAL_CRITERIA_ORDER (name c).

Definition found (c : Criteria) : bool := negb (position c =? -1).

(** Code-unit lexicographic comparison, one possible [localeCompare]. *)
Definition lexicographic (a b : string) : Z :=
  match String.compare a b with
  | Lt => -1
  | Eq => 0
  | Gt => 1
  end.

(** The store invariant: at most one row per (employee, criterion) pair. *)
Definition pair_of (r : Supabase.ScoreRow) : string * string :=
  (Supabase.es_employee_id r, Supabase.es_criteria_id r).

Definition one_row_per_pair (rows : list Supabase.ScoreRow) : Prop :=
  NoDup (map pair_of rows).

Definition payload_pair (d : Supabase.ScoreData) : string * string :=
  (Supabase.employee_id d, Supabase.criteria_id d).

(** The tables after the service has applied the payload to the score
    table. *)
Definition upserted (s : Supabase.Server) (payload : list Supabase.ScoreData)
  : Supabase.Database :=
  {| Supabase.employees_table := Supabase.employees_table (Supabase.tables s);
     Supabase.criteria_table := Supabase.criteria_table (Supabase.tables s);
     Supabase.evaluation_scores :=
       Supabase.upsert_rows (Supabase.new_id s)
         (Supabase.evaluation_scores (Supabase.tables s)) payload |}.

(** The plan each component builds against the tables of [s]. *)
Definition form_plan (st : EmployeeForm.State) (s : Supabase.Server)
  : list Supabase.ScoreData :=
  evaluationScoresData (EmployeeForm.selectedEmployeeId st)
    (Supabase.existing_of (EmployeeForm.selectedEmployeeId st)
       (Supabase.evaluation_scores (Supabase.tables s)))
    (EmployeeForm.formValue (EmployeeForm.formData st))
    (EmployeeForm.criteria st).

Definition dialog_plan (employee : Employee) (st : EditEmployeeDialog.State)
           (s : Supabase.Server) : list Supabase.ScoreData :=
  evaluationScoresData (JS.string_of (employee !! "id"))
    (Supabase.existing_of (JS.string_of (employee !! "id"))
       (Supabase.evaluation_scores (Supabase.tables s)))
    (EditEmployeeDialog.formValue (EditEmployeeDialog.formData st))
    (EditEmployeeDialog.criteria st).

(** The default the projection gives to the slot that receives the scores
    of criterion [c], for an employee [employeeId] named [employeeName]. *)
Definition projectionDefault (employeeId employeeName : string) (c : Criteria)
  : option JS.value :=
  EmployeeForm.initialEmployee employeeId employeeName
  !! EmployeeForm.employeeField (name c).

(** A score tuple (employeeId, employeeName, criterionName, value): what the
    projection reads of a joined row that has both its employee and its
    criterion. *)
Record Tuple : Type := mkTuple {
  t_employeeId : string;
  t_employeeName : string;
  t_criterionName : string;
  t_value : Z
}.

Definition tuple_of (sc : Supabase.EvaluationScore) : option Tuple :=
  match Supabase.employees sc, Supabase.criteria sc with
  | Some emp, Some crit =>
      Some {| t_employeeId := Supabase.es_employee_id (Supabase.row sc);
              t_employeeName := Supabase.emp_name emp;
              t_criterionName := name crit;
              t_value := Supabase.es_score (Supabase.row sc) |}
  | _, _ => None
  end.

Definition tuples (scores : list Supabase.EvaluationScore) : list Tuple :=
  omap tuple_of scores.

Definition written_field (t : Tuple) : string :=
  EmployeeForm.employeeField (t_criterionName t).

(** The distinct elements of a list, each at its first occurrence. *)
Fixpoint first_seen (ids : list string) : list string :=
  match ids with
  | [] => []
  | x :: l => x :: List.filter (fun y => negb (String.eqb y x)) (first_seen l)
  end.

(** The projection read tuple by tuple. *)
Definition write_tuple (o : Employee) (t : Tuple) : Employee :=
  JS.assign (written_field t) (JS.JNum (t_value t)) o.

Definition step_tuple (m : list (string * Employee)) (t : Tuple)
  : list (string * Employee) :=
  let m1 :=
    if negb (JS.Map_has m (t_employeeId t))
    then JS.Map_set m (t_employeeId t)
           (EmployeeForm.initialEmployee (t_employeeId t) (t_employeeName t))
    else m in
  match JS.Map_get m1 (t_employeeId t) with
  | Some employee => JS.Map_set m1 (t_employeeId t) (write_tuple employee t)
  | None => m1
  end.

(** The record of employee [e] after the tuples [ts], starting from [o]. *)
Definition record_from (o : option Employee) (e : string) (ts : list Tuple)
  : option Employee :=
  fold_left
    (fun acc t =>
       if String.eqb (t_employeeId t) e
       then Some (write_tuple
                    (default (EmployeeForm.initialEmployee e (t_employeeName t))
                             acc) t)
       else acc)
    ts o.

(** The tuple the joined select yields for a persisted row, if any. *)
Definition tuple_of_row (db : Supabase.Database) (r : Supabase.ScoreRow)
  : option Tuple :=
  match find (fun e => String.eqb (Supabase.emp_id e) (Supabase.es_employee_id r))
             (Supabase.employees_table db),
        find (fun c => String.eqb (id c) (Supabase.es_criteria_id r))
             (Supabase.criteria_table db)
  with
  | Some e, Some c =>
      Some {| t_employeeId := Supabase.es_employee_id r;
              t_employeeName := Supabase.emp_name e;
              t_criterionName := name c;
              t_value := Supabase.es_score r |}
  | _, _ => None
  end.

(** The property that receives the scores of a criterion. *)
Definition property_of (c : Criteria) : string :=
  EmployeeForm.employeeField (name c).

(** The employee has a score row in the tables of [s] for a criterion of
    the criteria table named [n]. *)
Definition earlier_score (s : Supabase.Server) (employeeId n : string)
  : Prop :=
  exists r c,
    In r (Supabase.evaluation_scores (Supabase.tables s))
    /\ Supabase.es_employee_id r = employeeId
    /\ In c (Supabase.criteria_table (Supabase.tables s))
    /\ id c = Supabase.es_criteria_id r
    /\ name c = n.

(** Persisted rows have an identity. *)
Definition identified (rows : list Supabase.ScoreRow) : Prop :=
  forall r, In r rows -> Supabase.es_id r <> "".

Definition rows_of (employeeId : string) (rows : list Supabase.ScoreRow)
  : list Supabase.ScoreRow :=
  List.filter (fun r => String.eqb (Supabase.es_employee_id r) employeeId) rows.

(** The payloads of the upsert requests among the requests [rs]. *)
Definition upserts (rs : list Supabase.Request)
  : list (list Supabase.ScoreData) :=
  flat_map (fun r => match r with
                     | Supabase.Upsert payload => [payload]
                     | _ => []
                     end) rs.

(** A fetched score that comes with its employee and its criterion. *)
Definition complete (sc : Supabase.EvaluationScore) : Prop :=
  is_Some (Supabase.employees sc) /\ is_Some (Supabase.criteria sc).

(** The properties every projected record starts with. *)
Definition initial_properties : list string :=
  "id" :: "name" :: map (fun slot => fst (snd slot)) LEGACY_SLOTS.

(** Shape of a token: where its underscores stand. *)
Definition starts_with_underscore (s : string) : bool :=
  match s with
  | EmptyString => false
  | String c _ => JS.is_underscore c
  end.

Fixpoint ends_with_underscore (s : string) : bool :=
  match s with
  | EmptyString => false
  | String c EmptyString => JS.is_underscore c
  | String _ s' => ends_with_underscore s'
  end.

Fixpoint double_underscore (s : string) : bool :=
  match s with
  | EmptyString => false
  | String c s' =>
      (JS.is_underscore c && starts_with_underscore s') || double_underscore s'
  end.

(* ===================================================================== *)
(** * Codes of the canonical order *)
(* ===================================================================== *)

Lemma indexOf_from_absent (l : list string) (x : string) (i : Z) :
  x ∉ l -> JS.indexOf_from l x i = -1.
Proof.
  revert i; induction l as [|y l IH]; intros i Hx; simpl; [reflexivity|].
  destruct (String.eqb_spec y x) as [->|Hne].
  - exfalso; apply Hx; left.
  - apply IH. intros Hin. apply Hx. now right.
Qed.

Lemma indexOf_from_found (l : list string) (x : string) (n : nat) (i : Z) :
  NoDup l -> l !! n = Some x -> JS.indexOf_from l x i = i + Z.of_nat n.
Proof.
  revert n i; induction l as [|y l IH]; intros n i Hnd Hn; [discriminate|].
  apply NoDup_cons in Hnd as [Hy Hnd]. simpl.
  destruct n as [|n]; simpl in Hn.
  - injection Hn as ->. rewrite String.eqb_refl. lia.
  - destruct (String.eqb_spec y x) as [->|Hne].
    + exfalso. apply Hy. eapply list_elem_of_lookup_2; eassumption.
    + rewrite (IH n (i + 1) Hnd Hn). lia.
Qed.

Lemma CANONICAL_CRITERIA_ORDER_NoDup : NoDup CANONICAL_CRITERIA_ORDER.
Proof. apply (bool_decide_unpack _); vm_compute; exact I. Qed.

(** C6. For a criterion name at zero-based position [i] of the canonical
    list, [getCriteriaCode] returns the letter C followed by the decimal
    numeral of [i+1]; for a name that is not in the list it returns "C?".
    The result depends on the name only: [getCriteriaCode] is a function. *)
Theorem getCriteriaCode_spec (criteriaName : string) :
  (forall i : nat,
      CANONICAL_CRITERIA_ORDER !! i = Some criteriaName ->
      getCriteriaCode criteriaName = "C" +:+ JS.toString (Z.of_nat i + 1))
  /\ (criteriaName ∉ CANONICAL_CRITERIA_ORDER ->
      getCriteriaCode criteriaName = "C?").
Proof.
  unfold getCriteriaCode, JS.indexOf. split.
  - intros i Hi.
    rewrite (indexOf_from_found _ _ i 0 CANONICAL_CRITERIA_ORDER_NoDup Hi).
    replace (0 + Z.of_nat i =? -1) with false by (symmetry; apply Z.eqb_neq; lia).
    reflexivity.
  - intros Hout. now rewrite (indexOf_from_absent _ _ 0 Hout).
Qed.

Lemma getCriteriaCode_witness :
  getCriteriaCode "Prestasi" = "C12" /\ getCriteriaCode "Bonus" = "C?".
Proof.
  split.
  - exact (proj1 (getCriteriaCode_spec "Prestasi") 11%nat eq_refl).
  - apply (proj2 (getCriteriaCode_spec "Bonus")).
    apply (bool_decide_unpack _); vm_compute; exact I.
Defined.

(* ===================================================================== *)
(** * Field names *)
(* ===================================================================== *)

Section CharacterClasses.

Local Ltac by_cases c :=
  destruct c as [[] [] [] [] [] [] [] []]; vm_compute; congruence.

Lemma token_char_lower (c : ascii) :
  token_char c = true -> JS.toLowerCase_char c = c.
Proof. by_cases c. Qed.

Lemma token_char_kept (c : ascii) :
  token_char c = true ->
  JS.is_lower_alnum c || JS.is_space c = not_underscore c.
Proof. by_cases c. Qed.

Lemma alnum_or_space_token (c : ascii) :
  JS.is_lower_alnum c || JS.is_space c = true ->
  JS.is_space c = false -> token_char c = true.
Proof. by_cases c. Qed.

Lemma token_not_underscore_not_space (c : ascii) :
  token_char c = true -> not_underscore c = true -> JS.is_space c = false.
Proof. by_cases c. Qed.

End CharacterClasses.

Section Runs.
Variables (cls : ascii -> bool).

Lemma every_keep (s : string) : every cls (JS.keep cls s) = true.
Proof.
  induction s as [|c s IH]; simpl; [reflexivity|].
  destruct (cls c) eqn:E; simpl; [rewrite E|]; exact IH.
Qed.

Lemma keep_every (s : string) : every cls s = true -> JS.keep cls s = s.
Proof.
  induction s as [|c s IH]; simpl; [reflexivity|].
  intros [-> H]%andb_true_iff. now rewrite IH.
Qed.

Lemma keep_length (s : string) :
  (String.length (JS.keep cls s) <= String.length s)%nat.
Proof.
  induction s as [|c s IH]; simpl; [lia|].
  destruct (cls c); simpl; lia.
Qed.

Lemma keep_fixed (s : string) : JS.keep cls s = s -> every cls s = true.
Proof.
  induction s as [|c s IH]; simpl; [reflexivity|].
  destruct (cls c) eqn:E; simpl.
  - intros [= H]. auto.
  - intros H. pose proof (keep_length s) as L. rewrite H in L. simpl in L. lia.
Qed.

Lemma every_weaken (cls' : ascii -> bool) (s : string) :
  (forall c, cls c = true -> cls' c = true) ->
  every cls s = true -> every cls' s = true.
Proof.
  intros Hc. induction s as [|c s IH]; simpl; [reflexivity|].
  intros [H1 H2]%andb_true_iff. rewrite (Hc _ H1). simpl. auto.
Qed.

Lemma keep_ext (cls' : ascii -> bool) (good : ascii -> bool) (s : string) :
  (forall c, good c = true -> cls c = cls' c) ->
  every good s = true -> JS.keep cls s = JS.keep cls' s.
Proof.
  intros Hc. induction s as [|c s IH]; simpl; [reflexivity|].
  intros [H1 H2]%andb_true_iff. rewrite (Hc _ H1), (IH H2). reflexivity.
Qed.

Lemma every_keep_other (good : ascii -> bool) (s : string) :
  every good s = true -> every good (JS.keep cls s) = true.
Proof.
  induction s as [|c s IH]; simpl; [reflexivity|].
  intros [H1 H2]%andb_true_iff.
  destruct (cls c); simpl; [rewrite H1|]; auto.
Qed.

(** Run replacement. *)
Lemma every_replace_runs (good good' : ascii -> bool) (r : ascii) (b : bool)
      (s : string) :
  (forall c, good c = true -> cls c = false -> good' c = true) ->
  good' r = true ->
  every good s = true -> every good' (JS.replace_runs cls r b s) = true.
Proof.
  intros Hc Hr. revert b. induction s as [|c s IH]; intros b; simpl;
    [reflexivity|].
  intros [H1 H2]%andb_true_iff.
  destruct (cls c) eqn:E.
  - destruct b; simpl; [|rewrite Hr; simpl]; apply IH, H2.
  - simpl. rewrite (Hc _ H1 E). simpl. apply IH, H2.
Qed.

Lemma replace_runs_none (r : ascii) (b : bool) (s : string) :
  every (fun c => negb (cls c)) s = true -> JS.replace_runs cls r b s = s.
Proof.
  revert b. induction s as [|c s IH]; intros b; simpl; [reflexivity|].
  intros [H1 H2]%andb_true_iff. apply negb_true_iff in H1. rewrite H1.
  now rewrite IH.
Qed.

(** Trimming. *)
Lemma every_drop_leading (good : ascii -> bool) (s : string) :
  every good s = true -> every good (JS.drop_leading cls s) = true.
Proof.
  induction s as [|c s IH]; simpl; [reflexivity|].
  intros H. destruct (cls c); [|exact H].
  apply andb_true_iff in H as [_ H]. auto.
Qed.

Lemma every_drop_trailing (good : ascii -> bool) (s : string) :
  every good s = true -> every good (JS.drop_trailing cls s) = true.
Proof.
  induction s as [|c s IH]; simpl; [reflexivity|].
  intros [H1 H2]%andb_true_iff. specialize (IH H2).
  destruct (JS.drop_trailing cls s) as [|c' t].
  - destruct (cls c); simpl; [reflexivity|]. now rewrite H1.
  - simpl in *. now rewrite H1.
Qed.

Lemma trim_runs_none (s : string) :
  every (fun c => negb (cls c)) s = true -> JS.trim_runs cls s = s.
Proof.
  unfold JS.trim_runs. intros H.
  assert (JS.drop_leading cls s = s) as ->.
  { destruct s as [|c s]; simpl in *; [reflexivity|].
    apply andb_true_iff in H as [H _]. apply negb_true_iff in H.
    now rewrite H. }
  induction s as [|c s IH]; simpl in *; [reflexivity|].
  apply andb_true_iff in H as [H1 H2]. apply negb_true_iff in H1.
  rewrite (IH H2). destruct s; [now rewrite H1 | reflexivity].
Qed.

End Runs.

Lemma toLowerCase_token (s : string) :
  every token_char s = true -> JS.toLowerCase s = s.
Proof.
  induction s as [|c s IH]; simpl; [reflexivity|].
  intros [H1 H2]%andb_true_iff. now rewrite (token_char_lower _ H1), IH.
Qed.

(** The result of [createFieldName] consists of [a-z], [0-9] and
    underscores. *)
Lemma createFieldName_token (x : string) :
  every token_char (EditEmployeeDialog.createFieldName x) = true.
Proof.
  unfold EditEmployeeDialog.createFieldName.
  apply every_replace_runs with (good := token_char); [auto|reflexivity|].
  apply every_drop_trailing, every_drop_leading.
  apply every_replace_runs
    with (good := fun c => JS.is_lower_alnum c || JS.is_space c);
    [apply alnum_or_space_token|reflexivity|].
  apply every_keep.
Qed.

(** On a string of token characters the function deletes the underscores
    and does nothing else. *)
Lemma createFieldName_on_token (y : string) :
  every token_char y = true ->
  EditEmployeeDialog.createFieldName y = JS.keep not_underscore y.
Proof.
  intros Hy. unfold EditEmployeeDialog.createFieldName.
  rewrite (toLowerCase_token _ Hy).
  rewrite (keep_ext _ not_underscore token_char y token_char_kept Hy).
  assert (every (fun c => token_char c && not_underscore c)
                (JS.keep not_underscore y) = true) as Hz.
  { clear -Hy. induction y as [|c y IH]; simpl in *; [reflexivity|].
    apply andb_true_iff in Hy as [H1 H2].
    destruct (not_underscore c) eqn:E; simpl; [rewrite H1, E; simpl|]; auto. }
  set (z := JS.keep not_underscore y) in *.
  rewrite (replace_runs_none JS.is_space).
  2:{ revert Hz. apply every_weaken. intros c [H1 H2]%andb_true_iff.
      apply negb_true_iff. now apply token_not_underscore_not_space. }
  assert (every (fun c => negb (JS.is_underscore c)) z = true) as Hu.
  { revert Hz. apply every_weaken. now intros c [_ H]%andb_true_iff. }
  rewrite (trim_runs_none _ _ Hu). now apply replace_runs_none.
Qed.

(** C4 (as amended). Applying [createFieldName] to its own result deletes
    the underscores of that result. Hence a second application changes
    nothing exactly when the first result has no underscore, and from the
    second application on the function is stable. *)
Theorem createFieldName_twice (x : string) :
  let once := EditEmployeeDialog.createFieldName x in
  let twice := EditEmployeeDialog.createFieldName once in
  twice = JS.keep not_underscore once
  /\ (twice = once <-> every not_underscore once = true)
  /\ EditEmployeeDialog.createFieldName twice = twice.
Proof.
  intros once twice.
  assert (twice = JS.keep not_underscore once) as E
      by apply createFieldName_on_token, createFieldName_token.
  split; [exact E|]. split.
  - rewrite E. split; [apply keep_fixed | apply keep_every].
  - rewrite E, createFieldName_on_token.
    + apply keep_every, every_keep.
    + apply every_keep_other, createFieldName_token.
Qed.

(** C4, counterexample. The name of the specification's own example is not
    a fixed point: its field name is "jumlah_hari_alpa", and the field name
    of that token is "jumlahharialpa". *)
Lemma createFieldName_not_idempotent :
  EditEmployeeDialog.createFieldName "Jumlah  Hari  Alpa!" = "jumlah_hari_alpa"
  /\ EditEmployeeDialog.createFieldName "jumlah_hari_alpa" = "jumlahharialpa"
  /\ EditEmployeeDialog.createFieldName
       (EditEmployeeDialog.createFieldName "Jumlah  Hari  Alpa!")
     <> EditEmployeeDialog.createFieldName "Jumlah  Hari  Alpa!"
  /\ EditEmployeeDialog.createFieldName "Jumlah  Hari  Alpa!"
     <> EditEmployeeDialog.createFieldName "jumlah_hari_alpa".
Proof. vm_compute. repeat split; discriminate. Qed.

(* ===================================================================== *)
(** * Sorting the criteria *)
(* ===================================================================== *)

Section InsertionSort.
Context {A : Type} (cmp : A -> A -> Z).
Let le (a b : A) : Prop := cmp a b <= 0.
Hypothesis le_total : forall a b, le a b \/ le b a.
Hypothesis le_trans : forall a b c, le a b -> le b c -> le a c.

Lemma insert_sorted_perm (x : A) (l : list A) :
  Permutation (x :: l) (JS.insert_sorted cmp x l).
Proof.
  induction l as [|y l IH]; simpl; [reflexivity|].
  destruct (cmp y x <=? 0); [|reflexivity].
  rewrite perm_swap. now apply perm_skip.
Qed.

Lemma insert_sorted_sorted (x : A) (l : list A) :
  StronglySorted le l -> StronglySorted le (JS.insert_sorted cmp x l).
Proof.
  induction 1 as [|y l Hs IH Hy]; simpl.
  - repeat constructor.
  - destruct (Z.leb_spec (cmp y x) 0) as [Hle|Hgt].
    + constructor; [exact IH|].
      rewrite <- insert_sorted_perm. constructor; [exact Hle|exact Hy].
    + assert (le x y) as Hxy by (destruct (le_total x y); [assumption|unfold le in *; lia]).
      constructor; [now constructor|].
      constructor; [exact Hxy|].
      eapply Forall_impl; [exact Hy|]. intros z Hz. eapply le_trans; eassumption.
Qed.

Lemma sort_from_perm (l acc : list A) :
  Permutation (acc ++ l)
              (fold_left (fun acc x => JS.insert_sorted cmp x acc) l acc).
Proof.
  revert acc; induction l as [|x l IH]; intros acc; simpl.
  - now rewrite app_nil_r.
  - rewrite <- IH, <- insert_sorted_perm. simpl.
    symmetry. apply Permutation_middle.
Qed.

Lemma sort_from_sorted (l acc : list A) :
  StronglySorted le acc ->
  StronglySorted le (fold_left (fun acc x => JS.insert_sorted cmp x acc) l acc).
Proof.
  revert acc; induction l as [|x l IH]; intros acc Hacc; simpl; [exact Hacc|].
  apply IH, insert_sorted_sorted, Hacc.
Qed.

Lemma sort_perm (l : list A) : Permutation l (JS.sort cmp l).
Proof. exact (sort_from_perm l []). Qed.

Lemma sort_sorted (l : list A) : StronglySorted le (JS.sort cmp l).
Proof. apply sort_from_sorted. constructor. Qed.

Lemma sorted_lookup (l : list A) (i j : nat) (a b : A) :
  StronglySorted le l -> (i < j)%nat ->
  l !! i = Some a -> l !! j = Some b -> le a b.
Proof.
  intros Hs. revert i j. induction Hs as [|y l Hs IH Hy]; intros i j Hij Hi Hj.
  - discriminate.
  - destruct j as [|j]; [lia|]. simpl in Hj. destruct i as [|i]; simpl in Hi.
    + injection Hi as ->. rewrite Forall_forall in Hy. apply Hy.
      eapply list_elem_of_lookup_2; eassumption.
    + apply (IH i j); [lia|assumption|assumption].
Qed.
End InsertionSort.

Section Comparator.
Variable localeCompare : string -> string -> Z.

Local Ltac cases a b :=
  unfold compareCriteria, found, position in *;
  destruct (JS.indexOf CANONICAL_CRITERIA_ORDER (name a) =? -1) eqn:?;
  destruct (JS.indexOf CANONICAL_CRITERIA_ORDER (name b) =? -1) eqn:?;
  simpl in *.

Lemma compareCriteria_found (a b : Criteria) :
  compareCriteria localeCompare a b <= 0 ->
  (found a = true -> found b = true -> position a <= position b)
  /\ (found a = false -> found b = false ->
      localeCompare (name a) (name b) <= 0)
  /\ (found b = true -> found a = true).
Proof. cases a b; intros H; repeat split; intros; try congruence; lia. Qed.

Hypothesis localeCompare_total :
  forall a b, localeCompare a b <= 0 \/ localeCompare b a <= 0.
Hypothesis localeCompare_trans :
  forall a b c, localeCompare a b <= 0 -> localeCompare b c <= 0 ->
                localeCompare a c <= 0.

Lemma compareCriteria_total (a b : Criteria) :
  compareCriteria localeCompare a b <= 0
  \/ compareCriteria localeCompare b a <= 0.
Proof. cases a b; try lia. apply localeCompare_total. Qed.

Lemma compareCriteria_trans (a b c : Criteria) :
  compareCriteria localeCompare a b <= 0 ->
  compareCriteria localeCompare b c <= 0 ->
  compareCriteria localeCompare a c <= 0.
Proof.
  unfold compareCriteria.
  destruct (JS.indexOf CANONICAL_CRITERIA_ORDER (name a) =? -1) eqn:?;
  destruct (JS.indexOf CANONICAL_CRITERIA_ORDER (name b) =? -1) eqn:?;
  destruct (JS.indexOf CANONICAL_CRITERIA_ORDER (name c) =? -1) eqn:?;
  simpl; try lia.
  apply localeCompare_trans.
Qed.
End Comparator.

(** C5. With a collation [localeCompare] that is a total preorder, the
    comparator of [fetchCriteria] is a total and transitive preorder, and
    the sorted array is a rearrangement of the input in which, for any two
    positions in order: two criteria found in the canonical list stand in
    ascending canonical position, two criteria both absent from it stand in
    [localeCompare] order of their names, and no absent criterion stands
    before a found one. *)
Theorem sortedCriteria_ordered (localeCompare : string -> string -> Z) :
  (forall a b, localeCompare a b <= 0 \/ localeCompare b a <= 0) ->
  (forall a b c, localeCompare a b <= 0 -> localeCompare b c <= 0 ->
                 localeCompare a c <= 0) ->
  let before := fun a b => compareCriteria localeCompare a b <= 0 in
  (forall a b, before a b \/ before b a)
  /\ (forall a b c, before a b -> before b c -> before a c)
  /\ forall criteriaData : list Criteria,
      let out := sortedCriteria localeCompare criteriaData in
      Permutation criteriaData out
      /\ forall (i j : nat) (a b : Criteria),
          (i < j)%nat -> out !! i = Some a -> out !! j = Some b ->
          (found a = true -> found b = true -> position a <= position b)
          /\ (found a = false -> found b = false ->
              localeCompare (name a) (name b) <= 0)
          /\ (found b = true -> found a = true).
Proof.
  intros Htotal Htrans before.
  pose proof (compareCriteria_total localeCompare Htotal) as T.
  pose proof (compareCriteria_trans localeCompare Htrans) as R.
  split; [exact T|]. split; [exact R|].
  intros criteriaData out. split.
  - apply sort_perm.
  - intros i j a b Hij Hi Hj. apply compareCriteria_found.
    exact (sorted_lookup _ out i j a b (sort_sorted _ T R criteriaData) Hij Hi Hj).
Qed.

Lemma lexicographic_total (a b : string) :
  lexicographic a b <= 0 \/ lexicographic b a <= 0.
Proof.
  unfold lexicographic. rewrite (String.compare_antisym a b).
  destruct (String.compare b a); simpl; lia.
Qed.

Lemma string_compare_trans (a b c : string) :
  String.compare a b <> Gt -> String.compare b c <> Gt ->
  String.compare a c <> Gt.
Proof.
  revert b c. induction a as [|x a IH]; intros [|y b] [|z c]; simpl;
    try congruence.
  unfold Ascii.compare.
  destruct (N.compare_spec (N_of_ascii x) (N_of_ascii y)) as [E1|L1|G1];
    try congruence;
  destruct (N.compare_spec (N_of_ascii y) (N_of_ascii z)) as [E2|L2|G2];
    try congruence;
  destruct (N.compare_spec (N_of_ascii x) (N_of_ascii z)) as [E3|L3|G3];
    try congruence; try lia.
  apply IH.
Qed.

Lemma lexicographic_trans (a b c : string) :
  lexicographic a b <= 0 -> lexicographic b c <= 0 -> lexicographic a c <= 0.
Proof.
  unfold lexicographic. intros H1 H2.
  assert (String.compare a c <> Gt) as H.
  { apply (string_compare_trans a b c).
    - destruct (String.compare a b); [congruence|congruence|lia].
    - destruct (String.compare b c); [congruence|congruence|lia]. }
  destruct (String.compare a c); [lia|lia|congruence].
Qed.

Lemma sortedCriteria_ordered_witness :
  let input :=
    [ mkCriteria "x2" "Zona Kerja" "Lain" Benefit "1-5";
      mkCriteria "c7" "Jumlah Hari Alpa" "Kedisiplinan" Cost "0-10";
      mkCriteria "x1" "Absensi Rapat" "Lain" Cost "0-10";
      mkCriteria "c1" "Kualitas Kerja" "Kinerja Inti" Benefit "1-5" ] in
  map name (sortedCriteria lexicographic input)
  = [ "Kualitas Kerja"; "Jumlah Hari Alpa"; "Absensi Rapat"; "Zona Kerja" ]
  /\ Permutation input (sortedCriteria lexicographic input).
Proof.
  intros input. split; [reflexivity|].
  exact (proj1 (proj2 (proj2 (sortedCriteria_ordered lexicographic
                                lexicographic_total lexicographic_trans))
                      input)).
Defined.

(* ===================================================================== *)
(** * The reconciliation plan *)
(* ===================================================================== *)

Section MapFacts.
Context {V : Type}.

Lemma Map_get_set (m : list (string * V)) (k k' : string) (v : V) :
  JS.Map_get (JS.Map_set m k v) k'
  = if String.eqb k k' then Some v else JS.Map_get m k'.
Proof.
  induction m as [|[k0 v0] m IH]; simpl.
  - reflexivity.
  - destruct (String.eqb_spec k0 k) as [->|Hne]; simpl.
    + destruct (String.eqb k k'); reflexivity.
    + rewrite IH. destruct (String.eqb_spec k0 k') as [->|Hne'];
        [|reflexivity].
      destruct (String.eqb_spec k k'); [congruence|reflexivity].
Qed.

Lemma Map_set_keys (m : list (string * V)) (k : string) (v : V) :
  map fst (JS.Map_set m k v)
  = if JS.Map_has m k then map fst m else (map fst m ++ [k])%list.
Proof.
  unfold JS.Map_has. induction m as [|[k0 v0] m IH]; simpl; [reflexivity|].
  destruct (String.eqb k0 k); simpl; [reflexivity|].
  rewrite IH. destruct (JS.Map_get m k); reflexivity.
Qed.

Lemma Map_has_keys (m : list (string * V)) (k : string) :
  JS.Map_has m k = true <-> In k (map fst m).
Proof.
  unfold JS.Map_has. induction m as [|[k0 v0] m IH]; simpl.
  - split; [discriminate|tauto].
  - destruct (String.eqb_spec k0 k) as [->|Hne]; [tauto|].
    rewrite IH. tauto.
Qed.
End MapFacts.

(** What [existingScoresMap] answers: the identity of the last fetched row
    of the criterion. *)
Lemma existingScoresMap_from (ex m : list (string * string)) (k : string) :
  JS.Map_get (fold_left (fun m sc => JS.Map_set m (snd sc) (fst sc)) ex m) k
  = fold_left (fun acc sc => if String.eqb (snd sc) k then Some (fst sc) else acc)
              ex (JS.Map_get m k).
Proof.
  revert m. induction ex as [|[i0 k0] ex IH]; intros m; simpl; [reflexivity|].
  rewrite IH, Map_get_set. reflexivity.
Qed.

Lemma last_identity_unique (ex : list (string * string)) (k i : string)
      (acc : option string) :
  NoDup (map snd ex) ->
  fold_left (fun acc sc => if String.eqb (snd sc) k then Some (fst sc) else acc)
            ex acc = Some i
  <-> In (i, k) ex \/ (~ In k (map snd ex) /\ acc = Some i).
Proof.
  revert acc. induction ex as [|[i0 k0] ex IH]; intros acc Hnd; simpl.
  - tauto.
  - apply NoDup_cons in Hnd as [Hk0 Hnd]. rewrite list_elem_of_In in Hk0.
    rewrite (IH _ Hnd). simpl in *.
    destruct (String.eqb_spec k0 k) as [->|Hne].
    + split.
      * intros [Hin|[_ [= ->]]]; [|now left; left].
        exfalso. apply Hk0. apply in_map_iff. now exists (i, k).
      * intros [[[= ->]|Hin]|[Hn _]]; [now right| |tauto].
        exfalso. apply Hk0. apply in_map_iff. now exists (i, k).
    + split.
      * intros [Hin|[Hn Ha]]; [now left; right|right]. tauto.
      * intros [[[= -> ->]|Hin]|[Hn Ha]]; [congruence|now left|right]. tauto.
Qed.

Lemma existing_of_In (employeeId : string) (rows : list Supabase.ScoreRow)
      (i k : string) :
  In (i, k) (Supabase.existing_of employeeId rows)
  <-> exists r, In r rows /\ Supabase.es_employee_id r = employeeId
                /\ Supabase.es_criteria_id r = k /\ Supabase.es_id r = i.
Proof.
  unfold Supabase.existing_of. rewrite in_map_iff. split.
  - intros (r & [= <- <-] & [Hr He%String.eqb_eq]%filter_In). eauto.
  - intros (r & Hr & He & <- & <-). exists r. split; [reflexivity|].
    apply filter_In. split; [exact Hr|]. now apply String.eqb_eq.
Qed.

Lemma existing_of_NoDup (employeeId : string) (rows : list Supabase.ScoreRow) :
  one_row_per_pair rows ->
  NoDup (map snd (Supabase.existing_of employeeId rows)).
Proof.
  unfold one_row_per_pair, Supabase.existing_of.
  induction rows as [|r rows IH]; simpl; [constructor|].
  intros [Hr Hnd]%NoDup_cons. rewrite list_elem_of_In in Hr.
  destruct (String.eqb_spec (Supabase.es_employee_id r) employeeId) as [He|He];
    [|now apply IH].
  simpl. apply NoDup_cons. split; [|now apply IH].
  rewrite list_elem_of_In, map_map. simpl.
  intros (r' & Hk & [Hr' He'%String.eqb_eq]%filter_In)%in_map_iff.
  apply Hr. apply in_map_iff. exists r'. split; [|exact Hr'].
  unfold pair_of. congruence.
Qed.

(** C1. Under the invariants of the score table (rows are identified, at
    most one row per employee and criterion), the array handed to [upsert]
    has one element per criterion of the form, in order, each naming the
    employee; an element carries identity [i] exactly when the table holds a
    row of identity [i] for that employee and that criterion, and carries no
    identity exactly when the table holds no row for the pair. *)
Theorem evaluationScoresData_identities
        (rows : list Supabase.ScoreRow) (employeeId : string)
        (formValue : Criteria -> option Z) (criteria : list Criteria) :
  identified rows ->
  one_row_per_pair rows ->
  let plan :=
    evaluationScoresData employeeId (Supabase.existing_of employeeId rows)
                         formValue criteria in
  map Supabase.criteria_id plan = map id criteria
  /\ Forall (fun d => Supabase.employee_id d = employeeId) plan
  /\ forall (n : nat) (c : Criteria) (d : Supabase.ScoreData),
      criteria !! n = Some c -> plan !! n = Some d ->
      Supabase.criteria_id d = id c
      /\ (forall i, Supabase.sd_id d = Some i <->
                    exists r, In r rows
                              /\ Supabase.es_employee_id r = employeeId
                              /\ Supabase.es_criteria_id r = id c
                              /\ Supabase.es_id r = i)
      /\ (Supabase.sd_id d = None <->
          ~ exists r, In r rows /\ Supabase.es_employee_id r = employeeId
                      /\ Supabase.es_criteria_id r = id c).
Proof.
  intros Hid Huniq plan. unfold plan, evaluationScoresData.
  split; [now rewrite map_map|]. split.
  { apply Forall_forall. intros d (c & <- & _)%list_elem_of_In%in_map_iff.
    reflexivity. }
  intros n c d Hc Hd. rewrite list_lookup_fmap, Hc in Hd. injection Hd as <-.
  split; [reflexivity|].
  assert (forall i,
             Supabase.sd_id
               (scoreData employeeId
                  (existingScoresMap (Supabase.existing_of employeeId rows))
                  formValue c) = Some i
             <-> exists r, In r rows /\ Supabase.es_employee_id r = employeeId
                           /\ Supabase.es_criteria_id r = id c
                           /\ Supabase.es_id r = i) as Hiff.
  { intros i. rewrite <- existing_of_In. unfold scoreData, existingScoresMap.
    simpl. rewrite existingScoresMap_from. simpl.
    pose proof (last_identity_unique (Supabase.existing_of employeeId rows)
                  (id c) i None (existing_of_NoDup _ _ Huniq)) as L.
    destruct (fold_left _ _ None) as [i'|] eqn:E.
    - pose proof (last_identity_unique (Supabase.existing_of employeeId rows)
                    (id c) i' None (existing_of_NoDup _ _ Huniq)) as L'.
      rewrite E in L'.
      assert (In (i', id c) (Supabase.existing_of employeeId rows)) as Hin'
          by (destruct (proj1 L' eq_refl) as [H|[_ H]]; [exact H|discriminate]).
      destruct (String.eqb_spec i' "") as [->|Hne].
      + exfalso. apply existing_of_In in Hin' as (r & Hr & _ & _ & He).
        exact (Hid r Hr He).
      + split; intros H.
        * apply L in H as [H|[_ H]]; [exact H|discriminate].
        * apply L. now left.
    - split; intros H; [discriminate|].
      apply L. now left. }
  split; [exact Hiff|].
  split.
  - intros Hnone (r & Hr & He & Hk).
    assert (Supabase.sd_id
              (scoreData employeeId
                 (existingScoresMap (Supabase.existing_of employeeId rows))
                 formValue c) = Some (Supabase.es_id r)) as Hs
        by (apply Hiff; eauto).
    congruence.
  - intros Hno. destruct (Supabase.sd_id _) as [i|] eqn:E; [|reflexivity].
    exfalso. apply Hno.
    destruct (proj1 (Hiff i) eq_refl) as (r & Hr & He & Hk & _). eauto.
Qed.

Lemma evaluationScoresData_identities_witness :
  let rows :=
    [ Supabase.mkScoreRow "s1" "E" "A" 3;
      Supabase.mkScoreRow "s2" "E" "B" 4;
      Supabase.mkScoreRow "s3" "F" "C" 5 ] in
  let criteria :=
    [ mkCriteria "A" "Kualitas Kerja" "Kinerja Inti" Benefit "1-5";
      mkCriteria "B" "Tanggung Jawab" "Kinerja Inti" Benefit "1-5";
      mkCriteria "C" "Inisiatif" "Kinerja Inti" Benefit "1-5" ] in
  let plan :=
    evaluationScoresData "E" (Supabase.existing_of "E" rows)
                         (fun _ => Some 5) criteria in
  identified rows /\ one_row_per_pair rows
  /\ map Supabase.sd_id plan = [Some "s1"; Some "s2"; None]
  /\ map Supabase.criteria_id plan = map id criteria.
Proof.
  intros rows criteria plan.
  assert (identified rows) as Hid
      by (intros r [<-|[<-|[<-|[]]]]; discriminate).
  assert (one_row_per_pair rows) as Huniq
      by (apply (bool_decide_unpack _); vm_compute; exact I).
  split; [exact Hid|]. split; [exact Huniq|]. split; [reflexivity|].
  exact (proj1 (evaluationScoresData_identities rows "E" (fun _ => Some 5)
                  criteria Hid Huniq)).
Defined.

(* ===================================================================== *)
(** * Failure paths of the submit handlers *)
(* ===================================================================== *)

Lemma upserts_snoc (rs : list Supabase.Request) (r : Supabase.Request) :
  upserts (rs ++ [r])
  = (upserts rs ++ match r with
                   | Supabase.Upsert payload => [payload]
                   | _ => []
                   end)%list.
Proof. unfold upserts. rewrite flat_map_app. simpl. now rewrite app_nil_r. Qed.

(** C9. In both submit handlers: when the service answers the lookup of the
    employee's existing scores with an error, the handler ends with its
    failure toast, hands no record over, has sent the lookup and no upsert,
    and the tables are as before.  Whenever a handler ends without handing a
    record over, the tables are as before; and whatever the outcome, the
    requests it adds contain at most one upsert, carrying the whole plan. *)
Theorem failed_submit_leaves_tables :
  (forall (st : EmployeeForm.State) (s : Supabase.Server),
      let employeeId := EmployeeForm.selectedEmployeeId st in
      let result := EmployeeForm.handleSubmit st s in
      (forall selectedEmployee,
          employeeId <> "" ->
          find (fun emp => String.eqb (Supabase.emp_id emp) employeeId)
               (EmployeeForm.dbEmployees st) = Some selectedEmployee ->
          Supabase.rejects s (Supabase.SelectExisting employeeId) = true ->
          fst result = (failure "Gagal menyimpan data evaluasi", st)
          /\ Supabase.requests (snd result)
             = (Supabase.requests s ++ [Supabase.SelectExisting employeeId])%list
          /\ upserts (Supabase.requests (snd result))
             = upserts (Supabase.requests s)
          /\ Supabase.tables (snd result) = Supabase.tables s)
      /\ (handed_over (fst (fst result)) = None ->
          Supabase.tables (snd result) = Supabase.tables s)
      /\ exists added,
          Supabase.requests (snd result) = (Supabase.requests s ++ added)%list
          /\ (upserts added = [] \/ upserts added = [form_plan st s]))
  /\ (forall (st : EditEmployeeDialog.State) (s : Supabase.Server),
      let result := EditEmployeeDialog.handleSubmit st s in
      (forall employee,
          EditEmployeeDialog.employee st = Some employee ->
          let employeeId := JS.string_of (employee !! "id") in
          (Supabase.rejects s (Supabase.SelectExisting employeeId) = true ->
           fst result = failure "Gagal memperbarui data evaluasi"
           /\ Supabase.requests (snd result)
              = (Supabase.requests s ++ [Supabase.SelectExisting employeeId])%list
           /\ upserts (Supabase.requests (snd result))
              = upserts (Supabase.requests s)
           /\ Supabase.tables (snd result) = Supabase.tables s)
          /\ exists added,
              Supabase.requests (snd result)
              = (Supabase.requests s ++ added)%list
              /\ (upserts added = []
                  \/ upserts added = [dialog_plan employee st s]))
      /\ (handed_over (fst result) = None ->
          Supabase.tables (snd result) = Supabase.tables s)).
Proof.
  split.
  - intros st s employeeId result.
    unfold result, EmployeeForm.handleSubmit. fold employeeId.
    destruct (String.eqb_spec employeeId "") as [He|He].
    { simpl. split; [intros; congruence|]. split; [reflexivity|].
      exists []. rewrite app_nil_r. auto. }
    destruct (find _ (EmployeeForm.dbEmployees st)) as [sel|] eqn:Hsel.
    2:{ simpl. split; [intros; congruence|]. split; [reflexivity|].
        exists []. rewrite app_nil_r. auto. }
    unfold try_catch, bind, await_or_throw, Supabase.select_existing.
    destruct (Supabase.rejects s (Supabase.SelectExisting employeeId)) eqn:R1.
    { simpl. split.
      - intros _ _ _ _. repeat split.
        rewrite upserts_snoc. apply app_nil_r.
      - split; [reflexivity|].
        exists [Supabase.SelectExisting employeeId]. auto. }
    unfold Supabase.upsert. cbn [Supabase.rejects Supabase.received].
    change (evaluationScoresData employeeId
              (Supabase.existing_of employeeId
                 (Supabase.evaluation_scores (Supabase.tables s)))
              (EmployeeForm.formValue (EmployeeForm.formData st))
              (EmployeeForm.criteria st)) with (form_plan st s).
    destruct (Supabase.rejects s (Supabase.Upsert (form_plan st s))) eqn:R2.
    { simpl. split; [intros; congruence|]. split; [reflexivity|].
      exists [Supabase.SelectExisting employeeId;
              Supabase.Upsert (form_plan st s)].
      rewrite <- app_assoc. simpl. auto. }
    unfold EmployeeForm.fetchEvaluationScores, Supabase.select_joined.
    cbn [Supabase.rejects Supabase.received Supabase.with_scores].
    split; [intros; congruence|].
    destruct (Supabase.rejects s Supabase.SelectJoined); simpl;
      (split; [discriminate|]);
      exists [Supabase.SelectExisting employeeId;
              Supabase.Upsert (form_plan st s); Supabase.SelectJoined];
      rewrite <- !app_assoc; simpl; auto.
  - intros st s result. unfold result, EditEmployeeDialog.handleSubmit.
    destruct (EditEmployeeDialog.employee st) as [employee|].
    2:{ split; [intros; discriminate|reflexivity]. }
    set (employeeId := JS.string_of (employee !! "id")).
    unfold try_catch, bind, await_or_throw, Supabase.select_existing.
    destruct (Supabase.rejects s (Supabase.SelectExisting employeeId)) eqn:R1.
    { simpl. split; [|reflexivity]. intros ? [= <-]. fold employeeId.
      split.
      - intros _. repeat split. rewrite upserts_snoc. apply app_nil_r.
      - exists [Supabase.SelectExisting employeeId]. auto. }
    unfold Supabase.upsert. cbn [Supabase.rejects Supabase.received].
    change (evaluationScoresData employeeId
              (Supabase.existing_of employeeId
                 (Supabase.evaluation_scores (Supabase.tables s)))
              (EditEmployeeDialog.formValue (EditEmployeeDialog.formData st))
              (EditEmployeeDialog.criteria st))
      with (dialog_plan employee st s).
    destruct (Supabase.rejects s (Supabase.Upsert (dialog_plan employee st s)))
      eqn:R2; simpl.
    + split; [|reflexivity]. intros ? [= <-]. fold employeeId.
      split; [intros; congruence|].
      exists [Supabase.SelectExisting employeeId;
              Supabase.Upsert (dialog_plan employee st s)].
      rewrite <- app_assoc. simpl. auto.
    + split; [|discriminate]. intros ? [= <-]. fold employeeId.
      split; [intros; congruence|].
      exists [Supabase.SelectExisting employeeId;
              Supabase.Upsert (dialog_plan employee st s)].
      rewrite <- app_assoc. simpl. auto.
Qed.

Lemma failed_submit_leaves_tables_witness :
  let s :=
    Supabase.mkServer
      (Supabase.mkDatabase
         [Supabase.mkDBEmployee "E" "Budi"]
         [mkCriteria "A" "Kualitas Kerja" "Kinerja Inti" Benefit "1-5"]
         [Supabase.mkScoreRow "s1" "E" "A" 3])
      (fun r => match r with Supabase.SelectExisting _ => true | _ => false end)
      (fun _ => "s2") [] in
  let st :=
    EmployeeForm.mkState
      [Supabase.mkDBEmployee "E" "Budi"] []
      [mkCriteria "A" "Kualitas Kerja" "Kinerja Inti" Benefit "1-5"]
      "E" {[ "A" := 5 ]} in
  fst (EmployeeForm.handleSubmit st s)
  = (failure "Gagal menyimpan data evaluasi", st)
  /\ Supabase.requests (snd (EmployeeForm.handleSubmit st s))
     = [Supabase.SelectExisting "E"]
  /\ upserts (Supabase.requests (snd (EmployeeForm.handleSubmit st s))) = []
  /\ Supabase.tables (snd (EmployeeForm.handleSubmit st s)) = Supabase.tables s.
Proof.
  intros s st.
  exact (proj1 (proj1 failed_submit_leaves_tables st s)
               (Supabase.mkDBEmployee "E" "Budi")
               ltac:(discriminate) eq_refl eq_refl).
Defined.

(* ===================================================================== *)
(** * Objects built property by property *)
(* ===================================================================== *)

Lemma set_prop_lookup (k k' : string) (v : option JS.value) (o : Employee) :
  JS.set_prop k v o !! k' = if String.eqb k k' then v else o !! k'.
Proof.
  unfold JS.set_prop. destruct (String.eqb_spec k k') as [->|Hne].
  - destruct v; [apply lookup_insert_eq | apply lookup_delete_eq].
  - destruct v; [now apply lookup_insert_ne | now apply lookup_delete_ne].
Qed.

Lemma assign_lookup_eq (k : string) (v : JS.value) (o : Employee) :
  k <> "__proto__" -> JS.assign k v o !! k = Some v.
Proof.
  intros Hk. unfold JS.assign.
  destruct (String.eqb_spec k "__proto__"); [contradiction|].
  apply lookup_insert_eq.
Qed.

Lemma assign_lookup_ne (k k' : string) (v : JS.value) (o : Employee) :
  k <> k' -> JS.assign k v o !! k' = o !! k'.
Proof.
  intros Hk. unfold JS.assign.
  destruct (String.eqb k "__proto__"); [reflexivity|].
  now apply lookup_insert_ne.
Qed.

Lemma assign_lookup_proto (k : string) (v : JS.value) (o : Employee) :
  JS.assign k v o !! "__proto__" = o !! "__proto__".
Proof.
  unfold JS.assign. destruct (String.eqb_spec k "__proto__") as [->|Hk];
    [reflexivity|].
  now apply lookup_insert_ne.
Qed.

Lemma assign_lookup_is_Some (k k' : string) (v : JS.value) (o : Employee) :
  is_Some (o !! k') -> is_Some (JS.assign k v o !! k').
Proof.
  intros H. unfold JS.assign. destruct (String.eqb k "__proto__"); [exact H|].
  apply lookup_insert_is_Some'. now right.
Qed.

Section Folds.
Context {S : Type} (key : S -> string) (val : S -> option JS.value).

Let write (o : Employee) (s : S) : Employee := JS.set_prop (key s) (val s) o.

Lemma fold_write_untouched (slots : list S) (o : Employee) (k : string) :
  ~ In k (map key slots) -> fold_left write slots o !! k = o !! k.
Proof.
  revert o. induction slots as [|s slots IH]; intros o Hk; simpl;
    [reflexivity|].
  simpl in Hk. rewrite IH by tauto. unfold write.
  rewrite set_prop_lookup.
  destruct (String.eqb_spec (key s) k); [tauto|reflexivity].
Qed.

Lemma fold_write_lookup (slots : list S) (o : Employee) (s : S) :
  NoDup (map key slots) -> In s slots ->
  fold_left write slots o !! key s = val s.
Proof.
  revert o. induction slots as [|s0 slots IH]; intros o Hnd Hs; [destruct Hs|].
  simpl in Hnd. apply NoDup_cons in Hnd as [Hs0 Hnd].
  rewrite list_elem_of_In in Hs0. simpl.
  destruct Hs as [->|Hs]; [|now apply IH].
  rewrite fold_write_untouched by exact Hs0. unfold write.
  rewrite set_prop_lookup. now rewrite String.eqb_refl.
Qed.
End Folds.

Lemma object_of_as_writes (props : list (string * JS.value)) (o : Employee) :
  fold_left (fun o kv => <[fst kv := snd kv]> o) props o
  = fold_left (fun o kv => JS.set_prop (fst kv) (Some (snd kv)) o) props o.
Proof. reflexivity. Qed.

Lemma object_of_lookup (props : list (string * JS.value)) (k : string)
      (v : JS.value) :
  NoDup (map fst props) -> In (k, v) props -> object_of props !! k = Some v.
Proof.
  intros Hnd Hin. unfold object_of. rewrite object_of_as_writes.
  exact (fold_write_lookup fst (fun kv => Some (snd kv)) props ∅ (k, v) Hnd Hin).
Qed.

Lemma object_of_absent (props : list (string * JS.value)) (k : string) :
  ~ In k (map fst props) -> object_of props !! k = None.
Proof.
  intros Hk. unfold object_of. rewrite object_of_as_writes.
  rewrite (fold_write_untouched fst (fun kv => Some (snd kv)) props ∅ k Hk).
  apply lookup_empty.
Qed.

Lemma LEGACY_SLOTS_properties_NoDup :
  NoDup ("id" :: "name" :: map (fun slot => fst (snd slot)) LEGACY_SLOTS).
Proof. apply (bool_decide_unpack _); vm_compute; exact I. Qed.

Lemma LEGACY_SLOTS_names : map fst LEGACY_SLOTS = CANONICAL_CRITERIA_ORDER.
Proof. reflexivity. Qed.

(* ===================================================================== *)
(** * The upsert *)
(* ===================================================================== *)

Lemma conflicts_pair (d : Supabase.ScoreData) (r : Supabase.ScoreRow) :
  Supabase.conflicts d r = true <-> pair_of r = payload_pair d.
Proof.
  unfold Supabase.conflicts, pair_of, payload_pair.
  rewrite andb_true_iff, !String.eqb_eq. split; [intros [-> ->]|intros [= -> ->]]; auto.
Qed.

Lemma conflict_exists (d : Supabase.ScoreData) (rows : list Supabase.ScoreRow) :
  existsb (Supabase.conflicts d) rows = true
  <-> In (payload_pair d) (map pair_of rows).
Proof.
  rewrite existsb_exists, in_map_iff.
  split; intros (r & H1 & H2); exists r.
  - apply conflicts_pair in H2. auto.
  - split; [exact H2|]. now apply conflicts_pair.
Qed.

Lemma upsert_row_pairs (fresh : list Supabase.ScoreRow -> string)
      (rows : list Supabase.ScoreRow) (d : Supabase.ScoreData) :
  map pair_of (Supabase.upsert_row fresh rows d)
  = if existsb (Supabase.conflicts d) rows
    then map pair_of rows
    else (map pair_of rows ++ [payload_pair d])%list.
Proof.
  unfold Supabase.upsert_row. destruct (existsb _ rows).
  - rewrite map_map. apply map_ext. intros r.
    destruct (Supabase.conflicts d r); reflexivity.
  - now rewrite map_app.
Qed.

Lemma upsert_row_unique fresh rows d :
  one_row_per_pair rows -> one_row_per_pair (Supabase.upsert_row fresh rows d).
Proof.
  unfold one_row_per_pair. rewrite upsert_row_pairs.
  destruct (existsb _ rows) eqn:E; [auto|]. intros Hnd.
  apply NoDup_app. split; [exact Hnd|]. split; [|apply NoDup_singleton].
  intros q Hq ->%list_elem_of_singleton. rewrite list_elem_of_In in Hq.
  apply conflict_exists in Hq. congruence.
Qed.

Lemma upsert_rows_unique fresh rows payload :
  one_row_per_pair rows ->
  one_row_per_pair (Supabase.upsert_rows fresh rows payload).
Proof.
  unfold Supabase.upsert_rows. revert rows.
  induction payload as [|d payload IH]; intros rows H; simpl; [exact H|].
  apply IH, upsert_row_unique, H.
Qed.

(** A payload whose pairs are all present changes no pair: nothing is
    inserted. *)
Lemma upsert_rows_present fresh rows payload :
  (forall d, In d payload -> In (payload_pair d) (map pair_of rows)) ->
  map pair_of (Supabase.upsert_rows fresh rows payload) = map pair_of rows.
Proof.
  unfold Supabase.upsert_rows. revert rows.
  induction payload as [|d payload IH]; intros rows H; simpl; [reflexivity|].
  assert (map pair_of (Supabase.upsert_row fresh rows d) = map pair_of rows) as E.
  { rewrite upsert_row_pairs.
    now rewrite (proj2 (conflict_exists d rows) (H d (or_introl eq_refl))). }
  rewrite IH; [exact E|]. intros d' Hd'. rewrite E. apply H. now right.
Qed.

(** Pairs are never removed, and every pair of the payload is present
    afterwards. *)
Lemma upsert_rows_keeps fresh rows payload q :
  In q (map pair_of rows) ->
  In q (map pair_of (Supabase.upsert_rows fresh rows payload)).
Proof.
  unfold Supabase.upsert_rows. revert rows.
  induction payload as [|d payload IH]; intros rows H; simpl; [exact H|].
  apply IH. rewrite upsert_row_pairs.
  destruct (existsb _ rows); [exact H|]. apply in_or_app. now left.
Qed.

Lemma upsert_rows_covers fresh rows payload d :
  In d payload ->
  In (payload_pair d) (map pair_of (Supabase.upsert_rows fresh rows payload)).
Proof.
  unfold Supabase.upsert_rows. revert rows.
  induction payload as [|d0 payload IH]; intros rows Hd; [destruct Hd|].
  simpl. destruct Hd as [->|Hd]; [|now apply IH].
  apply (upsert_rows_keeps fresh). rewrite upsert_row_pairs.
  destruct (existsb _ rows) eqn:E.
  - now apply conflict_exists.
  - apply in_or_app. right. now left.
Qed.

(** The scores after an upsert whose payload names each pair once: a row of
    a payload pair holds the payload's score. *)
Lemma upsert_row_score fresh rows d r :
  In r (Supabase.upsert_row fresh rows d) ->
  (pair_of r = payload_pair d /\ Supabase.es_score r = Supabase.score d)
  \/ (pair_of r <> payload_pair d /\ In r rows).
Proof.
  unfold Supabase.upsert_row. destruct (existsb _ rows) eqn:E.
  - intros (r0 & <- & Hr0)%in_map_iff.
    destruct (Supabase.conflicts d r0) eqn:C.
    + left. apply conflicts_pair in C. now split.
    + right. split; [|exact Hr0]. intros H%conflicts_pair. congruence.
  - intros [Hr|[<-|[]]]%in_app_or.
    + right. split; [|exact Hr]. intros H.
      assert (existsb (Supabase.conflicts d) rows = true) as E'; [|congruence].
      apply conflict_exists. rewrite <- H. now apply in_map.
    + left. now split.
Qed.

Lemma upsert_rows_score fresh rows payload r :
  NoDup (map payload_pair payload) ->
  In r (Supabase.upsert_rows fresh rows payload) ->
  (exists d, In d payload /\ pair_of r = payload_pair d
             /\ Supabase.es_score r = Supabase.score d)
  \/ (~ In (pair_of r) (map payload_pair payload) /\ In r rows).
Proof.
  unfold Supabase.upsert_rows. revert rows.
  induction payload as [|d payload IH]; intros rows Hnd Hr; simpl in *.
  - right. split; [tauto|exact Hr].
  - apply NoDup_cons in Hnd as [Hd Hnd]. rewrite list_elem_of_In in Hd.
    destruct (IH _ Hnd Hr) as [(d' & Hd' & Hp & Hs)|[Hout Hr']].
    + left. exists d'. auto.
    + apply upsert_row_score in Hr' as [[Hp Hs]|[Hp Hr']].
      * left. exists d. auto.
      * right. split; [|exact Hr']. intros [H|H]; [congruence|tauto].
Qed.

(* ===================================================================== *)
(** * What a submit handler leaves behind *)
(* ===================================================================== *)

Lemma form_submit_cases (st : EmployeeForm.State) (s : Supabase.Server) :
  let result := EmployeeForm.handleSubmit st s in
  (handed_over (fst (fst result)) = None
   /\ Supabase.tables (snd result) = Supabase.tables s)
  \/ (exists selectedEmployee,
         EmployeeForm.selectedEmployeeId st <> ""
         /\ find (fun emp => String.eqb (Supabase.emp_id emp)
                                        (EmployeeForm.selectedEmployeeId st))
                 (EmployeeForm.dbEmployees st) = Some selectedEmployee
         /\ handed_over (fst (fst result))
            = Some (EmployeeForm.newEmployee selectedEmployee
                      (EmployeeForm.criteria st) (EmployeeForm.formData st))
         /\ Supabase.tables (snd result) = upserted s (form_plan st s)
         /\ Supabase.new_id (snd result) = Supabase.new_id s
         /\ Supabase.rejects (snd result) = Supabase.rejects s
         /\ In (Supabase.Upsert (form_plan st s))
               (Supabase.requests (snd result))
         /\ (Supabase.rejects s Supabase.SelectJoined = false ->
             EmployeeForm.evaluationScores (snd (fst result))
             = Supabase.joined (upserted s (form_plan st s)))).
Proof.
  intros result. unfold result, EmployeeForm.handleSubmit.
  destruct (String.eqb_spec (EmployeeForm.selectedEmployeeId st) "") as [He|He];
    [left; auto|].
  destruct (find _ (EmployeeForm.dbEmployees st)) as [sel|] eqn:Hsel;
    [|left; auto].
  unfold try_catch, bind, await_or_throw, Supabase.select_existing.
  destruct (Supabase.rejects s (Supabase.SelectExisting _)) eqn:R1;
    [left; auto|].
  unfold Supabase.upsert. cbn [Supabase.rejects Supabase.received].
  fold (form_plan st s).
  destruct (Supabase.rejects s (Supabase.Upsert (form_plan st s))) eqn:R2;
    [left; auto|].
  right. exists sel. split; [exact He|]. split; [reflexivity|].
  unfold EmployeeForm.fetchEvaluationScores, Supabase.select_joined.
  cbn [Supabase.rejects Supabase.received Supabase.with_scores].
  assert (forall rs tl,
             In (Supabase.Upsert (form_plan st s))
                (((rs ++ [Supabase.SelectExisting
                            (EmployeeForm.selectedEmployeeId st)])
                    ++ [Supabase.Upsert (form_plan st s)]) ++ tl)) as Hin.
  { intros rs tl. apply in_or_app. left. apply in_or_app. right. now left. }
  destruct (Supabase.rejects s Supabase.SelectJoined); simpl;
    repeat split; auto; discriminate.
Qed.

Lemma dialog_submit_cases (st : EditEmployeeDialog.State)
      (s : Supabase.Server) :
  let result := EditEmployeeDialog.handleSubmit st s in
  (handed_over (fst result) = None
   /\ Supabase.tables (snd result) = Supabase.tables s)
  \/ (exists employee,
         EditEmployeeDialog.employee st = Some employee
         /\ handed_over (fst result)
            = Some (EditEmployeeDialog.updatedEmployee employee
                      (EditEmployeeDialog.formData st))
         /\ Supabase.tables (snd result) = upserted s (dialog_plan employee st s)
         /\ Supabase.new_id (snd result) = Supabase.new_id s
         /\ Supabase.rejects (snd result) = Supabase.rejects s
         /\ In (Supabase.Upsert (dialog_plan employee st s))
               (Supabase.requests (snd result))).
Proof.
  intros result. unfold result, EditEmployeeDialog.handleSubmit.
  destruct (EditEmployeeDialog.employee st) as [employee|]; [|left; auto].
  unfold try_catch, bind, await_or_throw, Supabase.select_existing.
  destruct (Supabase.rejects s (Supabase.SelectExisting _)) eqn:R1;
    [left; auto|].
  unfold Supabase.upsert. cbn [Supabase.rejects Supabase.received].
  fold (dialog_plan employee st s).
  destruct (Supabase.rejects s (Supabase.Upsert (dialog_plan employee st s)))
    eqn:R2; [left; auto|].
  right. exists employee. simpl. repeat split; auto.
  apply in_or_app. right. now left.
Qed.

Lemma plan_pairs (employeeId : string) (existing : list (string * string))
      (formValue : Criteria -> option Z) (criteria : list Criteria) :
  map payload_pair (evaluationScoresData employeeId existing formValue criteria)
  = map (fun c => (employeeId, id c)) criteria.
Proof. unfold evaluationScoresData. now rewrite map_map. Qed.

Lemma rows_of_length (employeeId : string) (rows rows' : list Supabase.ScoreRow) :
  map pair_of rows = map pair_of rows' ->
  length (rows_of employeeId rows) = length (rows_of employeeId rows').
Proof.
  unfold rows_of. revert rows'.
  induction rows as [|r rows IH]; intros [|r' rows']; simpl; try discriminate;
    [reflexivity|].
  intros [= H1 H2 H3]. rewrite H1.
  destruct (String.eqb (Supabase.es_employee_id r') employeeId); simpl;
    now rewrite (IH rows' H3).
Qed.

(** Submitting the same plan pairs again inserts nothing. *)
Lemma resubmit_pairs fresh fresh' rows employeeId ex ex' formValue criteria :
  let once :=
    Supabase.upsert_rows fresh rows
      (evaluationScoresData employeeId ex formValue criteria) in
  map pair_of
      (Supabase.upsert_rows fresh' once
         (evaluationScoresData employeeId ex' formValue criteria))
  = map pair_of once.
Proof.
  intros once. apply upsert_rows_present. intros d Hd.
  apply (in_map payload_pair) in Hd. rewrite plan_pairs in Hd.
  apply in_map_iff in Hd as (c & <- & Hc).
  set (d1 := scoreData employeeId (existingScoresMap ex) formValue c).
  change (employeeId, id c) with (payload_pair d1).
  apply upsert_rows_covers. unfold evaluationScoresData. now apply in_map.
Qed.

(** C2. In both components, a submission keeps the score table at one row
    per (employee, criterion) pair, whatever its outcome; and once a
    submission has been saved, submitting the same state again leaves the
    number of the employee's rows unchanged. *)
Theorem submit_keeps_one_row_per_pair :
  (forall (st : EmployeeForm.State) (s : Supabase.Server),
      one_row_per_pair (Supabase.evaluation_scores (Supabase.tables s)) ->
      let first := EmployeeForm.handleSubmit st s in
      let second := EmployeeForm.handleSubmit st (snd first) in
      one_row_per_pair
        (Supabase.evaluation_scores (Supabase.tables (snd first)))
      /\ (handed_over (fst (fst first)) <> None ->
          forall employeeId,
            length (rows_of employeeId
                      (Supabase.evaluation_scores (Supabase.tables (snd second))))
            = length (rows_of employeeId
                        (Supabase.evaluation_scores (Supabase.tables (snd first))))))
  /\ (forall (st : EditEmployeeDialog.State) (s : Supabase.Server),
      one_row_per_pair (Supabase.evaluation_scores (Supabase.tables s)) ->
      let first := EditEmployeeDialog.handleSubmit st s in
      let second := EditEmployeeDialog.handleSubmit st (snd first) in
      one_row_per_pair
        (Supabase.evaluation_scores (Supabase.tables (snd first)))
      /\ (handed_over (fst first) <> None ->
          forall employeeId,
            length (rows_of employeeId
                      (Supabase.evaluation_scores (Supabase.tables (snd second))))
            = length (rows_of employeeId
                        (Supabase.evaluation_scores (Supabase.tables (snd first)))))).
Proof.
  split.
  - intros st s Huniq first second. split.
    + unfold first.
      destruct (form_submit_cases st s) as [[_ ->]|(sel & _ & _ & _ & -> & _)];
        [exact Huniq|]. simpl. now apply upsert_rows_unique.
    + intros Hsaved employeeId.
      destruct (form_submit_cases st s)
        as [[Hnone _]|(sel & _ & _ & _ & Ht1 & _)]; [contradiction|].
      fold first in Ht1.
      destruct (form_submit_cases st (snd first)) as [[_ Ht2]|(sel2 & _ & _ & _ & Ht2 & _)];
        fold second in Ht2; rewrite Ht2; [reflexivity|].
      apply rows_of_length. unfold upserted, form_plan. rewrite Ht1. simpl.
      apply resubmit_pairs.
  - intros st s Huniq first second. split.
    + unfold first.
      destruct (dialog_submit_cases st s) as [[_ ->]|(e & _ & _ & -> & _)];
        [exact Huniq|]. simpl. now apply upsert_rows_unique.
    + intros Hsaved employeeId.
      destruct (dialog_submit_cases st s)
        as [[Hnone _]|(e & He & _ & Ht1 & _)]; [contradiction|].
      fold first in Ht1.
      destruct (dialog_submit_cases st (snd first))
        as [[_ Ht2]|(e2 & He2 & _ & Ht2 & _)];
        fold second in Ht2; rewrite Ht2; [reflexivity|].
      assert (e2 = e) as -> by congruence.
      apply rows_of_length. unfold upserted, dialog_plan. rewrite Ht1. simpl.
      apply resubmit_pairs.
Qed.

Lemma submit_keeps_one_row_per_pair_witness :
  let criteria :=
    [ mkCriteria "A" "Kualitas Kerja" "Kinerja Inti" Benefit "1-5";
      mkCriteria "B" "Jumlah Hari Alpa" "Kedisiplinan" Cost "0-10" ] in
  let s :=
    Supabase.mkServer
      (Supabase.mkDatabase [Supabase.mkDBEmployee "E" "Budi"] criteria
         [Supabase.mkScoreRow "s1" "E" "A" 3])
      (fun _ => false) (fun rows => "s2") [] in
  let st :=
    EmployeeForm.mkState [Supabase.mkDBEmployee "E" "Budi"] [] criteria "E"
                         {[ "A" := 4; "B" := 2 ]} in
  let first := EmployeeForm.handleSubmit st s in
  let second := EmployeeForm.handleSubmit st (snd first) in
  one_row_per_pair (Supabase.evaluation_scores (Supabase.tables s))
  /\ one_row_per_pair
       (Supabase.evaluation_scores (Supabase.tables (snd first)))
  /\ length (rows_of "E"
               (Supabase.evaluation_scores (Supabase.tables (snd first))))
     = 2%nat
  /\ length (rows_of "E"
               (Supabase.evaluation_scores (Supabase.tables (snd second))))
     = length (rows_of "E"
                 (Supabase.evaluation_scores (Supabase.tables (snd first)))).
Proof.
  intros criteria s st first second.
  assert (one_row_per_pair
            (Supabase.evaluation_scores (Supabase.tables s))) as Huniq
      by (apply (bool_decide_unpack _); vm_compute; exact I).
  destruct (proj1 submit_keeps_one_row_per_pair st s Huniq) as [H1 H2].
  split; [exact Huniq|]. split; [exact H1|]. split; [reflexivity|].
  apply H2. discriminate.
Defined.

(* ===================================================================== *)
(** * The record handed over after a save *)
(* ===================================================================== *)

Lemma num_or_same (v : Z) : JS.num_or (Some v) 0 = v.
Proof. unfold JS.num_or. destruct (Z.eqb_spec v 0); congruence. Qed.

Lemma legacyValue_found (criteria : list Criteria) (formData : gmap string Z)
      (n : string) (d : Z) (c : Criteria) :
  find (fun c => String.eqb (name c) n) criteria = Some c ->
  EmployeeForm.legacyValue criteria formData n d
  = JS.num_or (formData !! id c) d.
Proof.
  intros H. unfold EmployeeForm.legacyValue. rewrite H.
  destruct (String.eqb_spec (id c) "") as [E|E]; [now rewrite E|reflexivity].
Qed.

Lemma newEmployee_dynamic_untouched (criteria : list Criteria)
      (formData : gmap string Z) (o : Employee) (p : string) :
  (forall c, In c criteria ->
             JS.array_includes CANONICAL_CRITERIA_ORDER (name c) = false ->
             name c <> p) ->
  fold_left
    (fun o criterion =>
       if negb (JS.array_includes CANONICAL_CRITERIA_ORDER (name criterion))
       then JS.assign (name criterion)
                      (JS.JNum (JS.num_or (formData !! id criterion) 0)) o
       else o)
    criteria o !! p = o !! p.
Proof.
  revert o. induction criteria as [|c criteria IH]; intros o H;
    cbn [fold_left]; [reflexivity|].
  rewrite IH by (intros; apply H; [now right|assumption]).
  destruct (JS.array_includes CANONICAL_CRITERIA_ORDER (name c)) eqn:E;
    cbn [negb]; [reflexivity|].
  apply assign_lookup_ne, H; [now left|exact E].
Qed.

Lemma newEmployee_dynamic_written (criteria : list Criteria)
      (formData : gmap string Z) (o : Employee) (c : Criteria) :
  In c criteria ->
  JS.array_includes CANONICAL_CRITERIA_ORDER (name c) = false ->
  name c <> "__proto__" ->
  (forall c', In c' criteria -> name c' = name c -> c' = c) ->
  fold_left
    (fun o criterion =>
       if negb (JS.array_includes CANONICAL_CRITERIA_ORDER (name criterion))
       then JS.assign (name criterion)
                      (JS.JNum (JS.num_or (formData !! id criterion) 0)) o
       else o)
    criteria o !! name c
  = Some (JS.JNum (JS.num_or (formData !! id c) 0)).
Proof.
  intros Hc Hout Hproto. induction criteria as [|x l IH] using rev_ind;
    [destruct Hc|].
  intros Huniq. rewrite fold_left_app. cbn [fold_left].
  destruct (String.eqb_spec (name x) (name c)) as [E|E].
  - assert (x = c) as -> by (apply Huniq; [apply in_or_app; right; now left|exact E]).
    rewrite Hout. cbn [negb]. now apply assign_lookup_eq.
  - assert (In c l) as Hl.
    { apply in_app_or in Hc as [Hc|[->|[]]]; [exact Hc|contradiction]. }
    destruct (negb _); [rewrite assign_lookup_ne by exact E|];
      apply IH; try exact Hl; intros c' Hc'; apply Huniq, in_or_app; now left.
Qed.

Lemma newEmployee_slot (sel : Supabase.DBEmployee) (criteria : list Criteria)
      (formData : gmap string Z) (n p : string) (d : Z) :
  In (n, (p, d)) LEGACY_SLOTS ->
  (forall c, In c criteria ->
             JS.array_includes CANONICAL_CRITERIA_ORDER (name c) = false ->
             name c <> p) ->
  EmployeeForm.newEmployee sel criteria formData !! p
  = Some (JS.JNum (EmployeeForm.legacyValue criteria formData n d)).
Proof.
  intros Hslot Hdyn. unfold EmployeeForm.newEmployee.
  rewrite newEmployee_dynamic_untouched by exact Hdyn.
  apply object_of_lookup.
  - simpl. exact LEGACY_SLOTS_properties_NoDup.
  - right. right.
    apply (in_map (fun slot =>
                     (fst (snd slot),
                      JS.JNum (EmployeeForm.legacyValue criteria formData
                                 (fst slot) (snd (snd slot)))))) in Hslot.
    exact Hslot.
Qed.

Lemma updatedEmployee_slot (employee : Employee) (formData : gmap string Z)
      (n p : string) (d : Z) :
  In (n, (p, d)) LEGACY_SLOTS ->
  EditEmployeeDialog.updatedEmployee employee formData !! p
  = JS.or_else (JS.JNum <$> formData !! EditEmployeeDialog.createFieldName n)
               (employee !! p).
Proof.
  intros Hslot. unfold EditEmployeeDialog.updatedEmployee.
  apply (fold_write_lookup
           (fun slot : string * (string * Z) => fst (snd slot))
           (fun slot =>
              JS.or_else
                (JS.JNum <$> formData !! EditEmployeeDialog.createFieldName (fst slot))
                (employee !! fst (snd slot)))
           LEGACY_SLOTS employee (n, (p, d))); [|exact Hslot].
  pose proof LEGACY_SLOTS_properties_NoDup as H.
  apply NoDup_cons in H as [_ H]. apply NoDup_cons in H as [_ H]. exact H.
Qed.

Lemma core_slot_fallback (n p : string) (d : Z) :
  In (n, (p, d)) LEGACY_SLOTS ->
  In n (firstn 6 CANONICAL_CRITERIA_ORDER) -> d = 1.
Proof.
  simpl. intros H Hn.
  repeat (destruct H as [[= <- <- <-]|H]; [try reflexivity|]);
    try (exfalso; exact H);
    repeat (destruct Hn as [Hn|Hn]; [discriminate Hn|]); destruct Hn.
Qed.

(** C10 (as amended). When a submit handler has saved and hands a record
    over.  In the evaluation form, for a legacy slot and the first criterion
    of the form with the slot's canonical name, provided no criterion of the
    form outside the canonical names is named like the slot's property (the
    loop over the dynamic criteria would overwrite the slot): a form value
    of 0 leaves the slot's fallback constant in the record (1 for the six
    core performance slots) while the upsert payload carries 0 for the
    criterion, and a form value other than 0 is in the record as it is.  A
    criterion outside the canonical names, not named "__proto__" and the
    only one of its name in the form, is in the record under its name with
    the value the payload carries (the form's value, or 0): there record and
    store agree.  In the edit dialog, for every legacy
    slot: a form value of 0 leaves the employee's previous value in the
    record while the payload carries 0, and a form value other than 0 is in
    the record as it is. *)
Theorem handed_over_record_replaces_zero :
  (forall (st : EmployeeForm.State) (s : Supabase.Server) (e : Employee),
      let result := EmployeeForm.handleSubmit st s in
      handed_over (fst (fst result)) = Some e ->
      forall (n p : string) (d : Z) (c : Criteria),
        In (n, (p, d)) LEGACY_SLOTS ->
        find (fun c => String.eqb (name c) n) (EmployeeForm.criteria st)
        = Some c ->
        (forall c', In c' (EmployeeForm.criteria st) ->
                    JS.array_includes CANONICAL_CRITERIA_ORDER (name c') = false ->
                    name c' <> p) ->
        (EmployeeForm.formData st !! id c = Some 0 ->
         e !! p = Some (JS.JNum d)
         /\ (In n (firstn 6 CANONICAL_CRITERIA_ORDER) -> d = 1)
         /\ In (Supabase.Upsert (form_plan st s))
               (Supabase.requests (snd result))
         /\ exists sent, In sent (form_plan st s)
                         /\ Supabase.criteria_id sent = id c
                         /\ Supabase.score sent = 0)
        /\ (forall v, EmployeeForm.formData st !! id c = Some v -> v <> 0 ->
                      e !! p = Some (JS.JNum v)))
  /\ (forall (st : EmployeeForm.State) (s : Supabase.Server) (e : Employee),
      let result := EmployeeForm.handleSubmit st s in
      handed_over (fst (fst result)) = Some e ->
      forall c : Criteria,
        In c (EmployeeForm.criteria st) ->
        ~ In (name c) CANONICAL_CRITERIA_ORDER ->
        name c <> "__proto__" ->
        (forall c', In c' (EmployeeForm.criteria st) -> name c' = name c ->
                    c' = c) ->
        e !! name c
        = Some (JS.JNum (JS.num_or (EmployeeForm.formData st !! id c) 0))
        /\ exists sent, In sent (form_plan st s)
                        /\ Supabase.criteria_id sent = id c
                        /\ Supabase.score sent
                           = JS.num_or (EmployeeForm.formData st !! id c) 0)
  /\ (forall (st : EditEmployeeDialog.State) (s : Supabase.Server)
             (employee e : Employee),
      let result := EditEmployeeDialog.handleSubmit st s in
      EditEmployeeDialog.employee st = Some employee ->
      handed_over (fst result) = Some e ->
      forall (n p : string) (d : Z),
        In (n, (p, d)) LEGACY_SLOTS ->
        (EditEmployeeDialog.formData st !! EditEmployeeDialog.createFieldName n
         = Some 0 ->
         e !! p = employee !! p
         /\ In (Supabase.Upsert (dialog_plan employee st s))
               (Supabase.requests (snd result))
         /\ forall c, In c (EditEmployeeDialog.criteria st) -> name c = n ->
                      exists sent, In sent (dialog_plan employee st s)
                                   /\ Supabase.criteria_id sent = id c
                                   /\ Supabase.score sent = 0)
        /\ (forall v,
               EditEmployeeDialog.formData st
               !! EditEmployeeDialog.createFieldName n = Some v ->
               v <> 0 -> e !! p = Some (JS.JNum v))).
Proof.
  split; [|split].
  - intros st s e result Hsaved n p d c Hslot Hfind Hdyn.
    subst result.
    destruct (form_submit_cases st s)
      as [[Hnone _]|(sel & _ & _ & He & _ & _ & _ & Hreq & _)];
      [congruence|].
    rewrite He in Hsaved. injection Hsaved as <-.
    rewrite (newEmployee_slot sel _ _ n p d Hslot Hdyn).
    rewrite (legacyValue_found _ _ n d c Hfind).
    split.
    + intros Hzero. rewrite Hzero. split; [reflexivity|].
      split; [now apply core_slot_fallback with (p := p)|].
      split; [exact Hreq|].
      apply find_some in Hfind as [Hc _].
      eexists.
      split; [unfold form_plan, evaluationScoresData; apply in_map, Hc|].
      split; [reflexivity|]. simpl. unfold EmployeeForm.formValue.
      now rewrite Hzero.
    + intros v Hv Hnz. rewrite Hv. unfold JS.num_or.
      destruct (Z.eqb_spec v 0); [contradiction|reflexivity].
  - intros st s e result Hsaved c Hc Hout Hproto Huniq.
    subst result.
    destruct (form_submit_cases st s)
      as [[Hnone _]|(sel & _ & _ & He & _ & _ & _ & _ & _)];
      [congruence|].
    rewrite He in Hsaved. injection Hsaved as <-. split.
    + unfold EmployeeForm.newEmployee.
      apply newEmployee_dynamic_written; try assumption.
      destruct (JS.array_includes _ (name c)) eqn:A; [|reflexivity].
      exfalso. apply Hout. unfold JS.array_includes in A.
      apply existsb_exists in A as (y & Hy & ->%String.eqb_eq). exact Hy.
    + eexists.
      split; [unfold form_plan, evaluationScoresData; apply in_map, Hc|].
      split; reflexivity.
  - intros st s employee e result Hemp Hsaved n p d Hslot.
    subst result.
    destruct (dialog_submit_cases st s)
      as [[Hnone _]|(e' & He' & He & _ & _ & _ & Hreq)];
      [congruence|].
    assert (e' = employee) as -> by congruence.
    rewrite He in Hsaved. injection Hsaved as <-.
    rewrite (updatedEmployee_slot employee _ n p d Hslot).
    split.
    + intros Hzero. rewrite Hzero. split; [reflexivity|].
      split; [exact Hreq|].
      intros c Hc Hn.
      eexists.
      split; [unfold dialog_plan, evaluationScoresData; apply in_map, Hc|].
      split; [reflexivity|]. simpl. unfold EditEmployeeDialog.formValue.
      now rewrite Hn, Hzero.
    + intros v Hv Hnz. rewrite Hv. unfold JS.or_else. cbn.
      destruct (Z.eqb_spec v 0); [contradiction|reflexivity].
Qed.

(** C10, counterexample. The form holds the criterion "Kualitas Kerja" and
    a criterion named "kualitasKerja"; the first is submitted with 0, the
    second with 3.  The record handed over holds 3 in the slot
    [kualitasKerja], not the fallback 1. *)
Lemma extension_criterion_overrides_fallback :
  let cA := mkCriteria "A" "Kualitas Kerja" "Kinerja Inti" Benefit "1-5" in
  let cB := mkCriteria "B" "kualitasKerja" "Tambahan" Benefit "1-5" in
  let sel := Supabase.mkDBEmployee "E" "Budi" in
  let s :=
    Supabase.mkServer (Supabase.mkDatabase [sel] [cA; cB] [])
                      (fun _ => false) (fun _ => "s1") [] in
  let loaded :=
    snd (EmployeeForm.fetchCriteria lexicographic (Supabase.Data [cA; cB])
           (EmployeeForm.mkState [sel] [] [] "" ∅)) in
  let st :=
    EmployeeForm.handleInputChange "B" 3
      (EmployeeForm.handleInputChange "A" 0
         (EmployeeForm.setSelectedEmployeeId "E" loaded)) in
  EmployeeForm.formData st !! "A" = Some 0
  /\ map (fun sent => (Supabase.criteria_id sent, Supabase.score sent))
         (form_plan st s) = [("A", 0); ("B", 3)]
  /\ exists e,
      handed_over (fst (fst (EmployeeForm.handleSubmit st s))) = Some e
      /\ e !! "kualitasKerja" = Some (JS.JNum 3)
      /\ e !! "kualitasKerja" <> Some (JS.JNum 1).
Proof.
  intros cA cB sel s loaded st.
  split; [reflexivity|]. split; [reflexivity|].
  eexists. split; [reflexivity|]. vm_compute. split; [reflexivity|discriminate].
Qed.

Lemma handed_over_record_replaces_zero_witness :
  let cA := mkCriteria "A" "Kualitas Kerja" "Kinerja Inti" Benefit "1-5" in
  let cB := mkCriteria "B" "Tanggung Jawab" "Kinerja Inti" Benefit "1-5" in
  let sel := Supabase.mkDBEmployee "E" "Budi" in
  let s :=
    Supabase.mkServer (Supabase.mkDatabase [sel] [cA; cB] [])
                      (fun _ => false) (fun rows => "s1") [] in
  let formData : gmap string Z := {[ "A" := 0; "B" := 4 ]} in
  let st := EmployeeForm.mkState [sel] [] [cA; cB] "E" formData in
  let e := EmployeeForm.newEmployee sel [cA; cB] formData in
  handed_over (fst (fst (EmployeeForm.handleSubmit st s))) = Some e
  /\ e !! "kualitasKerja" = Some (JS.JNum 1)
  /\ e !! "tanggungJawab" = Some (JS.JNum 4)
  /\ map Supabase.score (form_plan st s) = [0; 4].
Proof.
  intros cA cB sel s formData st e.
  assert (handed_over (fst (fst (EmployeeForm.handleSubmit st s))) = Some e)
    as Hsaved by reflexivity.
  assert (forall c', In c' [cA; cB] ->
            JS.array_includes CANONICAL_CRITERIA_ORDER (name c') = false ->
            forall p : string, name c' <> p) as Hdyn.
  { intros c' [<-|[<-|[]]] H; discriminate H. }
  split; [exact Hsaved|]. split; [|split; [|reflexivity]].
  - apply (proj1 (proj1 handed_over_record_replaces_zero st s e Hsaved
                        "Kualitas Kerja" "kualitasKerja" 1 cA
                        (or_introl eq_refl) eq_refl
                        (fun c' Hc' H => Hdyn c' Hc' H "kualitasKerja"))).
    reflexivity.
  - apply (proj2 (proj1 handed_over_record_replaces_zero st s e Hsaved
                        "Tanggung Jawab" "tanggungJawab" 1 cB
                        (or_intror (or_introl eq_refl)) eq_refl
                        (fun c' Hc' H => Hdyn c' Hc' H "tanggungJawab")) 4).
    + reflexivity.
    + discriminate.
Defined.

(* ===================================================================== *)
(** * Defaults *)
(* ===================================================================== *)

Lemma employeeField_slot (n p : string) (d : Z) :
  In (n, (p, d)) LEGACY_SLOTS -> EmployeeForm.employeeField n = p.
Proof.
  simpl. intros H.
  repeat (destruct H as [[= <- <- <-]|H]; [reflexivity|]). destruct H.
Qed.

Lemma Map_get_absent {V : Type} (m : list (string * V)) (k : string) :
  ~ In k (map fst m) -> JS.Map_get m k = None.
Proof.
  intros H. pose proof (Map_has_keys m k) as K. unfold JS.Map_has in K.
  destruct (JS.Map_get m k); [|reflexivity]. exfalso. apply H, K. reflexivity.
Qed.

Lemma employeeField_other (n : string) :
  ~ In n CANONICAL_CRITERIA_ORDER -> EmployeeForm.employeeField n = n.
Proof.
  intros H. unfold EmployeeForm.employeeField.
  now rewrite Map_get_absent by (rewrite LEGACY_SLOTS_names; exact H).
Qed.

Lemma initialEmployee_slot (employeeId employeeName n p : string) (d : Z) :
  In (n, (p, d)) LEGACY_SLOTS ->
  EmployeeForm.initialEmployee employeeId employeeName !! p = Some (JS.JNum d).
Proof.
  intros Hslot. unfold EmployeeForm.initialEmployee.
  apply object_of_lookup.
  - simpl. exact LEGACY_SLOTS_properties_NoDup.
  - right. right.
    apply (in_map (fun slot => (fst (snd slot), JS.JNum (snd (snd slot)))))
      in Hslot.
    exact Hslot.
Qed.

(** C7 (as amended). The form initialises a slot with 1 for a Benefit
    criterion whose scale contains "1-5", 0 for a Benefit criterion whose
    scale contains "0-1" or "0/1" (and not "1-5"), 1 for any other Benefit
    scale, and 0 for a Cost criterion.  The projection's default is a
    constant of the legacy slot, whatever the criterion's type and scale, so
    the two agree on a criterion with a canonical name exactly when the
    form's default is that constant.  A criterion outside the canonical
    names has no projection default, unless it is named like one of the
    properties every record starts with (id, name and the thirteen legacy
    properties): then its slot is that property and starts with that
    property's initial value, the legacy constant or the employee's id or
    name. *)
Theorem defaults_compared (employeeId employeeName : string) (c : Criteria) :
  (type c = Benefit -> JS.includes (scale c) "1-5" = true ->
   EmployeeForm.initialFormValue c = 1)
  /\ (type c = Benefit -> JS.includes (scale c) "1-5" = false ->
      JS.includes (scale c) "0-1" || JS.includes (scale c) "0/1" = true ->
      EmployeeForm.initialFormValue c = 0)
  /\ (type c = Benefit -> JS.includes (scale c) "1-5" = false ->
      JS.includes (scale c) "0-1" || JS.includes (scale c) "0/1" = false ->
      EmployeeForm.initialFormValue c = 1)
  /\ (type c = Cost -> EmployeeForm.initialFormValue c = 0)
  /\ (forall p d, In (name c, (p, d)) LEGACY_SLOTS ->
        projectionDefault employeeId employeeName c = Some (JS.JNum d)
        /\ (Some (JS.JNum (EmployeeForm.initialFormValue c))
            = projectionDefault employeeId employeeName c
            <-> EmployeeForm.initialFormValue c = d))
  /\ (~ In (name c) CANONICAL_CRITERIA_ORDER ->
      (projectionDefault employeeId employeeName c = None
       <-> ~ In (name c) initial_properties)
      /\ (forall n p d, In (n, (p, d)) LEGACY_SLOTS -> name c = p ->
            projectionDefault employeeId employeeName c = Some (JS.JNum d))
      /\ (name c = "id" ->
          projectionDefault employeeId employeeName c
          = Some (JS.JStr employeeId))
      /\ (name c = "name" ->
          projectionDefault employeeId employeeName c
          = Some (JS.JStr employeeName))).
Proof.
  unfold EmployeeForm.initialFormValue.
  split; [now intros -> ->|]. split; [now intros -> -> ->|].
  split; [now intros -> -> ->|]. split; [now intros ->|]. split.
  - intros p d Hslot. unfold projectionDefault.
    rewrite (employeeField_slot _ p d Hslot).
    rewrite (initialEmployee_slot employeeId employeeName _ p d Hslot).
    split; [reflexivity|]. split; [now intros [= ->]|now intros ->].
  - intros Hn. unfold projectionDefault. rewrite (employeeField_other _ Hn).
    assert (forall n p d, In (n, (p, d)) LEGACY_SLOTS -> name c = p ->
              EmployeeForm.initialEmployee employeeId employeeName !! name c
              = Some (JS.JNum d)) as Hslots.
    { intros n p d Hslot ->. now apply initialEmployee_slot with n. }
    assert (name c = "id" ->
            EmployeeForm.initialEmployee employeeId employeeName !! name c
            = Some (JS.JStr employeeId)) as Hid.
    { intros ->. apply object_of_lookup;
        [exact LEGACY_SLOTS_properties_NoDup|now left]. }
    assert (name c = "name" ->
            EmployeeForm.initialEmployee employeeId employeeName !! name c
            = Some (JS.JStr employeeName)) as Hname.
    { intros ->. apply object_of_lookup;
        [exact LEGACY_SLOTS_properties_NoDup|right; now left]. }
    split; [|auto]. split.
    + intros Hnone [E|[E|Hin]].
      * symmetry in E. rewrite (Hid E) in Hnone. discriminate.
      * symmetry in E. rewrite (Hname E) in Hnone. discriminate.
      * apply in_map_iff in Hin as ([n [p d]] & E & Hslot). cbn in E.
        symmetry in E. rewrite (Hslots n p d Hslot E) in Hnone. discriminate.
    + intros Hout. unfold EmployeeForm.initialEmployee.
      apply object_of_absent. cbn [map fst]. rewrite map_map. exact Hout.
Qed.

(** C7, counterexample. A Benefit criterion named "Prestasi" with a 1-5
    scale is initialised with 1 in the form, while the projection's default
    for its slot is 0; a Benefit criterion outside the canonical names is
    initialised with 1 in the form and has no default in the projection. *)
Lemma defaults_differ :
  let c := mkCriteria "c12" "Prestasi" "Faktor Tambahan" Benefit "1-5" in
  let c' := mkCriteria "c14" "Kehadiran Rapat" "Lainnya" Benefit "1-5" in
  EmployeeForm.initialFormValue c = 1
  /\ projectionDefault "E" "Budi" c = Some (JS.JNum 0)
  /\ Some (JS.JNum (EmployeeForm.initialFormValue c))
     <> projectionDefault "E" "Budi" c
  /\ EmployeeForm.initialFormValue c' = 1
  /\ projectionDefault "E" "Budi" c' = None.
Proof. vm_compute. repeat split; discriminate. Qed.


Lemma defaults_compared_witness :
  let c := mkCriteria "c1" "Kualitas Kerja" "Kinerja Inti" Benefit "1-5" in
  let c' := mkCriteria "c7" "hariAlpa" "Lainnya" Benefit "1-5" in
  EmployeeForm.initialFormValue c = 1
  /\ projectionDefault "E" "Budi" c = Some (JS.JNum 1)
  /\ projectionDefault "E" "Budi" c' = Some (JS.JNum 0).
Proof.
  intros c c'.
  destruct (defaults_compared "E" "Budi" c) as (H1 & _ & _ & _ & H5 & _).
  split; [exact (H1 eq_refl eq_refl)|].
  split; [exact (proj1 (H5 "kualitasKerja" 1 (or_introl eq_refl)))|].
  destruct (defaults_compared "E" "Budi" c') as (_ & _ & _ & _ & _ & H6).
  destruct H6 as (_ & Hslots & _).
  - vm_compute. intros H.
    repeat (destruct H as [H|H]; [discriminate H|]). exact H.
  - apply (Hslots "Jumlah Hari Alpa" "hariAlpa" 0); [|reflexivity].
    do 6 right. left. reflexivity.
Defined.

(* ===================================================================== *)
(** * The projection *)
(* ===================================================================== *)

Lemma project_step_tuple (m : list (string * Employee))
      (sc : Supabase.EvaluationScore) :
  EmployeeForm.project_step m sc
  = match tuple_of sc with Some t => step_tuple m t | None => m end.
Proof.
  unfold EmployeeForm.project_step, tuple_of.
  destruct (Supabase.employees sc), (Supabase.criteria sc); reflexivity.
Qed.

Lemma employeeMap_from (scores : list Supabase.EvaluationScore)
      (m : list (string * Employee)) :
  fold_left EmployeeForm.project_step scores m
  = fold_left step_tuple (tuples scores) m.
Proof.
  revert m. induction scores as [|sc scores IH]; intros m; [reflexivity|].
  cbn [fold_left]. rewrite IH, project_step_tuple. unfold tuples.
  cbn [omap list_omap]. destruct (tuple_of sc); reflexivity.
Qed.

Lemma step_tuple_get (m : list (string * Employee)) (t : Tuple) (e : string) :
  JS.Map_get (step_tuple m t) e
  = if String.eqb (t_employeeId t) e
    then Some (write_tuple
                 (default (EmployeeForm.initialEmployee (t_employeeId t)
                                                        (t_employeeName t))
                          (JS.Map_get m (t_employeeId t))) t)
    else JS.Map_get m e.
Proof.
  unfold step_tuple, JS.Map_has.
  destruct (JS.Map_get m (t_employeeId t)) as [o|] eqn:G; cbn [negb default].
  - rewrite G. apply Map_get_set.
  - rewrite Map_get_set, String.eqb_refl, !Map_get_set.
    destruct (String.eqb (t_employeeId t) e); reflexivity.
Qed.

Lemma step_tuple_has (m : list (string * Employee)) (t : Tuple) (e : string) :
  JS.Map_has (step_tuple m t) e
  = String.eqb (t_employeeId t) e || JS.Map_has m e.
Proof.
  unfold JS.Map_has at 1. rewrite step_tuple_get.
  destruct (String.eqb (t_employeeId t) e); reflexivity.
Qed.

Lemma Map_has_set {V : Type} (m : list (string * V)) (k : string) (v : V) :
  JS.Map_has (JS.Map_set m k v) k = true.
Proof. unfold JS.Map_has. now rewrite Map_get_set, String.eqb_refl. Qed.

Lemma step_tuple_keys (m : list (string * Employee)) (t : Tuple) :
  map fst (step_tuple m t)
  = if JS.Map_has m (t_employeeId t) then map fst m
    else (map fst m ++ [t_employeeId t])%list.
Proof.
  unfold step_tuple.
  destruct (JS.Map_has m (t_employeeId t)) eqn:H; cbn [negb].
  - unfold JS.Map_has in H.
    destruct (JS.Map_get m (t_employeeId t)) eqn:G; [|discriminate].
    rewrite Map_set_keys. unfold JS.Map_has. now rewrite G.
  - rewrite Map_get_set, String.eqb_refl.
    rewrite Map_set_keys, Map_has_set, Map_set_keys. now rewrite H.
Qed.

Lemma employeeMap_get (ts : list Tuple) (m : list (string * Employee))
      (e : string) :
  JS.Map_get (fold_left step_tuple ts m) e = record_from (JS.Map_get m e) e ts.
Proof.
  revert m. induction ts as [|t ts IH]; intros m; [reflexivity|].
  cbn [fold_left]. rewrite IH, step_tuple_get. unfold record_from at 2.
  cbn [fold_left].
  destruct (String.eqb_spec (t_employeeId t) e) as [->|_]; reflexivity.
Qed.

Lemma filter_filter_and {A : Type} (P Q : A -> bool) (l : list A) :
  List.filter P (List.filter Q l) = List.filter (fun y => Q y && P y) l.
Proof.
  induction l as [|x l IH]; simpl; [reflexivity|].
  destruct (Q x); simpl; [destruct (P x)|]; now rewrite IH.
Qed.

Lemma filter_all {A : Type} (P : A -> bool) (l : list A) :
  (forall x, P x = true) -> List.filter P l = l.
Proof.
  intros H. induction l as [|x l IH]; simpl; [reflexivity|].
  now rewrite H, IH.
Qed.

Lemma employeeMap_keys (ts : list Tuple) (m : list (string * Employee)) :
  map fst (fold_left step_tuple ts m)
  = (map fst m
       ++ List.filter (fun y => negb (JS.Map_has m y))
                      (first_seen (map t_employeeId ts)))%list.
Proof.
  revert m. induction ts as [|t ts IH]; intros m; cbn [fold_left].
  - simpl. now rewrite app_nil_r.
  - rewrite IH, step_tuple_keys. cbn [map first_seen List.filter].
    rewrite filter_filter_and.
    destruct (JS.Map_has m (t_employeeId t)) eqn:H; cbn [negb].
    + f_equal. apply filter_ext. intros y. rewrite step_tuple_has.
      destruct (String.eqb_spec y (t_employeeId t)) as [->|Hne].
      * rewrite String.eqb_refl, H. reflexivity.
      * destruct (String.eqb_spec (t_employeeId t) y); [congruence|reflexivity].
    + rewrite <- app_assoc. cbn [app]. do 2 f_equal.
      apply filter_ext. intros y. rewrite step_tuple_has, String.eqb_sym.
      now rewrite negb_orb.
Qed.

Lemma first_seen_In (l : list string) (x : string) :
  In x (first_seen l) <-> In x l.
Proof.
  induction l as [|y l IH]; simpl; [tauto|].
  rewrite filter_In, IH, negb_true_iff, String.eqb_neq.
  destruct (String.eqb_spec x y); intuition congruence.
Qed.

Lemma first_seen_NoDup (l : list string) : NoDup (first_seen l).
Proof.
  induction l as [|y l IH]; simpl; [constructor|].
  apply NoDup_cons. split.
  - rewrite list_elem_of_In, filter_In, String.eqb_refl. now intros [_ H].
  - apply NoDup_ListNoDup, List.NoDup_filter, NoDup_ListNoDup, IH.
Qed.

Lemma Map_get_In {V : Type} (m : list (string * V)) (k : string) (v : V) :
  JS.Map_get m k = Some v -> In v (map snd m).
Proof.
  induction m as [|[k0 v0] m IH]; simpl; [discriminate|].
  destruct (String.eqb k0 k); [intros [= ->]; now left|right; auto].
Qed.

Lemma employeeField_proto (n : string) :
  EmployeeForm.employeeField n = "__proto__" <-> n = "__proto__".
Proof.
  unfold EmployeeForm.employeeField.
  destruct (JS.Map_get LEGACY_SLOTS n) as [slot|] eqn:G; [|reflexivity].
  split.
  - intros E. exfalso. apply Map_get_In in G. cbn in G.
    repeat (destruct G as [<-|G]; [discriminate E|]). destruct G.
  - intros ->. vm_compute in G. discriminate G.
Qed.

Lemma written_field_not_proto (t : Tuple) :
  t_criterionName t <> "__proto__" -> written_field t <> "__proto__".
Proof. unfold written_field. now rewrite employeeField_proto. Qed.

(** Later tuples that write elsewhere leave a property as it is. *)
Lemma record_from_keeps (e k : string) (suffix : list Tuple) (r0 : Employee) :
  (forall t, In t suffix -> t_employeeId t = e -> written_field t <> k) ->
  exists r, record_from (Some r0) e suffix = Some r /\ r !! k = r0 !! k.
Proof.
  revert r0. induction suffix as [|t suffix IH]; intros r0 H.
  - exists r0. now split.
  - unfold record_from. cbn [fold_left].
    destruct (String.eqb_spec (t_employeeId t) e) as [He|He].
    + destruct (IH (write_tuple r0 t)) as (r & Hr & Hk);
        [intros; apply H; [now right|assumption]|].
      exists r. split; [exact Hr|]. rewrite Hk. unfold write_tuple.
      apply assign_lookup_ne, H; [now left|exact He].
    + apply IH. intros; apply H; [now right|assumption].
Qed.

(** No record ever gets an own property [__proto__]. *)
Lemma record_from_proto (e : string) (ts : list Tuple) (o : option Employee)
      (r : Employee) :
  (forall r0, o = Some r0 -> r0 !! "__proto__" = None) ->
  record_from o e ts = Some r -> r !! "__proto__" = None.
Proof.
  revert o. induction ts as [|t ts IH]; intros o Ho Hr.
  - now apply Ho.
  - unfold record_from in Hr. cbn [fold_left] in Hr.
    eapply IH; [|exact Hr].
    destruct (String.eqb (t_employeeId t) e); [|exact Ho].
    intros r0 [= <-]. unfold write_tuple. rewrite assign_lookup_proto.
    destruct o as [r1|]; cbn [default]; [now apply Ho|].
    unfold EmployeeForm.initialEmployee. apply object_of_absent.
    cbn. intros H. repeat (destruct H as [H|H]; [discriminate H|]). exact H.
Qed.

Lemma record_from_app (o : option Employee) (e : string) (l1 l2 : list Tuple) :
  record_from o e (l1 ++ l2) = record_from (record_from o e l1) e l2.
Proof. apply fold_left_app. Qed.

(** C8 (as amended). The projection returns the values of [employeeMap],
    whose keys are the distinct employee ids of the score tuples, each once,
    in first-seen order.  The value of a tuple whose criterion name is not
    "__proto__" is written under the legacy property when the name is
    literally one of the thirteen canonical names, and under the criterion
    name itself otherwise; the employee's record holds it there unless a
    later tuple of the same employee writes the same property.  Under the
    name "__proto__" a record stores nothing. *)
Theorem projection_spec (st : EmployeeForm.State) :
  let ts := tuples (EmployeeForm.evaluationScores st) in
  let m := EmployeeForm.employeeMap (EmployeeForm.evaluationScores st) in
  EmployeeForm.convertEvaluationScoresToEmployees st = map snd m
  /\ map fst m = first_seen (map t_employeeId ts)
  /\ NoDup (map fst m)
  /\ (forall e, In e (map fst m) <-> In e (map t_employeeId ts))
  /\ (forall prefix t suffix,
        ts = (prefix ++ t :: suffix)%list ->
        t_criterionName t <> "__proto__" ->
        (forall t', In t' suffix -> t_employeeId t' = t_employeeId t ->
                    written_field t' <> written_field t) ->
        exists record,
          JS.Map_get m (t_employeeId t) = Some record
          /\ record !! written_field t = Some (JS.JNum (t_value t)))
  /\ (forall t,
        (forall p d, In (t_criterionName t, (p, d)) LEGACY_SLOTS ->
                     written_field t = p)
        /\ (~ In (t_criterionName t) CANONICAL_CRITERIA_ORDER ->
            written_field t = t_criterionName t))
  /\ (forall e record,
        JS.Map_get m e = Some record -> record !! "__proto__" = None).
Proof.
  intros ts m.
  assert (map fst m = first_seen (map t_employeeId ts)) as Hkeys.
  { unfold m, EmployeeForm.employeeMap. rewrite employeeMap_from.
    rewrite employeeMap_keys. simpl. now apply filter_all. }
  split; [reflexivity|]. split; [exact Hkeys|].
  split; [rewrite Hkeys; apply first_seen_NoDup|].
  split; [intros e; rewrite Hkeys; apply first_seen_In|].
  split.
  - intros prefix t suffix Hts Hname Hlast.
    unfold m, EmployeeForm.employeeMap. rewrite employeeMap_from.
    fold ts. rewrite employeeMap_get, Hts, record_from_app.
    unfold record_from at 1. cbn [fold_left]. rewrite String.eqb_refl.
    match goal with
    | |- context [fold_left _ suffix (Some ?r0)] =>
        destruct (record_from_keeps (t_employeeId t) (written_field t)
                    suffix r0 Hlast) as (r & Hr & Hk)
    end.
    exists r. split; [exact Hr|]. rewrite Hk. unfold write_tuple.
    apply assign_lookup_eq. now apply written_field_not_proto.
  - split.
    + intros t. unfold written_field. split.
      * intros p d. apply employeeField_slot.
      * apply employeeField_other.
    + intros e record Hget. unfold m, EmployeeForm.employeeMap in Hget.
      rewrite employeeMap_from, employeeMap_get in Hget.
      now apply (record_from_proto e ts None record).
Qed.

(** C8, counterexample. The field mapping of the edit dialog sends the name
    "kualitas kerja" to the legacy property [kualitasKerja]; the projection
    writes a score of that criterion under "kualitas kerja" and leaves
    [kualitasKerja] at its default. *)
Lemma projection_ignores_field_mapping :
  let sc :=
    Supabase.mkEvaluationScore
      (Supabase.mkScoreRow "s1" "E" "c1" 4)
      (Some (Supabase.mkDBEmployee "E" "Budi"))
      (Some (mkCriteria "c1" "kualitas kerja" "Kinerja Inti" Benefit "1-5")) in
  let st := EmployeeForm.mkState [] [sc] [] "" ∅ in
  EditEmployeeDialog.createEmployeeFieldMapping "kualitas kerja"
  = JS.Own (JS.JStr "kualitasKerja")
  /\ exists record,
      EmployeeForm.convertEvaluationScoresToEmployees st = [record]
      /\ record !! "kualitasKerja" = Some (JS.JNum 1)
      /\ record !! "kualitas kerja" = Some (JS.JNum 4)
      /\ record !! "kualitasKerja" <> Some (JS.JNum 4).
Proof.
  intros sc st. split; [reflexivity|].
  eexists. split; [reflexivity|]. vm_compute. repeat split; discriminate.
Qed.

Lemma projection_spec_witness :
  let sc1 :=
    Supabase.mkEvaluationScore
      (Supabase.mkScoreRow "s1" "E" "c1" 4)
      (Some (Supabase.mkDBEmployee "E" "Budi"))
      (Some (mkCriteria "c1" "Kualitas Kerja" "Kinerja Inti" Benefit "1-5")) in
  let sc2 :=
    Supabase.mkEvaluationScore
      (Supabase.mkScoreRow "s2" "E" "cx" 3)
      (Some (Supabase.mkDBEmployee "E" "Budi"))
      (Some (mkCriteria "cx" "Kehadiran Rapat" "Lain" Benefit "1-5")) in
  let st := EmployeeForm.mkState [] [sc1; sc2] [] "" ∅ in
  exists record,
    JS.Map_get (EmployeeForm.employeeMap [sc1; sc2]) "E" = Some record
    /\ record !! "kualitasKerja" = Some (JS.JNum 4).
Proof.
  intros sc1 sc2 st.
  destruct (projection_spec st) as (_ & _ & _ & _ & H & _).
  refine (H [] (mkTuple "E" "Budi" "Kualitas Kerja" 4)
            [mkTuple "E" "Budi" "Kehadiran Rapat" 3] eq_refl _ _);
    [discriminate|].
  intros t' [<-|[]] _. discriminate.
Defined.

(* ===================================================================== *)
(** * From a submission to the projected record *)
(* ===================================================================== *)

Lemma tuples_joined (db : Supabase.Database) :
  tuples (Supabase.joined db)
  = omap (tuple_of_row db) (Supabase.evaluation_scores db).
Proof.
  unfold tuples, Supabase.joined.
  induction (Supabase.evaluation_scores db) as [|r rows IH]; [reflexivity|].
  cbn [flat_map]. rewrite omap_app, IH. cbn [omap list_omap].
  unfold tuple_of_row at 2.
  destruct (find _ (Supabase.employees_table db)) as [e|];
    [destruct (find _ (Supabase.criteria_table db)) as [c|]|]; reflexivity.
Qed.

Lemma In_omap {A B : Type} (f : A -> option B) (l : list A) (y : B) :
  In y (omap f l) <-> exists x, In x l /\ f x = Some y.
Proof.
  rewrite <- list_elem_of_In, list_elem_of_omap.
  split; intros (x & H1 & H2); exists x; split; try assumption;
    now apply list_elem_of_In.
Qed.

Lemma NoDup_map_inj {A B : Type} (f : A -> B) (l : list A) (a b : A) :
  NoDup (map f l) -> In a l -> In b l -> f a = f b -> a = b.
Proof.
  induction l as [|x l IH]; [intros _ []|].
  cbn [map]. intros [Hx Hnd]%NoDup_cons Ha Hb Hf.
  rewrite list_elem_of_In in Hx.
  destruct Ha as [->|Ha], Hb as [->|Hb]; [reflexivity| | |now apply IH].
  - exfalso. apply Hx. rewrite Hf. now apply in_map.
  - exfalso. apply Hx. rewrite <- Hf. now apply in_map.
Qed.

Lemma find_by_id (cs : list Criteria) (c : Criteria) :
  NoDup (map id cs) -> In c cs ->
  find (fun c' => String.eqb (id c') (id c)) cs = Some c.
Proof.
  intros Hnd Hc.
  destruct (find (fun c' => String.eqb (id c') (id c)) cs) as [c'|] eqn:F.
  - apply find_some in F as [Hc' He%String.eqb_eq].
    f_equal. now apply (NoDup_map_inj id cs).
  - exfalso. pose proof (find_none _ _ F c Hc) as H. simpl in H.
    now rewrite String.eqb_refl in H.
Qed.

Lemma NoDup_plan_pairs (employeeId : string) (cs : list Criteria) :
  NoDup (map id cs) -> NoDup (map (fun c => (employeeId, id c)) cs).
Proof.
  induction cs as [|c cs IH]; cbn [map]; [constructor|].
  intros [Hc Hnd]%NoDup_cons. apply NoDup_cons. split; [|now apply IH].
  rewrite list_elem_of_In in Hc. rewrite list_elem_of_In.
  intros (c' & [= E] & Hc')%in_map_iff.
  apply Hc. rewrite <- E. now apply in_map.
Qed.

(** The record of an employee with at least one tuple exists. *)
Lemma record_from_exists (o : option Employee) (e : string) (ts : list Tuple) :
  (is_Some o \/ exists t, In t ts /\ t_employeeId t = e) ->
  is_Some (record_from o e ts).
Proof.
  revert o. induction ts as [|t ts IH]; intros o H.
  - destruct H as [H|(t & [] & _)]. exact H.
  - unfold record_from. cbn [fold_left]. apply IH.
    destruct (String.eqb_spec (t_employeeId t) e) as [He|He]; [left; eauto|].
    destruct H as [H|(t' & [<-|Ht'] & He')]; [now left|contradiction|].
    right. eauto.
Qed.

(** A property that every tuple of the employee that writes it writes with
    the same value holds that value, once written. *)
Lemma record_from_uniform (e k : string) (v : Z) (ts : list Tuple)
      (o : option Employee) (r : Employee) :
  k <> "__proto__" ->
  (forall t, In t ts -> t_employeeId t = e -> written_field t = k ->
             t_value t = v) ->
  ((exists t, In t ts /\ t_employeeId t = e /\ written_field t = k)
   \/ (exists r0, o = Some r0 /\ r0 !! k = Some (JS.JNum v))) ->
  record_from o e ts = Some r -> r !! k = Some (JS.JNum v).
Proof.
  intros Hproto. revert o. induction ts as [|t ts IH]; intros o Hv H Hr.
  - destruct H as [(t & [] & _)|(r0 & -> & H0)].
    injection Hr as <-. exact H0.
  - unfold record_from in Hr. cbn [fold_left] in Hr.
    eapply IH; [intros; apply Hv; [now right|assumption|assumption]| |exact Hr].
    destruct (String.eqb_spec (t_employeeId t) e) as [He|He].
    + destruct (String.eqb_spec (written_field t) k) as [Hk|Hk].
      * right. eexists. split; [reflexivity|]. unfold write_tuple.
        rewrite Hk, assign_lookup_eq by exact Hproto.
        now rewrite (Hv t (or_introl eq_refl) He Hk).
      * destruct H as [(t' & [<-|Ht'] & He' & Hk')|(r0 & -> & H0)].
        -- contradiction.
        -- left. eauto.
        -- right. eexists. split; [reflexivity|]. unfold write_tuple.
           cbn [default]. now rewrite assign_lookup_ne.
    + destruct H as [(t' & [<-|Ht'] & He' & Hk')|H]; [contradiction| |now right].
      left. eauto.
Qed.

(** A legacy property that no tuple of the employee writes keeps the
    default. *)
Lemma record_from_default (e n p : string) (d : Z) (ts : list Tuple)
      (o : option Employee) (r : Employee) :
  In (n, (p, d)) LEGACY_SLOTS ->
  (forall t, In t ts -> t_employeeId t = e -> written_field t <> p) ->
  (forall r0, o = Some r0 -> r0 !! p = Some (JS.JNum d)) ->
  record_from o e ts = Some r -> r !! p = Some (JS.JNum d).
Proof.
  intros Hslot. revert o. induction ts as [|t ts IH]; intros o Hw Ho Hr.
  - now apply Ho.
  - unfold record_from in Hr. cbn [fold_left] in Hr.
    eapply IH; [intros; apply Hw; [now right|assumption]| |exact Hr].
    destruct (String.eqb_spec (t_employeeId t) e) as [He|He]; [|exact Ho].
    intros r0 [= <-]. unfold write_tuple.
    rewrite assign_lookup_ne by (apply Hw; [now left|exact He]).
    destruct o as [r1|]; cbn [default]; [now apply Ho|].
    now apply (initialEmployee_slot e (t_employeeName t) n).
Qed.

(** The tables after the upsert of a form's plan: the form holds the
    criteria [cs], each of them a row of the criteria table. *)
Section AfterUpsert.
Variables (s : Supabase.Server) (employeeId : string)
          (existing : list (string * string))
          (formValue : Criteria -> option Z) (cs : list Criteria)
          (employeeRow : Supabase.DBEmployee).
Hypothesis criteria_known :
  forall c, In c cs -> In c (Supabase.criteria_table (Supabase.tables s)).
Hypothesis employee_known :
  find (fun e => String.eqb (Supabase.emp_id e) employeeId)
       (Supabase.employees_table (Supabase.tables s)) = Some employeeRow.
Hypothesis ids_unique :
  NoDup (map id (Supabase.criteria_table (Supabase.tables s))).
Hypothesis form_ids_unique : NoDup (map id cs).
Hypothesis properties_unique :
  NoDup (map property_of (Supabase.criteria_table (Supabase.tables s))).

Let plan := evaluationScoresData employeeId existing formValue cs.
Let ts := tuples (Supabase.joined (upserted s plan)).

(** A tuple of the employee after the upsert comes from the plan, or from
    an earlier row of the employee for a criterion outside the form. *)
Lemma tuples_after_upsert (t : Tuple) :
  In t ts -> t_employeeId t = employeeId ->
  (exists c, In c cs /\ t_criterionName t = name c
             /\ t_value t = JS.num_or (formValue c) 0)
  \/ (earlier_score s employeeId (t_criterionName t)
      /\ forall c, In c cs -> name c = t_criterionName t -> False).
Proof.
  unfold ts. rewrite tuples_joined.
  intros (r & Hr & Ht)%In_omap He. unfold tuple_of_row in Ht.
  cbn [upserted Supabase.employees_table Supabase.criteria_table
       Supabase.evaluation_scores] in Hr, Ht.
  revert Ht.
  destruct (find (fun e => String.eqb (Supabase.emp_id e)
                                      (Supabase.es_employee_id r)) _)
    as [e0|]; [|discriminate].
  destruct (find (fun c => String.eqb (id c) (Supabase.es_criteria_id r))
                 (Supabase.criteria_table (Supabase.tables s)))
    as [c0|] eqn:F; [|discriminate].
  intros [= <-]. cbn in He |- *.
  apply find_some in F as [Hc0 Hid%String.eqb_eq].
  apply upsert_rows_score in Hr
    as [(d & Hd & Hp & Hs)|[Hout Hr]].
  - left. unfold plan, evaluationScoresData in Hd.
    apply in_map_iff in Hd as (c1 & <- & Hc1).
    unfold pair_of, payload_pair in Hp. cbn in Hp. injection Hp as _ Hp.
    assert (c1 = c0) as ->.
    { apply (NoDup_map_inj id (Supabase.criteria_table (Supabase.tables s)));
        try assumption; [now apply criteria_known|congruence]. }
    exists c0. split; [exact Hc1|]. split; [reflexivity|exact Hs].
  - right. split; [exists r, c0; repeat split; assumption|].
    intros c Hc Hn. apply Hout. unfold plan. rewrite plan_pairs.
    apply in_map_iff. exists c. split; [|exact Hc].
    unfold pair_of. rewrite He. f_equal. rewrite <- Hid.
    f_equal. apply (NoDup_map_inj property_of
                      (Supabase.criteria_table (Supabase.tables s)));
      try assumption; [now apply criteria_known|].
    unfold property_of. now rewrite Hn.
  - unfold plan. rewrite plan_pairs. now apply NoDup_plan_pairs.
Qed.

Lemma tuples_cover_criteria (c : Criteria) :
  In c cs ->
  exists t, In t ts /\ t_employeeId t = employeeId
            /\ t_criterionName t = name c.
Proof.
  intros Hc. unfold ts. rewrite tuples_joined.
  assert (In (payload_pair (scoreData employeeId (existingScoresMap existing)
                                      formValue c))
             (map pair_of
                  (Supabase.upsert_rows (Supabase.new_id s)
                     (Supabase.evaluation_scores (Supabase.tables s)) plan)))
    as (r & Hp & Hr)%in_map_iff.
  { apply upsert_rows_covers. unfold plan, evaluationScoresData.
    now apply in_map. }
  unfold pair_of, payload_pair in Hp. cbn in Hp. injection Hp as He Hk.
  exists {| t_employeeId := employeeId;
            t_employeeName := Supabase.emp_name employeeRow;
            t_criterionName := name c;
            t_value := Supabase.es_score r |}.
  split; [|split; reflexivity].
  apply In_omap. exists r. split; [exact Hr|].
  unfold tuple_of_row.
  cbn [upserted Supabase.employees_table Supabase.criteria_table].
  rewrite He, employee_known, Hk.
  now rewrite (find_by_id _ c ids_unique (criteria_known c Hc)).
Qed.

Lemma record_after_upsert (c0 : Criteria) :
  In c0 cs ->
  exists record,
    record_from None employeeId ts = Some record
    /\ (forall c, In c cs -> name c <> "__proto__" ->
          record !! property_of c = Some (JS.JNum (JS.num_or (formValue c) 0)))
    /\ (forall n p d, In (n, (p, d)) LEGACY_SLOTS ->
          (forall c, In c cs -> property_of c <> p) ->
          (forall n', earlier_score s employeeId n' ->
                      EmployeeForm.employeeField n' <> p) ->
          record !! p = Some (JS.JNum d)).
Proof.
  intros Hc0.
  destruct (tuples_cover_criteria c0 Hc0) as (t0 & Ht0 & He0 & _).
  destruct (record_from_exists None employeeId ts) as [record Hrec];
    [right; eauto|].
  exists record. split; [exact Hrec|]. split.
  - intros c Hc Hname.
    apply (record_from_uniform employeeId (property_of c) _ ts None record);
      [| | |exact Hrec].
    + unfold property_of. now rewrite employeeField_proto.
    + intros t Ht He Hk.
      destruct (tuples_after_upsert t Ht He)
        as [(c1 & Hc1 & Hn & Hv)|[(r & c1 & Hr & Her & Hc1 & Hid & Hn) Hout]].
      * assert (c1 = c) as <-; [|exact Hv].
        apply (NoDup_map_inj property_of
                 (Supabase.criteria_table (Supabase.tables s)));
          try assumption; try now apply criteria_known.
        unfold property_of. rewrite <- Hn. exact Hk.
      * exfalso. apply (Hout c Hc).
        assert (c1 = c) as <-; [|exact Hn].
        apply (NoDup_map_inj property_of
                 (Supabase.criteria_table (Supabase.tables s)));
          try assumption; [now apply criteria_known|].
        unfold property_of. rewrite Hn. exact Hk.
    + left. destruct (tuples_cover_criteria c Hc) as (t & Ht & He & Hn).
      exists t. split; [exact Ht|]. split; [exact He|].
      unfold written_field, property_of. now rewrite Hn.
  - intros n p d Hslot Hform Hearlier.
    apply (record_from_default employeeId n p d ts None record Hslot);
      [|discriminate|exact Hrec].
    intros t Ht He Hk.
    destruct (tuples_after_upsert t Ht He) as [(c1 & Hc1 & Hn & _)|[Hold _]].
    + apply (Hform c1 Hc1). unfold property_of. rewrite <- Hn. exact Hk.
    + now apply (Hearlier _ Hold).
Qed.

End AfterUpsert.

(** C3 (as amended). After a saved submission and the refresh that follows
    it, when the form holds at least one criterion, every criterion of the
    form is a row of the criteria table, the
    table's criteria have distinct ids and distinct receiving properties,
    the form's criteria have distinct ids and the employee is in the
    employees table: the projection has a record for the employee in which
    the property of every criterion of the form not named "__proto__" holds
    the form's value for it, or 0 when the form has no value for it, and in
    which every legacy property that is written neither by a criterion of
    the form nor by an earlier score of the employee holds its fixed
    default, whatever the type and scale of a criterion of that name in the
    criteria table. *)
Theorem submit_then_project
        (st : EmployeeForm.State) (s : Supabase.Server) (saved : Employee)
        (employeeRow : Supabase.DBEmployee) (c0 : Criteria) :
  let employeeId := EmployeeForm.selectedEmployeeId st in
  let result := EmployeeForm.handleSubmit st s in
  let st' := snd (fst result) in
  let table := Supabase.criteria_table (Supabase.tables s) in
  handed_over (fst (fst result)) = Some saved ->
  Supabase.rejects s Supabase.SelectJoined = false ->
  (forall c, In c (EmployeeForm.criteria st) -> In c table) ->
  find (fun e => String.eqb (Supabase.emp_id e) employeeId)
       (Supabase.employees_table (Supabase.tables s)) = Some employeeRow ->
  NoDup (map id table) ->
  NoDup (map id (EmployeeForm.criteria st)) ->
  NoDup (map property_of table) ->
  In c0 (EmployeeForm.criteria st) ->
  exists record,
    JS.Map_get (EmployeeForm.employeeMap (EmployeeForm.evaluationScores st'))
               employeeId = Some record
    /\ In record (EmployeeForm.convertEvaluationScoresToEmployees st')
    /\ (forall c v, In c (EmployeeForm.criteria st) -> name c <> "__proto__" ->
          EmployeeForm.formData st !! id c = Some v ->
          record !! property_of c = Some (JS.JNum v))
    /\ (forall c, In c (EmployeeForm.criteria st) -> name c <> "__proto__" ->
          EmployeeForm.formData st !! id c = None ->
          record !! property_of c = Some (JS.JNum 0))
    /\ (forall n p d, In (n, (p, d)) LEGACY_SLOTS ->
          (forall c, In c (EmployeeForm.criteria st) -> property_of c <> p) ->
          (forall n', earlier_score s employeeId n' ->
                      EmployeeForm.employeeField n' <> p) ->
          record !! p = Some (JS.JNum d)).
Proof.
  intros employeeId result st' table Hsaved Hjoin Hcrit Hemp Hids Hfids Hprops
         Hc0.
  subst result st' table.
  destruct (form_submit_cases st s)
    as [[Hnone _]|(sel & _ & _ & _ & _ & _ & _ & _ & Hscores)];
    [congruence|].
  unfold EmployeeForm.convertEvaluationScoresToEmployees, JS.Map_values.
  rewrite (Hscores Hjoin). unfold form_plan. fold employeeId.
  destruct (record_after_upsert s employeeId
              (Supabase.existing_of employeeId
                 (Supabase.evaluation_scores (Supabase.tables s)))
              (EmployeeForm.formValue (EmployeeForm.formData st))
              (EmployeeForm.criteria st) employeeRow Hcrit Hemp Hids Hfids
              Hprops c0 Hc0) as (record & Hrec & Hvals & Hdefaults).
  assert (JS.Map_get
            (EmployeeForm.employeeMap
               (Supabase.joined
                  (upserted s
                     (evaluationScoresData employeeId
                        (Supabase.existing_of employeeId
                           (Supabase.evaluation_scores (Supabase.tables s)))
                        (EmployeeForm.formValue (EmployeeForm.formData st))
                        (EmployeeForm.criteria st)))))
            employeeId = Some record) as Hget.
  { unfold EmployeeForm.employeeMap. rewrite employeeMap_from, employeeMap_get.
    exact Hrec. }
  exists record. split; [exact Hget|].
  split; [now apply Map_get_In with (k := employeeId)|].
  split; [|split; [|exact Hdefaults]].
  - intros c v Hc Hn Hv. rewrite (Hvals c Hc Hn). unfold EmployeeForm.formValue.
    now rewrite Hv, num_or_same.
  - intros c Hc Hn Hv. rewrite (Hvals c Hc Hn). unfold EmployeeForm.formValue.
    now rewrite Hv.
Qed.

(** C3, counterexample. The form was filled by [fetchCriteria] when the
    criteria table held "Kualitas Kerja" only; by the time the evaluation of
    employee E is submitted the table also holds "Prestasi" (Benefit, scale
    1-5, initial value 1).  "Prestasi" is a known criterion that was not
    submitted; after the save and the refresh the projection holds 0 for
    it, not 1. *)
Lemma stale_form_projects_fixed_default :
  let cA := mkCriteria "A" "Kualitas Kerja" "Kinerja Inti" Benefit "1-5" in
  let cP := mkCriteria "P" "Prestasi" "Faktor Tambahan" Benefit "1-5" in
  let sel := Supabase.mkDBEmployee "E" "Budi" in
  let loaded :=
    snd (EmployeeForm.fetchCriteria lexicographic (Supabase.Data [cA])
           (EmployeeForm.mkState [sel] [] [] "" ∅)) in
  let st :=
    EmployeeForm.handleInputChange "A" 4
      (EmployeeForm.setSelectedEmployeeId "E" loaded) in
  let s :=
    Supabase.mkServer (Supabase.mkDatabase [sel] [cA; cP] [])
                      (fun _ => false) (fun _ => "s1") [] in
  let st' := snd (fst (EmployeeForm.handleSubmit st s)) in
  In cP (Supabase.criteria_table (Supabase.tables s))
  /\ ~ In cP (EmployeeForm.criteria st)
  /\ EmployeeForm.initialFormValue cP = 1
  /\ exists record,
      EmployeeForm.convertEvaluationScoresToEmployees st' = [record]
      /\ record !! "kualitasKerja" = Some (JS.JNum 4)
      /\ record !! "prestasi" = Some (JS.JNum 0)
      /\ record !! "prestasi"
         <> Some (JS.JNum (EmployeeForm.initialFormValue cP)).
Proof.
  intros cA cP sel loaded st s st'.
  split; [right; left; reflexivity|].
  split; [intros [H|[]]; discriminate H|].
  split; [reflexivity|].
  eexists. split; [reflexivity|]. vm_compute. repeat split; discriminate.
Qed.

Lemma submit_then_project_witness :
  let cA := mkCriteria "A" "Kualitas Kerja" "Kinerja Inti" Benefit "1-5" in
  let cB := mkCriteria "B" "Jumlah Hari Alpa" "Kedisiplinan" Cost "0-10" in
  let cP := mkCriteria "P" "Prestasi" "Faktor Tambahan" Benefit "1-5" in
  let sel := Supabase.mkDBEmployee "E" "Budi" in
  let s :=
    Supabase.mkServer (Supabase.mkDatabase [sel] [cP; cB; cA] [])
                      (fun _ => false) (fun _ => "s1") [] in
  let st := EmployeeForm.mkState [sel] [] [cA; cB] "E" {[ "A" := 4; "B" := 2 ]} in
  let st' := snd (fst (EmployeeForm.handleSubmit st s)) in
  exists record,
    JS.Map_get (EmployeeForm.employeeMap (EmployeeForm.evaluationScores st'))
               "E" = Some record
    /\ record !! "kualitasKerja" = Some (JS.JNum 4)
    /\ record !! "hariAlpa" = Some (JS.JNum 2)
    /\ record !! "tanggungJawab" = Some (JS.JNum 1)
    /\ record !! "prestasi" = Some (JS.JNum 0).
Proof.
  intros cA cB cP sel s st st'.
  assert (NoDup (map id [cP; cB; cA])) as Hids
      by (apply (bool_decide_unpack _); vm_compute; exact I).
  assert (NoDup (map id [cA; cB])) as Hfids
      by (apply (bool_decide_unpack _); vm_compute; exact I).
  assert (NoDup (map property_of [cP; cB; cA])) as Hprops
      by (apply (bool_decide_unpack _); vm_compute; exact I).
  assert (forall c, In c [cA; cB] -> In c [cP; cB; cA]) as Hknown.
  { intros c [<-|[<-|[]]]; [do 2 right; now left|right; now left]. }
  assert (forall n', ~ earlier_score s "E" n') as Hnone.
  { intros n' (r & _ & [] & _). }
  destruct (submit_then_project st s
              (EmployeeForm.newEmployee sel [cA; cB] {[ "A" := 4; "B" := 2 ]})
              sel cA eq_refl eq_refl Hknown eq_refl Hids Hfids Hprops
              (or_introl eq_refl))
    as (record & Hget & _ & Hv & _ & Hd).
  exists record. split; [exact Hget|].
  split; [exact (Hv cA 4 (or_introl eq_refl) ltac:(discriminate) eq_refl)|].
  split; [exact (Hv cB 2 (or_intror (or_introl eq_refl))
                    ltac:(discriminate) eq_refl)|].
  split.
  - apply (Hd "Tanggung Jawab" "tanggungJawab" 1).
    + right. left. reflexivity.
    + intros c [<-|[<-|[]]]; discriminate.
    + intros n' H. now apply Hnone in H.
  - apply (Hd "Prestasi" "prestasi" 0).
    + do 11 right. left. reflexivity.
    + intros c [<-|[<-|[]]]; discriminate.
    + intros n' H. now apply Hnone in H.
Defined.


(* ===================================================================== *)
(** * Further properties: field names and their mappings *)
(* ===================================================================== *)

Lemma underscore_char (c : ascii) : JS.is_underscore c = true -> c = "_"%char.
Proof.
  destruct c as [[] [] [] [] [] [] [] []]; vm_compute; congruence.
Qed.

Lemma kept_not_underscore (c : ascii) :
  JS.is_lower_alnum c || JS.is_space c = true -> JS.is_underscore c = false.
Proof.
  destruct c as [[] [] [] [] [] [] [] []]; vm_compute; congruence.
Qed.

(** Whitespace runs of a string without underscores become isolated
    underscores. *)
Lemma replace_spaces_isolated (s : string) (b : bool) :
  every not_underscore s = true ->
  double_underscore (JS.replace_runs JS.is_space "_" b s) = false
  /\ (b = true ->
      starts_with_underscore (JS.replace_runs JS.is_space "_" b s) = false).
Proof.
  revert b. induction s as [|c s IH]; intros b Hs; [now split|].
  cbn [every] in Hs. apply andb_true_iff in Hs as [Hc Hs].
  unfold not_underscore in Hc. apply negb_true_iff in Hc.
  cbn [JS.replace_runs]. destruct (JS.is_space c).
  - destruct (IH true Hs) as [H1 H2]. destruct b; [now split|].
    split; [|discriminate]. cbn [double_underscore].
    now rewrite H1, (H2 eq_refl), andb_false_r.
  - destruct (IH false Hs) as [H1 _].
    split; [|intros _; exact Hc]. cbn [double_underscore].
    now rewrite Hc, H1.
Qed.

Lemma double_drop_leading (cls : ascii -> bool) (s : string) :
  double_underscore s = false ->
  double_underscore (JS.drop_leading cls s) = false.
Proof.
  induction s as [|c s IH]; [reflexivity|]. intros H. cbn [JS.drop_leading].
  destruct (cls c); [|exact H]. apply IH. cbn [double_underscore] in H.
  now apply orb_false_iff in H as [_ H].
Qed.

Lemma drop_trailing_head (cls : ascii -> bool) (s : string) :
  starts_with_underscore (JS.drop_trailing cls s) = true ->
  starts_with_underscore s = true.
Proof.
  destruct s as [|c s]; [discriminate|]. cbn [JS.drop_trailing].
  destruct (JS.drop_trailing cls s); [destruct (cls c)|]; auto. discriminate.
Qed.

Lemma double_drop_trailing (cls : ascii -> bool) (s : string) :
  double_underscore s = false ->
  double_underscore (JS.drop_trailing cls s) = false.
Proof.
  induction s as [|c s IH]; [reflexivity|]. intros H.
  cbn [double_underscore] in H. apply orb_false_iff in H as [H1 H2].
  specialize (IH H2). cbn [JS.drop_trailing].
  destruct (JS.drop_trailing cls s) as [|c' t] eqn:E.
  - destruct (cls c); [reflexivity|]. cbn. now rewrite andb_false_r.
  - change (double_underscore (String c (String c' t)))
      with ((JS.is_underscore c && starts_with_underscore (String c' t))
            || double_underscore (String c' t)).
    rewrite IH, orb_false_r.
    destruct (JS.is_underscore c) eqn:Hc; [|reflexivity]. cbn [andb] in *.
    destruct (starts_with_underscore (String c' t)) eqn:F; [|reflexivity].
    rewrite <- E in F. apply drop_trailing_head in F. congruence.
Qed.

Lemma drop_leading_head (s : string) :
  starts_with_underscore (JS.drop_leading JS.is_underscore s) = false.
Proof.
  induction s as [|c s IH]; [reflexivity|]. cbn [JS.drop_leading].
  destruct (JS.is_underscore c) eqn:E; [exact IH|exact E].
Qed.

Lemma drop_trailing_last (s : string) :
  ends_with_underscore (JS.drop_trailing JS.is_underscore s) = false.
Proof.
  induction s as [|c s IH]; [reflexivity|]. cbn [JS.drop_trailing].
  destruct (JS.drop_trailing JS.is_underscore s) as [|c' t].
  - destruct (JS.is_underscore c) eqn:E; [reflexivity|exact E].
  - exact IH.
Qed.

(** Collapsing runs of underscores changes nothing where none are
    adjacent. *)
Lemma collapse_isolated (s : string) (b : bool) :
  double_underscore s = false ->
  (b = true -> starts_with_underscore s = false) ->
  JS.replace_runs JS.is_underscore "_" b s = s.
Proof.
  revert b. induction s as [|c s IH]; intros b H Hb; [reflexivity|].
  cbn [double_underscore] in H. apply orb_false_iff in H as [H1 H2].
  cbn [JS.replace_runs]. destruct (JS.is_underscore c) eqn:Hc.
  - destruct b; [specialize (Hb eq_refl); cbn in Hb; congruence|].
    rewrite (underscore_char c Hc). f_equal. apply IH; [exact H2|].
    intros _. cbn [andb] in H1. exact H1.
  - f_equal. apply IH; [exact H2|discriminate].
Qed.

Lemma createFieldName_last_step_helper (criteriaName : string) :
  EditEmployeeDialog.createFieldName criteriaName
  = JS.trim_runs JS.is_underscore
      (JS.replace_runs JS.is_space "_" false
         (JS.keep (fun c => JS.is_lower_alnum c || JS.is_space c)
            (JS.toLowerCase criteriaName))).
Proof.
  unfold EditEmployeeDialog.createFieldName, JS.trim_runs.
  apply collapse_isolated; [|discriminate].
  apply double_drop_trailing, double_drop_leading.
  apply (replace_spaces_isolated _ false).
  apply (every_weaken (fun c => JS.is_lower_alnum c || JS.is_space c));
    [|apply every_keep].
  intros c Hc. unfold not_underscore. now rewrite (kept_not_underscore c Hc).
Qed.

(** X1. The last replacement of [createFieldName], which collapses repeated
    underscores, never changes its argument: the field name is already
    determined by the first four steps. *)
Theorem createFieldName_last_step_idle (criteriaName : string) :
  EditEmployeeDialog.createFieldName criteriaName
  = JS.trim_runs JS.is_underscore
      (JS.replace_runs JS.is_space "_" false
         (JS.keep (fun c => JS.is_lower_alnum c || JS.is_space c)
            (JS.toLowerCase criteriaName))).
Proof.
  unfold EditEmployeeDialog.createFieldName.
  set (spaced := JS.replace_runs JS.is_space "_" false _).
  assert (double_underscore spaced = false) as Hspaced.
  { apply (replace_spaces_isolated _ false).
    apply (every_weaken (fun c => JS.is_lower_alnum c || JS.is_space c));
      [|apply every_keep].
    intros c Hc. unfold not_underscore. now rewrite (kept_not_underscore c Hc). }
  apply collapse_isolated; [|discriminate].
  unfold JS.trim_runs. now apply double_drop_trailing, double_drop_leading.
Qed.

(** X2. A field name consists of the characters a-z, 0-9 and underscore; it
    neither starts nor ends with an underscore and has no two underscores in
    a row. *)
Theorem createFieldName_shape (criteriaName : string) :
  let fieldName := EditEmployeeDialog.createFieldName criteriaName in
  every token_char fieldName = true
  /\ starts_with_underscore fieldName = false
  /\ ends_with_underscore fieldName = false
  /\ double_underscore fieldName = false.
Proof.
  intros fieldName. split; [apply createFieldName_token|].
  assert (double_underscore
            (JS.replace_runs JS.is_space "_" false
               (JS.keep (fun c => JS.is_lower_alnum c || JS.is_space c)
                  (JS.toLowerCase criteriaName))) = false) as Hd.
  { apply (replace_spaces_isolated _ false).
    apply (every_weaken (fun c => JS.is_lower_alnum c || JS.is_space c));
      [|apply every_keep].
    intros c Hc. unfold not_underscore. now rewrite (kept_not_underscore c Hc). }
  unfold fieldName. rewrite createFieldName_last_step_helper.
  unfold JS.trim_runs. split; [|split].
  - destruct (starts_with_underscore _) eqn:F; [|reflexivity].
    apply drop_trailing_head in F. now rewrite drop_leading_head in F.
  - apply drop_trailing_last.
  - now apply double_drop_trailing, double_drop_leading.
Qed.

Lemma mapping_tokens :
  map EditEmployeeDialog.createFieldName CANONICAL_CRITERIA_ORDER
  = [ "kualitas_kerja"; "tanggung_jawab"; "kuantitas_kerja"; "pemahaman_tugas";
      "inisiatif"; "kerjasama"; "jumlah_hari_alpa"; "jumlah_keterlambatan";
      "jumlah_hari_izin"; "jumlah_hari_sakit"; "pulang_cepat"; "prestasi";
      "surat_peringatan" ].
Proof. vm_compute. reflexivity. Qed.

Lemma createFieldName_head (criteriaName : string) :
  starts_with_underscore (EditEmployeeDialog.createFieldName criteriaName)
  = false.
Proof.
  rewrite createFieldName_last_step_helper. unfold JS.trim_runs.
  destruct (starts_with_underscore _) eqn:F; [|reflexivity].
  apply drop_trailing_head in F. now rewrite drop_leading_head in F.
Qed.

(** The only field name that [Object.prototype] has is "constructor". *)
Lemma inherited_field_name (criteriaName : string) :
  JS.inherited (EditEmployeeDialog.createFieldName criteriaName) = true
  <-> EditEmployeeDialog.createFieldName criteriaName = "constructor".
Proof.
  split; [|now intros ->].
  pose proof (createFieldName_token criteriaName) as Htoken.
  pose proof (createFieldName_head criteriaName) as Hhead.
  unfold JS.inherited. rewrite existsb_exists.
  intros (k & Hk & E%String.eqb_eq). rewrite E in Htoken, Hhead |- *.
  cbn in Hk.
  repeat (destruct Hk as [<-|Hk];
          [first [reflexivity | discriminate Htoken | discriminate Hhead]|]).
  destruct Hk.
Qed.

(** X3. The dialog's two field mappings depend on the field name only: a
    criterion name whose field name is that of a canonical criterion is
    mapped to that criterion's legacy [Employee] property, and a name whose
    field name is that of no canonical criterion is mapped to its field name
    by both mappings, except for the field name "constructor", the only
    field name that [Object.prototype] has: there both mappings return the
    inherited member. *)
Theorem field_mappings_by_token (criteriaName : string) :
  let fieldName := EditEmployeeDialog.createFieldName criteriaName in
  (forall n p d,
      In (n, (p, d)) LEGACY_SLOTS ->
      fieldName = EditEmployeeDialog.createFieldName n ->
      EditEmployeeDialog.createEmployeeFieldMapping criteriaName
      = JS.Own (JS.JStr p))
  /\ (~ In fieldName
           (map EditEmployeeDialog.createFieldName CANONICAL_CRITERIA_ORDER) ->
      fieldName <> "constructor" ->
      EditEmployeeDialog.createEmployeeFieldMapping criteriaName
      = JS.Own (JS.JStr fieldName)
      /\ EditEmployeeDialog.createDatabaseFieldMapping criteriaName
         = JS.Own (JS.JStr fieldName))
  /\ (fieldName = "constructor" ->
      EditEmployeeDialog.createEmployeeFieldMapping criteriaName
      = JS.Member "constructor"
      /\ EditEmployeeDialog.createDatabaseFieldMapping criteriaName
         = JS.Member "constructor").
Proof.
  intros fieldName. subst fieldName. split; [|split].
  - intros n p d Hslot E.
    unfold EditEmployeeDialog.createEmployeeFieldMapping. rewrite E.
    simpl in Hslot.
    repeat (destruct Hslot as [[= <- <- <-]|Hslot]; [vm_compute; reflexivity|]).
    destruct Hslot.
  - rewrite mapping_tokens. intros Hout Hc.
    assert (JS.inherited (EditEmployeeDialog.createFieldName criteriaName)
            = false) as Hown.
    { destruct (JS.inherited _) eqn:F; [|reflexivity].
      apply inherited_field_name in F. contradiction. }
    unfold EditEmployeeDialog.createEmployeeFieldMapping,
      EditEmployeeDialog.createDatabaseFieldMapping,
      EditEmployeeDialog.lookup_or_self.
    rewrite !Map_get_absent, Hown; [split; reflexivity|exact Hout|exact Hout].
  - intros E.
    unfold EditEmployeeDialog.createEmployeeFieldMapping,
      EditEmployeeDialog.createDatabaseFieldMapping.
    rewrite E. split; reflexivity.
Qed.

Lemma field_mappings_by_token_witness :
  EditEmployeeDialog.createEmployeeFieldMapping "JUMLAH   hari alpa!"
  = JS.Own (JS.JStr "hariAlpa")
  /\ EditEmployeeDialog.createEmployeeFieldMapping "Kehadiran Rapat"
     = JS.Own (JS.JStr "kehadiran_rapat")
  /\ EditEmployeeDialog.createEmployeeFieldMapping "Constructor"
     = JS.Member "constructor".
Proof.
  split; [|split].
  - apply (proj1 (field_mappings_by_token "JUMLAH   hari alpa!")
                 "Jumlah Hari Alpa" "hariAlpa" 0).
    + do 6 right. left. reflexivity.
    + vm_compute. reflexivity.
  - apply (proj1 (proj2 (field_mappings_by_token "Kehadiran Rapat"))).
    + rewrite mapping_tokens. vm_compute.
      intros H. repeat (destruct H as [H|H]; [discriminate H|]). exact H.
    + vm_compute. discriminate.
  - apply (proj2 (proj2 (field_mappings_by_token "Constructor"))).
    vm_compute. reflexivity.
Defined.

(* ===================================================================== *)
(** * Further properties: codes *)
(* ===================================================================== *)

Lemma array_includes_In (l : list string) (x : string) :
  JS.array_includes l x = true <-> In x l.
Proof.
  unfold JS.array_includes. rewrite existsb_exists. split.
  - intros (y & Hy & ->%String.eqb_eq). exact Hy.
  - intros H. exists x. split; [exact H|apply String.eqb_refl].
Qed.

Lemma getCriteriaCode_found (n : string) :
  In n CANONICAL_CRITERIA_ORDER ->
  exists i : nat, (i < 13)%nat
    /\ getCriteriaCode n = "C" +:+ JS.toString (Z.of_nat i + 1)
    /\ CANONICAL_CRITERIA_ORDER !! i = Some n.
Proof.
  intros (i & Hi)%list_elem_of_In%list_elem_of_lookup.
  exists i. split; [apply lookup_lt_Some in Hi; exact Hi|]. split; [|exact Hi].
  unfold getCriteriaCode, JS.indexOf.
  rewrite (indexOf_from_found _ _ i 0 CANONICAL_CRITERIA_ORDER_NoDup Hi).
  replace (0 + Z.of_nat i =? -1) with false by (symmetry; apply Z.eqb_neq; lia).
  reflexivity.
Qed.

Lemma small_code_numerals (i j : nat) :
  (i < 13)%nat -> (j < 13)%nat ->
  "C" +:+ JS.toString (Z.of_nat i + 1) <> "C?"
  /\ ("C" +:+ JS.toString (Z.of_nat i + 1)
      = "C" +:+ JS.toString (Z.of_nat j + 1) -> i = j).
Proof.
  intros Hi Hj. split.
  - do 13 (destruct i as [|i]; [vm_compute; discriminate|]). lia.
  - do 13 (destruct i as [|i];
           [do 13 (destruct j as [|j];
                   [first [intros _; reflexivity | vm_compute; discriminate]|]);
            lia|]).
    lia.
Qed.

(** X4. [getCriteriaCode] answers "C?" exactly for the names outside the
    canonical list, and gives different codes to different canonical names;
    the criteria the detail dialog lists as additional are exactly the
    criteria of the form whose code is "C?". *)
Theorem codes_identify_criteria :
  (forall n, getCriteriaCode n = "C?" <-> ~ In n CANONICAL_CRITERIA_ORDER)
  /\ (forall n m, In n CANONICAL_CRITERIA_ORDER ->
                  In m CANONICAL_CRITERIA_ORDER ->
                  getCriteriaCode n = getCriteriaCode m -> n = m)
  /\ (forall (st : EmployeeForm.State) (c : Criteria),
        In c (EmployeeForm.additionalCriteria st)
        <-> In c (EmployeeForm.criteria st)
            /\ getCriteriaCode (name c) = "C?").
Proof.
  assert (forall n, getCriteriaCode n = "C?"
                    <-> ~ In n CANONICAL_CRITERIA_ORDER) as Hq.
  { intros n. split.
    - intros E Hn. destruct (getCriteriaCode_found n Hn) as (i & Hi & Hc & _).
      rewrite Hc in E. exact (proj1 (small_code_numerals i i Hi Hi) E).
    - intros Hn. unfold getCriteriaCode, JS.indexOf.
      rewrite indexOf_from_absent; [reflexivity|].
      now rewrite list_elem_of_In. }
  split; [exact Hq|]. split.
  - intros n m Hn Hm E.
    destruct (getCriteriaCode_found n Hn) as (i & Hi & Hci & Hli).
    destruct (getCriteriaCode_found m Hm) as (j & Hj & Hcj & Hlj).
    rewrite Hci, Hcj in E.
    apply (proj2 (small_code_numerals i j Hi Hj)) in E. congruence.
  - intros st c. unfold EmployeeForm.additionalCriteria.
    rewrite filter_In, Hq, negb_true_iff, <- array_includes_In.
    destruct (JS.array_includes CANONICAL_CRITERIA_ORDER (name c));
      intuition congruence.
Qed.

Lemma codes_identify_criteria_witness :
  let extra := mkCriteria "c2" "Kehadiran Rapat" "Tambahan" Benefit "1-5" in
  let core := mkCriteria "c1" "Kualitas Kerja" "Kinerja Inti" Benefit "1-5" in
  let st := EmployeeForm.mkState [] [] [core; extra] "" ∅ in
  getCriteriaCode "Kehadiran Rapat" = "C?"
  /\ In extra (EmployeeForm.additionalCriteria st).
Proof.
  intros extra core st.
  destruct codes_identify_criteria as (Hq & _ & Hadd).
  assert (getCriteriaCode "Kehadiran Rapat" = "C?") as Hcode.
  { apply Hq. vm_compute.
    intros H. repeat (destruct H as [H|H]; [discriminate H|]). exact H. }
  split; [exact Hcode|].
  apply Hadd. split; [right; left; reflexivity|exact Hcode].
Defined.

(* ===================================================================== *)
(** * Further properties: sorting again *)
(* ===================================================================== *)

Section SortedInput.
Context {A : Type} (cmp : A -> A -> Z).

Lemma insert_sorted_last (x : A) (acc : list A) :
  Forall (fun y => cmp y x <= 0) acc ->
  JS.insert_sorted cmp x acc = (acc ++ [x])%list.
Proof.
  induction 1 as [|y acc Hy _ IH]; simpl; [reflexivity|].
  destruct (Z.leb_spec (cmp y x) 0); [now rewrite IH|lia].
Qed.

Lemma sorted_app_before (acc l : list A) (x : A) :
  StronglySorted (fun a b => cmp a b <= 0) (acc ++ x :: l) ->
  Forall (fun y => cmp y x <= 0) acc.
Proof.
  induction acc as [|y acc IH]; simpl; [constructor|].
  intros H. apply StronglySorted_inv in H as [Hs Hy].
  constructor; [|now apply IH].
  rewrite Forall_forall in Hy. apply Hy.
  apply list_elem_of_In, in_or_app. right. now left.
Qed.

Lemma sort_from_already_sorted (l acc : list A) :
  StronglySorted (fun a b => cmp a b <= 0) (acc ++ l) ->
  fold_left (fun acc x => JS.insert_sorted cmp x acc) l acc = (acc ++ l)%list.
Proof.
  revert acc. induction l as [|x l IH]; intros acc H; simpl.
  - now rewrite app_nil_r.
  - rewrite (insert_sorted_last x acc (sorted_app_before acc l x H)).
    rewrite IH; rewrite <- app_assoc; [reflexivity|exact H].
Qed.

Lemma sort_already_sorted (l : list A) :
  StronglySorted (fun a b => cmp a b <= 0) l -> JS.sort cmp l = l.
Proof. intros H. exact (sort_from_already_sorted l [] H). Qed.

End SortedInput.

(** X5. Sorting is idempotent: criteria that already stand in comparator
    order come back unchanged, and with a collation that is a total
    preorder, sorting the sorted criteria again changes nothing. *)
Theorem sortedCriteria_idempotent (localeCompare : string -> string -> Z)
        (criteriaData : list Criteria) :
  (StronglySorted (fun a b => compareCriteria localeCompare a b <= 0)
                  criteriaData ->
   sortedCriteria localeCompare criteriaData = criteriaData)
  /\ ((forall a b, localeCompare a b <= 0 \/ localeCompare b a <= 0) ->
      (forall a b c, localeCompare a b <= 0 -> localeCompare b c <= 0 ->
                     localeCompare a c <= 0) ->
      sortedCriteria localeCompare (sortedCriteria localeCompare criteriaData)
      = sortedCriteria localeCompare criteriaData).
Proof.
  split.
  - apply sort_already_sorted.
  - intros Htotal Htrans. apply sort_already_sorted.
    apply sort_sorted.
    + apply compareCriteria_total, Htotal.
    + apply compareCriteria_trans, Htrans.
Qed.

Lemma sortedCriteria_idempotent_witness :
  let input :=
    [ mkCriteria "x2" "Zona Kerja" "Lain" Benefit "1-5";
      mkCriteria "c7" "Jumlah Hari Alpa" "Kedisiplinan" Cost "0-10";
      mkCriteria "c1" "Kualitas Kerja" "Kinerja Inti" Benefit "1-5" ] in
  sortedCriteria lexicographic (sortedCriteria lexicographic input)
  = sortedCriteria lexicographic input.
Proof.
  intros input.
  exact (proj2 (sortedCriteria_idempotent lexicographic input)
               lexicographic_total lexicographic_trans).
Defined.

(* ===================================================================== *)
(** * Further properties: filling and resetting the form *)
(* ===================================================================== *)

Section FormSlots.
Variable slot : Criteria -> Z.

Let fill (fd : gmap string Z) (c : Criteria) : gmap string Z :=
  <[id c := slot c]> fd.

Lemma fill_untouched (cs : list Criteria) (fd : gmap string Z) (k : string) :
  ~ In k (map id cs) -> fold_left fill cs fd !! k = fd !! k.
Proof.
  revert fd. induction cs as [|c cs IH]; intros fd Hk; simpl; [reflexivity|].
  simpl in Hk. rewrite IH by tauto. unfold fill.
  apply lookup_insert_ne. tauto.
Qed.

Lemma fill_lookup (cs : list Criteria) (fd : gmap string Z) (c : Criteria) :
  NoDup (map id cs) -> In c cs -> fold_left fill cs fd !! id c = Some (slot c).
Proof.
  revert fd. induction cs as [|c0 cs IH]; intros fd Hnd Hc; [destruct Hc|].
  cbn [map] in Hnd. apply NoDup_cons in Hnd as [Hc0 Hnd].
  rewrite list_elem_of_In in Hc0. simpl.
  destruct Hc as [->|Hc]; [|now apply IH].
  rewrite fill_untouched by exact Hc0. apply lookup_insert_eq.
Qed.

Lemma fill_domain (cs : list Criteria) (fd : gmap string Z) (k : string) :
  is_Some (fold_left fill cs fd !! k) <-> In k (map id cs) \/ is_Some (fd !! k).
Proof.
  revert fd. induction cs as [|c cs IH]; intros fd; simpl; [tauto|].
  rewrite IH. unfold fill. rewrite lookup_insert.
  destruct (decide (id c = k)) as [->|Hne].
  - split; [intros _; now left; left|intros _; right; eauto].
  - split; [intros [H|H]; tauto|intros [[H|H]|H]; [congruence|tauto|tauto]].
Qed.
End FormSlots.

(** X6. When the criteria select succeeds, [fetchCriteria] shows no toast,
    keeps exactly the fetched criteria (rearranged) and gives the form
    exactly one slot per criterion id; with distinct ids each slot holds the
    criterion's initial value; the employees, the fetched scores and the
    selection stay.  When the select fails, it shows its error toast and
    the state stays as it was. *)
Theorem fetchCriteria_fills_form
        (localeCompare : string -> string -> Z) (st : EmployeeForm.State) :
  (forall message,
      EmployeeForm.fetchCriteria localeCompare (Supabase.Error message) st
      = ([("Error", "Gagal mengambil data kriteria")], st))
  /\ forall criteriaData,
      let result :=
        EmployeeForm.fetchCriteria localeCompare
          (Supabase.Data criteriaData) st in
      let st' := snd result in
      fst result = []
      /\ EmployeeForm.dbEmployees st' = EmployeeForm.dbEmployees st
      /\ EmployeeForm.evaluationScores st' = EmployeeForm.evaluationScores st
      /\ EmployeeForm.selectedEmployeeId st'
         = EmployeeForm.selectedEmployeeId st
      /\ Permutation criteriaData (EmployeeForm.criteria st')
      /\ (forall k, is_Some (EmployeeForm.formData st' !! k)
                    <-> In k (map id criteriaData))
      /\ (NoDup (map id criteriaData) ->
          forall c, In c criteriaData ->
                    EmployeeForm.formData st' !! id c
                    = Some (EmployeeForm.initialFormValue c)).
Proof.
  split; [reflexivity|]. intros criteriaData result st'.
  assert (Permutation criteriaData (sortedCriteria localeCompare criteriaData))
    as Hperm by apply sort_perm.
  do 4 (split; [reflexivity|]).
  split; [exact Hperm|]. split.
  - intros k. cbn. unfold EmployeeForm.newFormData.
    rewrite (fill_domain EmployeeForm.initialFormValue).
    rewrite lookup_empty. split.
    + intros [H|[x Hx]]; [|discriminate].
      eapply Permutation_in; [|exact H].
      apply Permutation_map. now symmetry.
    + intros H. left. eapply Permutation_in; [|exact H].
      now apply Permutation_map.
  - intros Hnd c Hc. cbn. unfold EmployeeForm.newFormData.
    apply (fill_lookup EmployeeForm.initialFormValue).
    + apply NoDup_ListNoDup.
      eapply Permutation_NoDup; [|apply NoDup_ListNoDup, Hnd].
      now apply Permutation_map.
    + eapply Permutation_in; [exact Hperm|exact Hc].
Qed.

Lemma fetchCriteria_fills_form_witness :
  let c1 := mkCriteria "A" "Kualitas Kerja" "Kinerja Inti" Benefit "1-5" in
  let c2 := mkCriteria "B" "Jumlah Hari Alpa" "Kedisiplinan" Cost "0-10" in
  let st := EmployeeForm.mkState [] [] [] "" ∅ in
  let st' :=
    snd (EmployeeForm.fetchCriteria lexicographic (Supabase.Data [c2; c1]) st) in
  EmployeeForm.formData st' !! "A" = Some 1
  /\ EmployeeForm.formData st' !! "B" = Some 0.
Proof.
  intros c1 c2 st st'.
  assert (NoDup (map id [c2; c1])) as Hnd
      by (apply (bool_decide_unpack _); vm_compute; exact I).
  destruct (proj2 (fetchCriteria_fills_form lexicographic st) [c2; c1])
    as (_ & _ & _ & _ & _ & _ & H).
  split.
  - exact (H Hnd c1 (or_intror (or_introl eq_refl))).
  - exact (H Hnd c2 (or_introl eq_refl)).
Defined.

(** X7. A form that was just filled submits the initial values: with
    distinct criterion ids and the form data produced by [fetchCriteria], the
    plan carries each criterion's initial value as its score. *)
Theorem initial_form_submits_initial_values
        (employeeId : string) (existing : list (string * string))
        (criteria : list Criteria) :
  NoDup (map id criteria) ->
  map Supabase.score
      (evaluationScoresData employeeId existing
         (EmployeeForm.formValue (EmployeeForm.newFormData criteria)) criteria)
  = map EmployeeForm.initialFormValue criteria.
Proof.
  intros Hnd. unfold evaluationScoresData. rewrite map_map.
  apply map_ext_in. intros c Hc. cbn. unfold EmployeeForm.formValue.
  unfold EmployeeForm.newFormData.
  rewrite (fill_lookup EmployeeForm.initialFormValue _ _ c Hnd Hc).
  apply num_or_same.
Qed.

Lemma initial_form_submits_initial_values_witness :
  let criteria :=
    [ mkCriteria "A" "Kualitas Kerja" "Kinerja Inti" Benefit "1-5";
      mkCriteria "B" "Jumlah Hari Alpa" "Kedisiplinan" Cost "0-10" ] in
  map Supabase.score
      (evaluationScoresData "E" []
         (EmployeeForm.formValue (EmployeeForm.newFormData criteria)) criteria)
  = [1; 0].
Proof.
  intros criteria.
  rewrite (initial_form_submits_initial_values "E" [] criteria).
  - reflexivity.
  - apply (bool_decide_unpack _); vm_compute; exact I.
Defined.

(** X8. The value a slot gets at initialisation and the value it gets at
    the reset after a save both lie between the [min] and [max] attributes
    of the criterion's input. *)
Theorem default_values_within_input_bounds (c : Criteria) :
  exists lo hi : Z,
    EmployeeForm.inputMin c = JS.toString lo
    /\ EmployeeForm.inputMax c = JS.toString hi
    /\ lo <= EmployeeForm.initialFormValue c <= hi
    /\ lo <= EmployeeForm.resetFormValue c <= hi.
Proof.
  unfold EmployeeForm.inputMin, EmployeeForm.inputMax,
    EmployeeForm.initialFormValue, EmployeeForm.resetFormValue.
  destruct (type c); destruct (JS.includes (scale c) "1-5");
    try destruct (JS.includes (scale c) "0-1" || JS.includes (scale c) "0/1");
    first [ solve [exists 1, 5; repeat split; first [reflexivity|lia]]
          | solve [exists 0, 1; repeat split; first [reflexivity|lia]]
          | solve [exists 0, 10; repeat split; first [reflexivity|lia]]
          | solve [exists 0, 5; repeat split; first [reflexivity|lia]] ].
Qed.

(** X9. The reset after a save and the initialisation give a criterion the
    same value except for a Benefit criterion whose scale is neither 1-5 nor
    binary: it is initialised with 1 and reset to 0. *)
Theorem reset_against_initial (c : Criteria) :
  let other_benefit :=
    match type c with
    | Benefit =>
        negb (JS.includes (scale c) "1-5")
        && negb (JS.includes (scale c) "0-1" || JS.includes (scale c) "0/1")
    | Cost => false
    end in
  (other_benefit = false ->
   EmployeeForm.resetFormValue c = EmployeeForm.initialFormValue c)
  /\ (other_benefit = true ->
      EmployeeForm.initialFormValue c = 1 /\ EmployeeForm.resetFormValue c = 0).
Proof.
  unfold EmployeeForm.initialFormValue, EmployeeForm.resetFormValue.
  destruct (type c); destruct (JS.includes (scale c) "1-5");
    try destruct (JS.includes (scale c) "0-1" || JS.includes (scale c) "0/1");
    cbn; split; intros; try discriminate; auto.
Qed.

Lemma reset_against_initial_witness :
  let c := mkCriteria "c20" "Kreativitas" "Lainnya" Benefit "1-10" in
  EmployeeForm.initialFormValue c = 1 /\ EmployeeForm.resetFormValue c = 0.
Proof.
  intros c. exact (proj2 (reset_against_initial c) eq_refl).
Defined.

(* ===================================================================== *)
(** * Further properties: how scales are read *)
(* ===================================================================== *)

Lemma prefix_app (sub post : string) : String.prefix sub (sub +:+ post) = true.
Proof.
  induction sub as [|a sub IH].
  - change ("" +:+ post) with post. destruct post; reflexivity.
  - change (String a sub +:+ post) with (String a (sub +:+ post)).
    cbn [String.prefix]. destruct (ascii_dec a a); [exact IH|congruence].
Qed.

Lemma includes_substring (pre sub post : string) :
  JS.includes (pre +:+ sub +:+ post) sub = true.
Proof.
  induction pre as [|a pre IH].
  - change (JS.includes (sub +:+ post) sub = true).
    destruct (sub +:+ post) eqn:E; cbn [JS.includes];
      rewrite <- E, prefix_app; reflexivity.
  - change (JS.includes (String a (pre +:+ sub +:+ post)) sub = true).
    cbn [JS.includes]. rewrite IH. apply orb_true_r.
Qed.

(** X10. Scales are read by substring.  A scale that contains "1-5"
    anywhere gets the input maximum 5, and a Benefit criterion with it the
    minimum 1 and the initial value 1; a scale that contains "0-1" anywhere
    and not "1-5" (such as "0-10") gets the input maximum 1, and a Benefit
    criterion with it the initial value 0. *)
Theorem scales_read_by_substring (c : Criteria) (pre post : string) :
  (scale c = pre +:+ "1-5" +:+ post ->
   EmployeeForm.inputMax c = "5"
   /\ (type c = Benefit ->
       EmployeeForm.inputMin c = "1" /\ EmployeeForm.initialFormValue c = 1))
  /\ (scale c = pre +:+ "0-1" +:+ post ->
      JS.includes (scale c) "1-5" = false ->
      EmployeeForm.inputMax c = "1"
      /\ (type c = Benefit -> EmployeeForm.initialFormValue c = 0)).
Proof.
  unfold EmployeeForm.inputMax, EmployeeForm.inputMin,
    EmployeeForm.initialFormValue.
  split.
  - intros E. rewrite E, includes_substring. now split; [|intros ->].
  - intros E H15. rewrite H15. rewrite E, includes_substring.
    now split; [|intros ->].
Qed.

Lemma scales_read_by_substring_witness :
  let c := mkCriteria "c7" "Jumlah Hari Alpa" "Kedisiplinan" Cost "0-10" in
  EmployeeForm.inputMax c = "1".
Proof.
  intros c.
  exact (proj1 (proj2 (scales_read_by_substring c "" "0") eq_refl eq_refl)).
Defined.

(* ===================================================================== *)
(** * Further properties: saving twice *)
(* ===================================================================== *)

Lemma upsert_rows_fixed fresh rows payload :
  (forall d, In d payload -> existsb (Supabase.conflicts d) rows = true) ->
  (forall d r, In d payload -> In r rows -> Supabase.conflicts d r = true ->
               Supabase.merged d r = r) ->
  Supabase.upsert_rows fresh rows payload = rows.
Proof.
  unfold Supabase.upsert_rows.
  induction payload as [|d payload IH]; intros Hex Hm; simpl; [reflexivity|].
  assert (Supabase.upsert_row fresh rows d = rows) as ->.
  { unfold Supabase.upsert_row. rewrite (Hex d (or_introl eq_refl)).
    rewrite <- (map_id rows) at 2. apply map_ext_in. intros r Hr.
    destruct (Supabase.conflicts d r) eqn:C; [|reflexivity].
    apply Hm; auto. now left. }
  apply IH; intros; [apply Hex|apply Hm]; auto; now right.
Qed.

(** The plan built against a table at one row per pair leaves every row of
    that table that already carries the plan's score as it is. *)
Lemma plan_merges_same_row (rows : list Supabase.ScoreRow)
      (employeeId : string) (formValue : Criteria -> option Z) (c : Criteria)
      (r : Supabase.ScoreRow) :
  one_row_per_pair rows -> In r rows ->
  pair_of r = (employeeId, id c) ->
  Supabase.es_score r = JS.num_or (formValue c) 0 ->
  Supabase.merged
    (scoreData employeeId
       (existingScoresMap (Supabase.existing_of employeeId rows)) formValue c)
    r = r.
Proof.
  intros Huniq Hr Hp Hs. unfold pair_of in Hp. injection Hp as He Hk.
  assert (JS.Map_get (existingScoresMap (Supabase.existing_of employeeId rows))
                     (id c) = Some (Supabase.es_id r)) as Hget.
  { unfold existingScoresMap. rewrite existingScoresMap_from. cbn [JS.Map_get].
    apply (last_identity_unique _ (id c) (Supabase.es_id r) None
             (existing_of_NoDup _ _ Huniq)).
    left. apply existing_of_In. exists r. auto. }
  unfold Supabase.merged, scoreData. cbn. rewrite Hget.
  destruct r as [i e k v]. cbn in *. f_equal; [|congruence].
  destruct (String.eqb i ""); reflexivity.
Qed.

Lemma resubmit_fixed fresh fresh' rows employeeId existing formValue criteria :
  one_row_per_pair rows ->
  NoDup (map id criteria) ->
  let once :=
    Supabase.upsert_rows fresh rows
      (evaluationScoresData employeeId existing formValue criteria) in
  Supabase.upsert_rows fresh' once
    (evaluationScoresData employeeId (Supabase.existing_of employeeId once)
                          formValue criteria)
  = once.
Proof.
  intros Huniq Hids once.
  assert (one_row_per_pair once) as Huniq' by now apply upsert_rows_unique.
  apply upsert_rows_fixed.
  - intros d Hd. apply conflict_exists.
    apply (in_map payload_pair) in Hd. rewrite plan_pairs in Hd.
    apply in_map_iff in Hd as (c & <- & Hc).
    change (employeeId, id c)
      with (payload_pair (scoreData employeeId (existingScoresMap existing)
                                    formValue c)).
    apply upsert_rows_covers. unfold evaluationScoresData. now apply in_map.
  - intros d r Hd Hr Hconf. unfold evaluationScoresData in Hd.
    apply in_map_iff in Hd as (c & <- & Hc).
    apply conflicts_pair in Hconf. cbn in Hconf.
    apply plan_merges_same_row; [exact Huniq'|exact Hr|exact Hconf|].
    apply upsert_rows_score in Hr as [(d1 & Hd1 & Hp1 & Hs1)|[Hout _]].
    + unfold evaluationScoresData in Hd1.
      apply in_map_iff in Hd1 as (c1 & <- & Hc1).
      rewrite Hconf in Hp1. cbn in Hp1. injection Hp1 as Hk.
      assert (c1 = c) as -> by (apply (NoDup_map_inj id criteria); congruence).
      exact Hs1.
    + exfalso. apply Hout. rewrite plan_pairs, Hconf.
      apply in_map_iff. exists c. auto.
    + rewrite plan_pairs. now apply NoDup_plan_pairs.
Qed.

(** X11. Saving is idempotent on the score table: in both components, with
    the table at one row per pair and distinct criterion ids, once a
    submission has been saved a second submission of the same state leaves
    the whole score table exactly as the first one left it. *)
Theorem second_save_changes_nothing :
  (forall (st : EmployeeForm.State) (s : Supabase.Server),
      one_row_per_pair (Supabase.evaluation_scores (Supabase.tables s)) ->
      NoDup (map id (EmployeeForm.criteria st)) ->
      let first := EmployeeForm.handleSubmit st s in
      let second := EmployeeForm.handleSubmit st (snd first) in
      handed_over (fst (fst first)) <> None ->
      Supabase.tables (snd second) = Supabase.tables (snd first))
  /\ (forall (st : EditEmployeeDialog.State) (s : Supabase.Server),
      one_row_per_pair (Supabase.evaluation_scores (Supabase.tables s)) ->
      NoDup (map id (EditEmployeeDialog.criteria st)) ->
      let first := EditEmployeeDialog.handleSubmit st s in
      let second := EditEmployeeDialog.handleSubmit st (snd first) in
      handed_over (fst first) <> None ->
      Supabase.tables (snd second) = Supabase.tables (snd first)).
Proof.
  split.
  - intros st s Huniq Hids first second Hsaved.
    destruct (form_submit_cases st s)
      as [[Hnone _]|(sel & _ & _ & _ & Ht1 & Hn1 & _)]; [contradiction|].
    fold first in Ht1, Hn1.
    destruct (form_submit_cases st (snd first))
      as [[_ Ht2]|(sel2 & _ & _ & _ & Ht2 & _)];
      fold second in Ht2; rewrite Ht2; [reflexivity|].
    unfold upserted, form_plan. rewrite !Ht1. unfold upserted, form_plan.
    cbn [Supabase.evaluation_scores Supabase.employees_table
         Supabase.criteria_table].
    f_equal. now apply resubmit_fixed.
  - intros st s Huniq Hids first second Hsaved.
    destruct (dialog_submit_cases st s)
      as [[Hnone _]|(e & He & _ & Ht1 & _)]; [contradiction|].
    fold first in Ht1.
    destruct (dialog_submit_cases st (snd first))
      as [[_ Ht2]|(e2 & He2 & _ & Ht2 & _)];
      fold second in Ht2; rewrite Ht2; [reflexivity|].
    assert (e2 = e) as -> by congruence.
    unfold upserted, dialog_plan. rewrite !Ht1. unfold upserted, dialog_plan.
    cbn [Supabase.evaluation_scores Supabase.employees_table
         Supabase.criteria_table].
    f_equal. now apply resubmit_fixed.
Qed.

Lemma second_save_changes_nothing_witness :
  let criteria :=
    [ mkCriteria "A" "Kualitas Kerja" "Kinerja Inti" Benefit "1-5";
      mkCriteria "B" "Jumlah Hari Alpa" "Kedisiplinan" Cost "0-10" ] in
  let s :=
    Supabase.mkServer
      (Supabase.mkDatabase [Supabase.mkDBEmployee "E" "Budi"] criteria
         [Supabase.mkScoreRow "s1" "E" "A" 3])
      (fun _ => false) (fun rows => "s2") [] in
  let st :=
    EmployeeForm.mkState [Supabase.mkDBEmployee "E" "Budi"] [] criteria "E"
                         {[ "A" := 4; "B" := 2 ]} in
  let first := EmployeeForm.handleSubmit st s in
  let second := EmployeeForm.handleSubmit st (snd first) in
  Supabase.evaluation_scores (Supabase.tables (snd first))
  = [ Supabase.mkScoreRow "s1" "E" "A" 4; Supabase.mkScoreRow "s2" "E" "B" 2 ]
  /\ Supabase.tables (snd second) = Supabase.tables (snd first).
Proof.
  intros criteria s st first second. split; [reflexivity|].
  apply (proj1 second_save_changes_nothing st s).
  - apply (bool_decide_unpack _); vm_compute; exact I.
  - apply (bool_decide_unpack _); vm_compute; exact I.
  - discriminate.
Defined.

(* ===================================================================== *)
(** * Further properties: grouping by category *)
(* ===================================================================== *)

Section Grouping.
Variable key : Criteria -> string.

Let members_of (k : string) (cs : list Criteria) : list Criteria :=
  List.filter (fun c => String.eqb (key c) k) cs.

Lemma group_push_thrown (cs : list Criteria) :
  fold_left (group_push key) cs None = None.
Proof. induction cs as [|c cs IH]; [reflexivity|exact IH]. Qed.

Lemma grouping_from (cs : list Criteria) (groups0 : gmap string (list Criteria)) :
  (forall c, In c cs -> JS.inherited (key c) = false) ->
  exists groups,
    fold_left (group_push key) cs (Some groups0) = Some groups
    /\ forall k, groups !! k
                 = match groups0 !! k, members_of k cs with
                   | Some l0, l => Some (l0 ++ l)%list
                   | None, [] => None
                   | None, l => Some l
                   end.
Proof.
  revert groups0. induction cs as [|c cs IH]; intros groups0 Hkeys.
  - exists groups0. split; [reflexivity|]. intros k. cbn.
    destruct (groups0 !! k); [now rewrite app_nil_r|reflexivity].
  - cbn [fold_left group_push].
    rewrite (Hkeys c (or_introl eq_refl)).
    assert (forall c', In c' cs -> JS.inherited (key c') = false) as Hkeys'
        by (intros; apply Hkeys; now right).
    destruct (groups0 !! key c) as [members|] eqn:G.
    + destruct (IH (<[key c := (members ++ [c])%list]> groups0) Hkeys')
        as (groups & Hfold & Hget).
      exists groups. split; [exact Hfold|]. intros k. rewrite Hget.
      unfold members_of. cbn [List.filter].
      destruct (String.eqb_spec (key c) k) as [<-|Hne].
      * rewrite lookup_insert_eq, G. now rewrite <- app_assoc.
      * now rewrite lookup_insert_ne.
    + destruct (IH (<[key c := [c]]> groups0) Hkeys')
        as (groups & Hfold & Hget).
      exists groups. split; [exact Hfold|]. intros k. rewrite Hget.
      unfold members_of. cbn [List.filter].
      destruct (String.eqb_spec (key c) k) as [<-|Hne].
      * rewrite lookup_insert_eq, G. reflexivity.
      * now rewrite lookup_insert_ne.
Qed.

Lemma grouping_throws (cs : list Criteria) (groups0 : gmap string (list Criteria))
      (c : Criteria) :
  In c cs -> JS.inherited (key c) = true -> groups0 !! key c = None ->
  fold_left (group_push key) cs (Some groups0) = None.
Proof.
  revert groups0. induction cs as [|c0 cs IH]; intros groups0 Hc Hinh Hnone;
    [destruct Hc|].
  cbn [fold_left group_push].
  destruct (String.eqb_spec (key c0) (key c)) as [E|Hne].
  - rewrite E, Hnone, Hinh. apply group_push_thrown.
  - destruct Hc as [->|Hc]; [congruence|].
    destruct (groups0 !! key c0) as [members|].
    + apply IH; [exact Hc|exact Hinh|]. now rewrite lookup_insert_ne.
    + destruct (JS.inherited (key c0)); [apply group_push_thrown|].
      apply IH; [exact Hc|exact Hinh|]. now rewrite lookup_insert_ne.
Qed.
End Grouping.

(** X12. Grouping criteria by a key: when no key is the name of a member
    inherited from [Object.prototype], every key of the input has a group
    that lists exactly the criteria with that key, in input order, and no
    other group exists; when some criterion's key is such a name (a category
    called "constructor", say), grouping throws.  The three components group
    their criteria by category in this way. *)
Theorem groupBy_groups (array : list Criteria) (key : Criteria -> string) :
  ((forall c, In c array -> JS.inherited (key c) = false) ->
   exists groups,
     CriteriaTable.groupBy array key = Some groups
     /\ forall k, groups !! k
                  = match List.filter (fun c => String.eqb (key c) k) array with
                    | [] => None
                    | members => Some members
                    end)
  /\ ((exists c, In c array /\ JS.inherited (key c) = true) ->
      CriteriaTable.groupBy array key = None)
  /\ CriteriaTable.groupedCriteria array = CriteriaTable.groupBy array category
  /\ (forall st : EmployeeForm.State,
        EmployeeForm.groupedCriteria st
        = CriteriaTable.groupBy (EmployeeForm.criteria st) category)
  /\ EditEmployeeDialog.groupedCriteria array
     = CriteriaTable.groupBy array category.
Proof.
  split; [|split; [|repeat split]].
  - intros Hkeys. destruct (grouping_from key array ∅ Hkeys)
      as (groups & Hfold & Hget).
    exists groups. split; [exact Hfold|]. intros k. rewrite Hget, lookup_empty.
    reflexivity.
  - intros (c & Hc & Hinh).
    apply (grouping_throws key array ∅ c Hc Hinh). apply lookup_empty.
Qed.

Lemma groupBy_groups_witness :
  let c1 := mkCriteria "A" "Kualitas Kerja" "Kinerja Inti" Benefit "1-5" in
  let c2 := mkCriteria "B" "Jumlah Hari Alpa" "Kedisiplinan" Cost "0-10" in
  let c3 := mkCriteria "C" "Inisiatif" "Kinerja Inti" Benefit "1-5" in
  let c4 := mkCriteria "D" "Lain" "constructor" Benefit "1-5" in
  (exists groups,
      CriteriaTable.groupBy [c1; c2; c3] category = Some groups
      /\ groups !! "Kinerja Inti" = Some [c1; c3])
  /\ CriteriaTable.groupBy [c1; c4] category = None.
Proof.
  intros c1 c2 c3 c4. split.
  - destruct (proj1 (groupBy_groups [c1; c2; c3] category))
      as (groups & Hg & Hget).
    + intros c [<-|[<-|[<-|[]]]]; reflexivity.
    + exists groups. split; [exact Hg|]. now rewrite Hget.
  - apply (proj1 (proj2 (groupBy_groups [c1; c4] category))).
    exists c4. split; [right; now left|reflexivity].
Defined.

(* ===================================================================== *)
(** * Further properties: who can still be evaluated *)
(* ===================================================================== *)

Lemma Set_from_from (l acc : list string) :
  fold_left (fun acc x => if existsb (String.eqb x) acc then acc
                          else (acc ++ [x])%list) l acc
  = (acc ++ List.filter (fun y => negb (existsb (String.eqb y) acc))
                        (first_seen l))%list.
Proof.
  revert acc. induction l as [|x l IH]; intros acc; cbn [fold_left].
  - cbn. now rewrite app_nil_r.
  - rewrite IH. cbn [first_seen List.filter]. rewrite filter_filter_and.
    destruct (existsb (String.eqb x) acc) eqn:H; cbn [negb].
    + f_equal. apply filter_ext. intros y.
      destruct (String.eqb_spec y x) as [->|Hne]; [now rewrite H|reflexivity].
    + rewrite <- app_assoc. cbn [app]. do 2 f_equal.
      apply filter_ext. intros y. rewrite existsb_app. cbn.
      now rewrite orb_false_r, negb_orb, andb_comm.
Qed.

Lemma Set_from_first_seen (l : list string) : JS.Set_from l = first_seen l.
Proof.
  unfold JS.Set_from. rewrite Set_from_from. cbn. now apply filter_all.
Qed.

Lemma tuples_ids_complete (scores : list Supabase.EvaluationScore) :
  Forall complete scores ->
  map t_employeeId (tuples scores)
  = map (fun sc => Supabase.es_employee_id (Supabase.row sc)) scores.
Proof.
  induction 1 as [|sc scores [[e He] [c Hc]] _ IH]; [reflexivity|].
  unfold tuples in *. cbn [omap list_omap map]. unfold tuple_of at 1.
  rewrite He, Hc. cbn. now rewrite IH.
Qed.

Lemma joined_complete (db : Supabase.Database) :
  Forall complete (Supabase.joined db).
Proof.
  unfold Supabase.joined. apply Forall_forall. intros sc.
  rewrite list_elem_of_In, in_flat_map. intros (r & _ & Hsc).
  destruct (find _ (Supabase.employees_table db)) as [e|]; [|destruct Hsc].
  destruct (find _ (Supabase.criteria_table db)) as [c|]; [|destruct Hsc].
  destruct Hsc as [<-|[]]. split; cbn; eauto.
Qed.

Lemma employeeMap_keys_first_seen (scores : list Supabase.EvaluationScore) :
  map fst (EmployeeForm.employeeMap scores)
  = first_seen (map t_employeeId (tuples scores)).
Proof.
  unfold EmployeeForm.employeeMap. rewrite employeeMap_from, employeeMap_keys.
  cbn. now apply filter_all.
Qed.

(** X13. When every fetched score comes with its employee and its criterion,
    as the rows of the joined select do, the evaluated employee ids are the
    keys of the projection, in the same order, and an employee of the
    directory is offered for evaluation exactly when the projection has no
    record for it. *)
Theorem available_iff_not_projected (st : EmployeeForm.State) :
  (forall db, Forall complete (Supabase.joined db))
  /\ (Forall complete (EmployeeForm.evaluationScores st) ->
      EmployeeForm.evaluatedEmployeeIds st
      = map fst (EmployeeForm.employeeMap (EmployeeForm.evaluationScores st))
      /\ forall emp,
          In emp (EmployeeForm.availableEmployees st)
          <-> In emp (EmployeeForm.dbEmployees st)
              /\ JS.Map_get
                   (EmployeeForm.employeeMap (EmployeeForm.evaluationScores st))
                   (Supabase.emp_id emp) = None).
Proof.
  split; [exact joined_complete|]. intros Hc.
  assert (EmployeeForm.evaluatedEmployeeIds st
          = map fst (EmployeeForm.employeeMap (EmployeeForm.evaluationScores st)))
    as E.
  { unfold EmployeeForm.evaluatedEmployeeIds.
    rewrite Set_from_first_seen, employeeMap_keys_first_seen.
    now rewrite tuples_ids_complete. }
  split; [exact E|]. intros emp. unfold EmployeeForm.availableEmployees.
  rewrite filter_In, E, negb_true_iff.
  pose proof (Map_has_keys
                (EmployeeForm.employeeMap (EmployeeForm.evaluationScores st))
                (Supabase.emp_id emp)) as K.
  pose proof (array_includes_In
                (map fst (EmployeeForm.employeeMap
                            (EmployeeForm.evaluationScores st)))
                (Supabase.emp_id emp)) as I.
  unfold JS.Map_has in K.
  destruct (JS.Map_get _ (Supabase.emp_id emp)) as [r|];
    destruct (JS.array_includes _ (Supabase.emp_id emp));
    intuition (try congruence; try discriminate).
Qed.

Lemma available_iff_not_projected_witness :
  let budi := Supabase.mkDBEmployee "E" "Budi" in
  let sari := Supabase.mkDBEmployee "F" "Sari" in
  let sc :=
    Supabase.mkEvaluationScore
      (Supabase.mkScoreRow "s1" "E" "c1" 4) (Some budi)
      (Some (mkCriteria "c1" "Kualitas Kerja" "Kinerja Inti" Benefit "1-5")) in
  let st := EmployeeForm.mkState [budi; sari] [sc] [] "" ∅ in
  EmployeeForm.availableEmployees st = [sari]
  /\ In sari (EmployeeForm.availableEmployees st).
Proof.
  intros budi sari sc st. split; [reflexivity|].
  assert (Forall complete (EmployeeForm.evaluationScores st)) as Hc.
  { repeat constructor; cbn; eauto. }
  apply (proj2 (proj2 (available_iff_not_projected st) Hc) sari).
  split; [right; now left|reflexivity].
Defined.


(* ===================================================================== *)
(** * Further properties: deleting an evaluation *)
(* ===================================================================== *)

Lemma delete_scores_In (employeeId : string) (rows : list Supabase.ScoreRow)
      (r : Supabase.ScoreRow) :
  In r (Supabase.delete_scores employeeId rows)
  <-> In r rows /\ Supabase.es_employee_id r <> employeeId.
Proof.
  unfold Supabase.delete_scores.
  now rewrite filter_In, negb_true_iff, String.eqb_neq.
Qed.

Lemma delete_scores_others (employeeId other : string)
      (rows : list Supabase.ScoreRow) :
  other <> employeeId ->
  rows_of other (Supabase.delete_scores employeeId rows) = rows_of other rows.
Proof.
  intros Hne. unfold rows_of, Supabase.delete_scores.
  rewrite filter_filter_and. apply filter_ext. intros r.
  destruct (String.eqb_spec (Supabase.es_employee_id r) other) as [->|_];
    [|now rewrite andb_false_r].
  destruct (String.eqb_spec other employeeId); [contradiction|reflexivity].
Qed.

Lemma delete_scores_unique (employeeId : string)
      (rows : list Supabase.ScoreRow) :
  one_row_per_pair rows ->
  one_row_per_pair (Supabase.delete_scores employeeId rows).
Proof.
  unfold one_row_per_pair, Supabase.delete_scores.
  induction rows as [|r rows IH]; cbn [map List.filter]; [auto|].
  intros [Hr Hnd]%NoDup_cons.
  destruct (negb _); [|now apply IH].
  cbn [map]. apply NoDup_cons. split; [|now apply IH].
  rewrite list_elem_of_In in *. intros (r' & E & [Hr' _]%filter_In)%in_map_iff.
  apply Hr. rewrite <- E. now apply in_map.
Qed.

Lemma tuples_joined_ids (db : Supabase.Database) (t : Tuple) :
  In t (tuples (Supabase.joined db)) ->
  exists r, In r (Supabase.evaluation_scores db)
            /\ Supabase.es_employee_id r = t_employeeId t.
Proof.
  rewrite tuples_joined. intros (r & Hr & Ht)%In_omap.
  exists r. split; [exact Hr|]. unfold tuple_of_row in Ht.
  destruct (find _ (Supabase.employees_table db)); [|discriminate].
  destruct (find _ (Supabase.criteria_table db)); [|discriminate].
  now injection Ht as <-.
Qed.

Lemma handleEmployeeDelete_done
      (employeeId : string) (st : EmployeeForm.State) (s : Supabase.Server) :
  Supabase.rejects s Supabase.SelectJoined = false ->
  let result := EmployeeForm.handleEmployeeDelete true false employeeId st s in
  let db' :=
    {| Supabase.employees_table := Supabase.employees_table (Supabase.tables s);
       Supabase.criteria_table := Supabase.criteria_table (Supabase.tables s);
       Supabase.evaluation_scores :=
         Supabase.delete_scores employeeId
           (Supabase.evaluation_scores (Supabase.tables s)) |} in
  Supabase.tables (snd result) = db'
  /\ EmployeeForm.evaluationScores (snd (fst result)) = Supabase.joined db'
  /\ EmployeeForm.dbEmployees (snd (fst result)) = EmployeeForm.dbEmployees st.
Proof.
  intros Hjoin. unfold EmployeeForm.handleEmployeeDelete,
    EmployeeForm.fetchEvaluationScores, Supabase.select_joined.
  cbn [negb Supabase.rejects Supabase.with_scores Supabase.received].
  rewrite Hjoin. cbn. auto.
Qed.

(** X14. [handleEmployeeDelete]: when the user declines, nothing happens;
    when the service rejects the delete, state and tables stay as they were
    and the failure toast is shown.  When the delete and the refresh that
    follows succeed, the employee has no score row left, the rows of every
    other employee are untouched, the table stays at one row per pair, the
    projection has no record for the employee, and the employee, if in the
    directory, is offered for evaluation again. *)
Theorem delete_returns_employee_to_pool
        (employeeId : string) (st : EmployeeForm.State) (s : Supabase.Server) :
  (forall rejected,
      EmployeeForm.handleEmployeeDelete false rejected employeeId st s
      = (([], st), s))
  /\ EmployeeForm.handleEmployeeDelete true true employeeId st s
     = (([("Error", "Gagal menghapus data evaluasi")], st), s)
  /\ (Supabase.rejects s Supabase.SelectJoined = false ->
      let result :=
        EmployeeForm.handleEmployeeDelete true false employeeId st s in
      let st' := snd (fst result) in
      let rows := Supabase.evaluation_scores (Supabase.tables s) in
      let rows' := Supabase.evaluation_scores (Supabase.tables (snd result)) in
      rows_of employeeId rows' = []
      /\ (forall other, other <> employeeId ->
                        rows_of other rows' = rows_of other rows)
      /\ (one_row_per_pair rows -> one_row_per_pair rows')
      /\ JS.Map_get
           (EmployeeForm.employeeMap (EmployeeForm.evaluationScores st'))
           employeeId = None
      /\ (forall emp, In emp (EmployeeForm.dbEmployees st) ->
                      Supabase.emp_id emp = employeeId ->
                      In emp (EmployeeForm.availableEmployees st'))).
Proof.
  split; [reflexivity|]. split; [reflexivity|].
  intros Hjoin result st' rows rows'.
  destruct (handleEmployeeDelete_done employeeId st s Hjoin)
    as (Ht & Hs & Hd).
  fold result in Ht, Hs, Hd. fold st' in Hs, Hd. fold rows in Ht.
  unfold rows'. rewrite Ht. cbn [Supabase.evaluation_scores].
  set (db' := {| Supabase.employees_table :=
                   Supabase.employees_table (Supabase.tables s);
                 Supabase.criteria_table :=
                   Supabase.criteria_table (Supabase.tables s);
                 Supabase.evaluation_scores :=
                   Supabase.delete_scores employeeId rows |}) in *.
  rewrite Hs.
  assert (JS.Map_get (EmployeeForm.employeeMap (Supabase.joined db'))
                     employeeId = None) as Hgone.
  { apply Map_get_absent. rewrite employeeMap_keys_first_seen, first_seen_In.
    intros (t & Hte & Hin)%in_map_iff.
    apply tuples_joined_ids in Hin as (r & Hr & He).
    apply delete_scores_In in Hr as [_ Hr]. congruence. }
  split; [|split; [|split; [|split]]].
  - unfold rows_of.
    destruct (List.filter _ _) as [|r l] eqn:F; [reflexivity|].
    assert (In r (r :: l)) as Hr by now left.
    rewrite <- F in Hr. apply filter_In in Hr as [Hr He%String.eqb_eq].
    apply delete_scores_In in Hr as [_ Hr]. contradiction.
  - intros other Hne. now apply delete_scores_others.
  - apply delete_scores_unique.
  - exact Hgone.
  - intros emp Hemp He.
    unfold EmployeeForm.availableEmployees. apply filter_In.
    rewrite Hd. split; [exact Hemp|]. apply negb_true_iff.
    destruct (JS.array_includes _ (Supabase.emp_id emp)) eqn:A; [|reflexivity].
    apply array_includes_In in A.
    unfold EmployeeForm.evaluatedEmployeeIds in A. rewrite Hs in A.
    rewrite Set_from_first_seen, first_seen_In in A.
    rewrite <- tuples_ids_complete in A by apply joined_complete.
    rewrite <- first_seen_In, <- employeeMap_keys_first_seen in A.
    apply Map_has_keys in A. unfold JS.Map_has in A.
    rewrite He in A. unfold db', rows in Hgone. now rewrite Hgone in A.
Qed.

Lemma delete_returns_employee_to_pool_witness :
  let budi := Supabase.mkDBEmployee "E" "Budi" in
  let c := mkCriteria "c1" "Kualitas Kerja" "Kinerja Inti" Benefit "1-5" in
  let s :=
    Supabase.mkServer
      (Supabase.mkDatabase [budi] [c]
         [Supabase.mkScoreRow "s1" "E" "c1" 4; Supabase.mkScoreRow "s2" "F" "c1" 2])
      (fun _ => false) (fun _ => "s3") [] in
  let st := EmployeeForm.mkState [budi] [] [c] "" ∅ in
  let result := EmployeeForm.handleEmployeeDelete true false "E" st s in
  Supabase.evaluation_scores (Supabase.tables (snd result))
  = [Supabase.mkScoreRow "s2" "F" "c1" 2]
  /\ In budi (EmployeeForm.availableEmployees (snd (fst result))).
Proof.
  intros budi c s st result. split; [reflexivity|].
  destruct (proj2 (proj2 (delete_returns_employee_to_pool "E" st s)) eq_refl)
    as (_ & _ & _ & _ & H).
  apply (H budi); [now left|reflexivity].
Defined.

(* ===================================================================== *)
(** * Further properties: the record handed over and the refreshed record *)
(* ===================================================================== *)

Lemma find_by_name (table cs : list Criteria) (c : Criteria) :
  NoDup (map property_of table) ->
  (forall c', In c' cs -> In c' table) -> In c cs ->
  find (fun c' => String.eqb (name c') (name c)) cs = Some c.
Proof.
  intros Hnd Hsub Hc.
  destruct (find (fun c' => String.eqb (name c') (name c)) cs) as [c'|] eqn:F.
  - apply find_some in F as [Hc' He%String.eqb_eq].
    f_equal. apply (NoDup_map_inj property_of table); auto.
    unfold property_of. now rewrite He.
  - exfalso. pose proof (find_none _ _ F c Hc) as H. simpl in H.
    now rewrite String.eqb_refl in H.
Qed.

Lemma newEmployee_proto (sel : Supabase.DBEmployee) (criteria : list Criteria)
      (formData : gmap string Z) :
  EmployeeForm.newEmployee sel criteria formData !! "__proto__" = None.
Proof.
  unfold EmployeeForm.newEmployee.
  match goal with
  | |- fold_left ?f criteria ?o !! _ = None =>
      assert (o !! "__proto__" = None) as Ho;
      [|revert Ho; generalize o]
  end.
  - apply object_of_absent. cbn.
    intros H. repeat (destruct H as [H|H]; [discriminate H|]). exact H.
  - induction criteria as [|c l IH]; intros o Ho; cbn [fold_left];
      [exact Ho|].
    apply IH. destruct (negb _); [|exact Ho].
    now rewrite assign_lookup_proto.
Qed.

Lemma num_or_nonzero (v : option Z) (d : Z) :
  JS.num_or v 0 <> 0 -> JS.num_or v d = JS.num_or v 0.
Proof.
  unfold JS.num_or. destruct v as [n|]; [|congruence].
  destruct (n =? 0); congruence.
Qed.

Lemma num_or_zero (v : option Z) (d : Z) :
  JS.num_or v 0 = 0 -> JS.num_or v d = d.
Proof.
  unfold JS.num_or. destruct v as [n|]; [|reflexivity].
  destruct (Z.eqb_spec n 0); congruence.
Qed.

Lemma legacy_slot_of (n : string) :
  In n CANONICAL_CRITERIA_ORDER ->
  exists p d, In (n, (p, d)) LEGACY_SLOTS
              /\ (In n (firstn 6 CANONICAL_CRITERIA_ORDER) -> d = 1)
              /\ (~ In n (firstn 6 CANONICAL_CRITERIA_ORDER) -> d = 0).
Proof.
  rewrite <- LEGACY_SLOTS_names.
  intros ([n' [p d]] & <- & Hslot)%in_map_iff. exists p, d.
  split; [exact Hslot|]. simpl in Hslot.
  repeat (destruct Hslot as [[= <- <- <-]|Hslot];
          [split; [reflexivity|];
           intros H; exfalso; apply H; vm_compute; tauto|]).
  repeat (destruct Hslot as [[= <- <- <-]|Hslot];
          [split; [|reflexivity];
           vm_compute; intros H;
           repeat (destruct H as [H|H]; [discriminate H|]); destruct H|]).
  destruct Hslot.
Qed.

(** X15. After a saved submission and the refresh that follows it, when
    the form holds at least one criterion, every criterion of the form is a
    row of the criteria table, the table's
    criteria have distinct ids and distinct receiving properties, the
    form's criteria have distinct ids and the employee is in the employees
    table: the record handed over and the record the refresh projects for
    the employee agree on the property of every criterion of the form that
    was submitted with a non-zero value, and on the property of every
    criterion of the form outside the six core performance criteria.  For a
    core criterion submitted with 0 or without a value they differ: the
    record handed over holds 1, the projected record 0.  A legacy property
    that is written neither by a criterion of the form nor by an earlier
    score of the employee is the same in both, provided the form data has
    no value under the empty key. *)
Theorem handed_over_against_refresh
        (st : EmployeeForm.State) (s : Supabase.Server) (saved : Employee)
        (employeeRow : Supabase.DBEmployee) (c0 : Criteria) :
  let employeeId := EmployeeForm.selectedEmployeeId st in
  let result := EmployeeForm.handleSubmit st s in
  let st' := snd (fst result) in
  let table := Supabase.criteria_table (Supabase.tables s) in
  let submitted c := JS.num_or (EmployeeForm.formData st !! id c) 0 in
  handed_over (fst (fst result)) = Some saved ->
  Supabase.rejects s Supabase.SelectJoined = false ->
  (forall c, In c (EmployeeForm.criteria st) -> In c table) ->
  find (fun e => String.eqb (Supabase.emp_id e) employeeId)
       (Supabase.employees_table (Supabase.tables s)) = Some employeeRow ->
  NoDup (map id table) ->
  NoDup (map id (EmployeeForm.criteria st)) ->
  NoDup (map property_of table) ->
  In c0 (EmployeeForm.criteria st) ->
  exists record,
    JS.Map_get (EmployeeForm.employeeMap (EmployeeForm.evaluationScores st'))
               employeeId = Some record
    /\ (forall c, In c (EmployeeForm.criteria st) ->
          submitted c <> 0 ->
          saved !! property_of c = record !! property_of c)
    /\ (forall c, In c (EmployeeForm.criteria st) ->
          ~ In (name c) (firstn 6 CANONICAL_CRITERIA_ORDER) ->
          saved !! property_of c = record !! property_of c)
    /\ (forall c, In c (EmployeeForm.criteria st) ->
          In (name c) (firstn 6 CANONICAL_CRITERIA_ORDER) ->
          submitted c = 0 ->
          saved !! property_of c = Some (JS.JNum 1)
          /\ record !! property_of c = Some (JS.JNum 0))
    /\ (EmployeeForm.formData st !! "" = None ->
        forall n p d, In (n, (p, d)) LEGACY_SLOTS ->
          (forall c, In c (EmployeeForm.criteria st) -> property_of c <> p) ->
          (forall n', earlier_score s employeeId n' ->
                      EmployeeForm.employeeField n' <> p) ->
          saved !! p = record !! p).
Proof.
  intros employeeId result st' table submitted Hsaved Hjoin Hcrit Hemp Hids
         Hfids Hprops Hc0.
  subst result st' table.
  destruct (form_submit_cases st s)
    as [[Hnone _]|(sel & _ & _ & He & _ & _ & _ & _ & Hscores)];
    [congruence|].
  rewrite He in Hsaved. injection Hsaved as <-.
  rewrite (Hscores Hjoin). unfold form_plan. fold employeeId.
  destruct (record_after_upsert s employeeId
              (Supabase.existing_of employeeId
                 (Supabase.evaluation_scores (Supabase.tables s)))
              (EmployeeForm.formValue (EmployeeForm.formData st))
              (EmployeeForm.criteria st) employeeRow Hcrit Hemp Hids Hfids
              Hprops c0 Hc0) as (record & Hrec & Hvals & Hdefaults).
  exists record. split.
  { unfold EmployeeForm.employeeMap. rewrite employeeMap_from, employeeMap_get.
    exact Hrec. }
  assert (record !! "__proto__" = None) as Hrproto.
  { now apply (record_from_proto employeeId _ None record) in Hrec. }
  assert (forall c c', In c (EmployeeForm.criteria st) ->
                       In c' (EmployeeForm.criteria st) ->
                       property_of c' = property_of c -> c' = c) as Hinj.
  { intros c c' Hc Hc' E.
    apply (NoDup_map_inj property_of
             (Supabase.criteria_table (Supabase.tables s))); auto. }
  assert (forall c n p d,
             In c (EmployeeForm.criteria st) -> name c = n ->
             In (n, (p, d)) LEGACY_SLOTS ->
             property_of c = p /\ name c <> "__proto__"
             /\ EmployeeForm.newEmployee sel (EmployeeForm.criteria st)
                  (EmployeeForm.formData st) !! p
                = Some (JS.JNum (JS.num_or (EmployeeForm.formData st !! id c) d)))
    as Hlegacy.
  { intros c n p d Hc Hn Hslot.
    assert (property_of c = p) as Hp
        by (unfold property_of; rewrite Hn; now apply employeeField_slot with d).
    assert (In (name c) CANONICAL_CRITERIA_ORDER) as Hin.
    { rewrite Hn, <- LEGACY_SLOTS_names.
      apply (in_map fst) in Hslot. exact Hslot. }
    split; [exact Hp|]. split.
    { intros E. rewrite E in Hin. cbn in Hin.
      repeat (destruct Hin as [Hin|Hin]; [discriminate Hin|]). exact Hin. }
    rewrite (newEmployee_slot sel _ _ n p d Hslot).
    - f_equal. f_equal. apply legacyValue_found. rewrite <- Hn.
      now apply (find_by_name (Supabase.criteria_table (Supabase.tables s))).
    - intros c' Hc' Hout Hname.
      assert (c' = c) as ->.
      { apply Hinj; try assumption.
        rewrite Hp. unfold property_of. rewrite employeeField_other; [exact Hname|].
        rewrite <- array_includes_In. now rewrite Hout. }
      apply array_includes_In in Hin. congruence. }
  assert (forall c,
             In c (EmployeeForm.criteria st) ->
             ~ In (name c) CANONICAL_CRITERIA_ORDER ->
             EmployeeForm.newEmployee sel (EmployeeForm.criteria st)
               (EmployeeForm.formData st) !! property_of c
             = record !! property_of c)
    as Hdynamic.
  { intros c Hc Hout.
    destruct (string_dec (name c) "__proto__") as [Hproto|Hproto].
    { unfold property_of. rewrite employeeField_other by exact Hout.
      now rewrite Hproto, newEmployee_proto, Hrproto. }
    rewrite (Hvals c Hc Hproto).
    unfold property_of. rewrite employeeField_other by exact Hout.
    unfold EmployeeForm.newEmployee. apply newEmployee_dynamic_written.
    - exact Hc.
    - destruct (JS.array_includes _ (name c)) eqn:A; [|reflexivity].
      apply array_includes_In in A. contradiction.
    - exact Hproto.
    - intros c' Hc' Hname. apply Hinj; try assumption.
      unfold property_of. now rewrite Hname. }
  assert (forall c, EmployeeForm.formValue (EmployeeForm.formData st) c
                    = EmployeeForm.formData st !! id c) as Hfv by reflexivity.
  split; [|split; [|split]].
  - intros c Hc Hv.
    destruct (in_dec string_dec (name c) CANONICAL_CRITERIA_ORDER) as [Hin|Hout].
    + destruct (legacy_slot_of _ Hin) as (p & d & Hslot & _).
      destruct (Hlegacy c _ p d Hc eq_refl Hslot) as (Hp & Hproto & Hsaved).
      rewrite (Hvals c Hc Hproto), Hfv, Hp, Hsaved.
      now rewrite num_or_nonzero.
    + now apply Hdynamic.
  - intros c Hc Hcore.
    destruct (in_dec string_dec (name c) CANONICAL_CRITERIA_ORDER) as [Hin|Hout].
    + destruct (legacy_slot_of _ Hin) as (p & d & Hslot & _ & Hd).
      destruct (Hlegacy c _ p d Hc eq_refl Hslot) as (Hp & Hproto & Hsaved).
      rewrite (Hvals c Hc Hproto), Hfv, Hp, Hsaved.
      now rewrite (Hd Hcore).
    + now apply Hdynamic.
  - intros c Hc Hcore Hv.
    assert (In (name c) CANONICAL_CRITERIA_ORDER) as Hin.
    { rewrite <- (firstn_skipn 6 CANONICAL_CRITERIA_ORDER).
      apply in_or_app. now left. }
    destruct (legacy_slot_of _ Hin) as (p & d & Hslot & Hd & _).
    destruct (Hlegacy c _ p d Hc eq_refl Hslot) as (Hp & Hproto & Hsaved).
    rewrite (Hvals c Hc Hproto), Hfv, Hp, Hsaved.
    fold (submitted c). rewrite Hv. split; [|reflexivity].
    rewrite num_or_zero by exact Hv. now rewrite (Hd Hcore).
  - intros Hempty n p d Hslot Hp Hearlier.
    rewrite (Hdefaults n p d Hslot Hp Hearlier).
    rewrite (newEmployee_slot sel _ _ n p d Hslot).
    + unfold EmployeeForm.legacyValue.
      destruct (find _ (EmployeeForm.criteria st)) as [c|] eqn:F.
      * exfalso. apply find_some in F as [Hc Hn%String.eqb_eq].
        apply (Hp c Hc).
        unfold property_of. rewrite Hn. now apply employeeField_slot with d.
      * now rewrite Hempty.
    + intros c' Hc' Hout Hname. apply (Hp c' Hc'). unfold property_of.
      rewrite employeeField_other; [exact Hname|].
      rewrite <- array_includes_In. now rewrite Hout.
Qed.

Lemma handed_over_against_refresh_witness :
  let cA := mkCriteria "A" "Kualitas Kerja" "Kinerja Inti" Benefit "1-5" in
  let cB := mkCriteria "B" "Jumlah Hari Alpa" "Kedisiplinan" Cost "0-10" in
  let cC := mkCriteria "C" "Kehadiran Rapat" "Tambahan" Benefit "1-5" in
  let sel := Supabase.mkDBEmployee "E" "Budi" in
  let s :=
    Supabase.mkServer (Supabase.mkDatabase [sel] [cC; cB; cA] [])
                      (fun _ => false) (fun _ => "s1") [] in
  let formData : gmap string Z := {[ "A" := 0; "B" := 2; "C" := 3 ]} in
  let st := EmployeeForm.mkState [sel] [] [cA; cB; cC] "E" formData in
  let st' := snd (fst (EmployeeForm.handleSubmit st s)) in
  let saved := EmployeeForm.newEmployee sel [cA; cB; cC] formData in
  exists record,
    JS.Map_get (EmployeeForm.employeeMap (EmployeeForm.evaluationScores st'))
               "E" = Some record
    /\ saved !! "hariAlpa" = record !! "hariAlpa"
    /\ saved !! "Kehadiran Rapat" = record !! "Kehadiran Rapat"
    /\ saved !! "kualitasKerja" = Some (JS.JNum 1)
    /\ record !! "kualitasKerja" = Some (JS.JNum 0)
    /\ saved !! "prestasi" = record !! "prestasi".
Proof.
  intros cA cB cC sel s formData st st' saved.
  assert (NoDup (map id [cC; cB; cA])) as Hids
      by (apply (bool_decide_unpack _); vm_compute; exact I).
  assert (NoDup (map id [cA; cB; cC])) as Hfids
      by (apply (bool_decide_unpack _); vm_compute; exact I).
  assert (NoDup (map property_of [cC; cB; cA])) as Hprops
      by (apply (bool_decide_unpack _); vm_compute; exact I).
  assert (forall c, In c [cA; cB; cC] -> In c [cC; cB; cA]) as Hknown.
  { intros c [<-|[<-|[<-|[]]]];
      [do 2 right; now left|right; now left|now left]. }
  destruct (handed_over_against_refresh st s saved sel cA
              eq_refl eq_refl Hknown eq_refl Hids Hfids Hprops
              (or_introl eq_refl))
    as (record & Hget & Hnonzero & Hother & Hcore & Hunwritten).
  exists record. split; [exact Hget|].
  split; [apply (Hnonzero cB); [right; left; reflexivity|discriminate]|].
  split.
  { apply (Hother cC); [do 2 right; left; reflexivity|].
    vm_compute. intros H.
    repeat (destruct H as [H|H]; [discriminate H|]). exact H. }
  destruct (Hcore cA) as [H1 H0];
    [left; reflexivity|left; reflexivity|reflexivity|].
  split; [exact H1|]. split; [exact H0|].
  apply (Hunwritten eq_refl "Prestasi" "prestasi" 0).
  - do 11 right. left. reflexivity.
  - intros c [<-|[<-|[<-|[]]]]; discriminate.
  - intros n' (r & _ & [] & _).
Defined.

(* ===================================================================== *)
(** * Further properties: the paths of the submit handlers *)
(* ===================================================================== *)

Lemma longer_list {A : Type} (l added : list A) :
  added <> [] -> (l ++ added)%list <> l.
Proof.
  intros Hne E. apply (f_equal (@length A)) in E. rewrite length_app in E.
  destruct added; [congruence|]. simpl in E. lia.
Qed.

(** X16. The evaluation form sends a request exactly when an employee is
    selected and found among the loaded employees; otherwise it shows the
    toast of the failed check and leaves state and service as they are.
    The edit dialog sends a request exactly when it has an employee;
    without one it ends without any toast. *)
Theorem submit_guards :
  (forall (st : EmployeeForm.State) (s : Supabase.Server),
      let result := EmployeeForm.handleSubmit st s in
      let selected :=
        find (fun emp => String.eqb (Supabase.emp_id emp)
                                    (EmployeeForm.selectedEmployeeId st))
             (EmployeeForm.dbEmployees st) in
      (Supabase.requests (snd result) = Supabase.requests s
       <-> EmployeeForm.selectedEmployeeId st = "" \/ selected = None)
      /\ (EmployeeForm.selectedEmployeeId st = "" ->
          result = ((failure "Silakan pilih karyawan terlebih dahulu", st), s))
      /\ (EmployeeForm.selectedEmployeeId st <> "" -> selected = None ->
          result = ((failure "Karyawan yang dipilih tidak ditemukan", st), s)))
  /\ (forall (st : EditEmployeeDialog.State) (s : Supabase.Server),
      let result := EditEmployeeDialog.handleSubmit st s in
      (Supabase.requests (snd result) = Supabase.requests s
       <-> EditEmployeeDialog.employee st = None)
      /\ (EditEmployeeDialog.employee st = None ->
          result = ({| toasts := []; handed_over := None |}, s))).
Proof.
  split.
  - intros st s result selected. subst result selected.
    unfold EmployeeForm.handleSubmit.
    destruct (String.eqb_spec (EmployeeForm.selectedEmployeeId st) "")
      as [He|He].
    { split; [tauto|]. split; [reflexivity|contradiction]. }
    destruct (find _ (EmployeeForm.dbEmployees st)) as [sel|] eqn:Hsel.
    2:{ split; [tauto|]. split; [contradiction|reflexivity]. }
    split; [|split; [contradiction|discriminate]].
    split; [|intros [H|H]; [contradiction|discriminate]].
    intros E. exfalso. revert E.
    unfold try_catch, bind, await_or_throw, Supabase.select_existing.
    destruct (Supabase.rejects s (Supabase.SelectExisting _)).
    { cbn. apply longer_list. discriminate. }
    unfold Supabase.upsert. cbn [Supabase.rejects Supabase.received].
    destruct (Supabase.rejects s (Supabase.Upsert _)).
    { cbn. rewrite <- app_assoc. apply longer_list. discriminate. }
    unfold EmployeeForm.fetchEvaluationScores, Supabase.select_joined.
    cbn [Supabase.rejects Supabase.received Supabase.with_scores].
    destruct (Supabase.rejects s Supabase.SelectJoined); cbn;
      rewrite <- !app_assoc; apply longer_list; discriminate.
  - intros st s result. subst result. unfold EditEmployeeDialog.handleSubmit.
    destruct (EditEmployeeDialog.employee st) as [employee|];
      [|split; [tauto|reflexivity]].
    split; [|discriminate]. split; [|discriminate].
    intros E. exfalso. revert E.
    unfold try_catch, bind, await_or_throw, Supabase.select_existing.
    destruct (Supabase.rejects s (Supabase.SelectExisting _)).
    { cbn. apply longer_list. discriminate. }
    unfold Supabase.upsert. cbn [Supabase.rejects Supabase.received].
    destruct (Supabase.rejects s (Supabase.Upsert _));
      cbn; rewrite <- app_assoc; apply longer_list; discriminate.
Qed.

Lemma submit_guards_witness :
  let sel := Supabase.mkDBEmployee "E" "Budi" in
  let s :=
    Supabase.mkServer (Supabase.mkDatabase [sel] [] [])
                      (fun _ => false) (fun _ => "s1") [] in
  let st := EmployeeForm.mkState [sel] [] [] "F" ∅ in
  EmployeeForm.handleSubmit st s
  = ((failure "Karyawan yang dipilih tidak ditemukan", st), s).
Proof.
  intros sel s st.
  apply (proj2 (proj2 (proj1 submit_guards st s))); [discriminate|reflexivity].
Defined.

(** X17. A refresh that fails after a successful save does not undo the
    save: the form shows its success toast followed by the toast of the
    failed refresh, hands the new record over, is reset, and the tables hold
    the upserted plan; only the fetched scores, and with them the list of
    employees offered for evaluation, stay as they were before the save. *)
Theorem save_outlives_failed_refresh
        (st : EmployeeForm.State) (s : Supabase.Server)
        (selectedEmployee : Supabase.DBEmployee) :
  let employeeId := EmployeeForm.selectedEmployeeId st in
  let result := EmployeeForm.handleSubmit st s in
  let st' := snd (fst result) in
  employeeId <> "" ->
  find (fun emp => String.eqb (Supabase.emp_id emp) employeeId)
       (EmployeeForm.dbEmployees st) = Some selectedEmployee ->
  Supabase.rejects s (Supabase.SelectExisting employeeId) = false ->
  Supabase.rejects s (Supabase.Upsert (form_plan st s)) = false ->
  Supabase.rejects s Supabase.SelectJoined = true ->
  toasts (fst (fst result))
  = [ ("Berhasil",
       "Data evaluasi karyawan berhasil disimpan dengan struktur fleksibel dan terorganisir");
      ("Error", "Gagal mengambil data evaluasi dari database") ]
  /\ handed_over (fst (fst result))
     = Some (EmployeeForm.newEmployee selectedEmployee
               (EmployeeForm.criteria st) (EmployeeForm.formData st))
  /\ Supabase.tables (snd result) = upserted s (form_plan st s)
  /\ Supabase.requests (snd result)
     = (Supabase.requests s
          ++ [ Supabase.SelectExisting employeeId;
               Supabase.Upsert (form_plan st s);
               Supabase.SelectJoined ])%list
  /\ EmployeeForm.selectedEmployeeId st' = ""
  /\ EmployeeForm.formData st'
     = EmployeeForm.defaultFormData (EmployeeForm.criteria st)
  /\ EmployeeForm.evaluationScores st' = EmployeeForm.evaluationScores st
  /\ EmployeeForm.availableEmployees st' = EmployeeForm.availableEmployees st.
Proof.
  intros employeeId result st' He Hsel R1 R2 R3. subst result st'.
  unfold EmployeeForm.handleSubmit. fold employeeId.
  destruct (String.eqb_spec employeeId "") as [E|_]; [contradiction|].
  rewrite Hsel.
  unfold try_catch, bind, await_or_throw, Supabase.select_existing.
  rewrite R1.
  unfold Supabase.upsert. cbn [Supabase.rejects Supabase.received].
  change (evaluationScoresData employeeId
            (Supabase.existing_of employeeId
               (Supabase.evaluation_scores (Supabase.tables s)))
            (EmployeeForm.formValue (EmployeeForm.formData st))
            (EmployeeForm.criteria st)) with (form_plan st s).
  rewrite R2.
  unfold EmployeeForm.fetchEvaluationScores, Supabase.select_joined.
  cbn [Supabase.rejects Supabase.received Supabase.with_scores].
  rewrite R3. cbn. rewrite <- !app_assoc. repeat split.
Qed.

Lemma save_outlives_failed_refresh_witness :
  let c := mkCriteria "c1" "Kualitas Kerja" "Kinerja Inti" Benefit "1-5" in
  let sel := Supabase.mkDBEmployee "E" "Budi" in
  let s :=
    Supabase.mkServer
      (Supabase.mkDatabase [sel] [c] [])
      (fun r => match r with Supabase.SelectJoined => true | _ => false end)
      (fun _ => "s1") [] in
  let st := EmployeeForm.mkState [sel] [] [c] "E" {[ "c1" := 4 ]} in
  let result := EmployeeForm.handleSubmit st s in
  Supabase.evaluation_scores (Supabase.tables (snd result))
  = [Supabase.mkScoreRow "s1" "E" "c1" 4]
  /\ In sel (EmployeeForm.availableEmployees (snd (fst result))).
Proof.
  intros c sel s st result.
  destruct (save_outlives_failed_refresh st s sel)
    as (_ & _ & Ht & _ & _ & _ & _ & Ha);
    [discriminate|reflexivity|reflexivity|reflexivity|reflexivity|].
  fold result in Ht, Ha. rewrite Ht, Ha. split; [reflexivity|].
  left. reflexivity.
Defined.

(* ===================================================================== *)
(** * Further properties: the edit dialog and the projected record *)
(* ===================================================================== *)

Lemma initialEmployee_absent (employeeId employeeName k : string) :
  ~ In k initial_properties ->
  EmployeeForm.initialEmployee employeeId employeeName !! k = None.
Proof.
  intros Hk. unfold EmployeeForm.initialEmployee. apply object_of_absent.
  cbn [map fst]. rewrite map_map. exact Hk.
Qed.

Lemma record_from_unwritten (e k : string) (ts : list Tuple)
      (o : option Employee) (r : Employee) :
  ~ In k initial_properties ->
  (forall t, In t ts -> t_employeeId t = e -> written_field t <> k) ->
  (forall r0, o = Some r0 -> r0 !! k = None) ->
  record_from o e ts = Some r -> r !! k = None.
Proof.
  intros Hk. revert o. induction ts as [|t ts IH]; intros o Hw Ho Hr.
  - now apply Ho.
  - unfold record_from in Hr. cbn [fold_left] in Hr.
    eapply IH; [intros; apply Hw; [now right|assumption]| |exact Hr].
    destruct (String.eqb_spec (t_employeeId t) e) as [He|He]; [|exact Ho].
    intros r0 [= <-]. unfold write_tuple.
    rewrite assign_lookup_ne by (apply Hw; [now left|exact He]).
    destruct o as [r1|]; cbn [default]; [now apply Ho|].
    now apply initialEmployee_absent.
Qed.

Lemma newFormData_slot (memberKey : string -> string) (employee : Employee)
      (criteria : list Criteria) (fd : gmap string JS.found) (c : Criteria) :
  In c criteria ->
  fold_left
    (fun fd criterion =>
       let formFieldName := EditEmployeeDialog.createFieldName (name criterion) in
       let employeeFieldName :=
         EditEmployeeDialog.createEmployeeFieldMapping (name criterion) in
       let value :=
         JS.found_or
           (JS.get employee (JS.property_key memberKey employeeFieldName))
           (JS.Own (JS.JNum 0)) in
       <[formFieldName := value]> fd)
    criteria fd !! EditEmployeeDialog.createFieldName (name c)
  = Some (JS.found_or
            (JS.get employee
               (JS.property_key memberKey
                  (EditEmployeeDialog.createEmployeeFieldMapping (name c))))
            (JS.Own (JS.JNum 0))).
Proof.
  induction criteria as [|x l IH] using rev_ind; [intros []|].
  intros Hc. rewrite fold_left_app. cbn [fold_left].
  destruct (String.eqb_spec (EditEmployeeDialog.createFieldName (name x))
                            (EditEmployeeDialog.createFieldName (name c)))
    as [E|E].
  - cbv zeta. rewrite E, lookup_insert_eq.
    unfold EditEmployeeDialog.createEmployeeFieldMapping. now rewrite E.
  - cbv zeta. rewrite lookup_insert_ne by exact E. apply IH.
    apply in_app_or in Hc as [Hc|[->|[]]]; [exact Hc|contradiction].
Qed.

(** X18. The effect that fills the edit dialog gives the slot of every
    criterion what reading the employee's property named by the employee
    field mapping finds, or 0 when that is missing, 0 or empty; criteria
    with the same field name get the same value.  Read on a projected
    record, a criterion whose mapped property is none of the properties a
    record starts with, no name inherited from [Object.prototype], and the
    name of no criterion among the employee's scores is initialised with 0,
    whatever score the employee has for it: the projection files an
    extension score under the criterion's name, the dialog reads it under
    the field name. *)
Theorem dialog_reads_mapped_property
        (memberKey : string -> string)
        (employee : Employee) (criteria : list Criteria) (c : Criteria) :
  let slot := EditEmployeeDialog.createFieldName (name c) in
  let property :=
    JS.property_key memberKey
      (EditEmployeeDialog.createEmployeeFieldMapping (name c)) in
  let form := EditEmployeeDialog.newFormData memberKey employee criteria in
  In c criteria ->
  (forall f, JS.get employee property = Some f ->
             JS.truthy_found (Some f) = true ->
             form !! slot = Some f)
  /\ (JS.truthy_found (JS.get employee property) = false ->
      form !! slot = Some (JS.Own (JS.JNum 0)))
  /\ (forall (e : string) (ts : list Tuple),
        record_from None e ts = Some employee ->
        ~ In property initial_properties ->
        JS.inherited property = false ->
        (forall t, In t ts -> t_employeeId t = e ->
                   t_criterionName t <> property) ->
        form !! slot = Some (JS.Own (JS.JNum 0))).
Proof.
  intros slot property form Hc.
  assert (form !! slot
          = Some (JS.found_or (JS.get employee property) (JS.Own (JS.JNum 0))))
    as Hslot by (now apply newFormData_slot).
  assert (JS.truthy_found (JS.get employee property) = false ->
          form !! slot = Some (JS.Own (JS.JNum 0))) as Hfalsy.
  { intros Hf. rewrite Hslot. unfold JS.found_or.
    destruct (JS.get employee property); [now rewrite Hf|reflexivity]. }
  split; [|split; [exact Hfalsy|]].
  - intros f Hf Ht. rewrite Hslot, Hf. unfold JS.found_or. now rewrite Ht.
  - intros e ts Hrec Hinit Hinherited Hnames. apply Hfalsy.
    unfold JS.get.
    rewrite (record_from_unwritten e property ts None employee Hinit);
      [now rewrite Hinherited| |discriminate|exact Hrec].
    intros t Ht He Hw. unfold written_field in Hw.
    destruct (in_dec string_dec (t_criterionName t) CANONICAL_CRITERIA_ORDER)
      as [Hin|Hout].
    + destruct (legacy_slot_of _ Hin) as (p & d & Hs & _).
      rewrite (employeeField_slot _ p d Hs) in Hw.
      apply Hinit. rewrite <- Hw. right. right.
      apply (in_map (fun slot => fst (snd slot))) in Hs. exact Hs.
    + rewrite employeeField_other in Hw by exact Hout.
      now apply (Hnames t).
Qed.

Lemma dialog_reads_mapped_property_witness :
  let core := mkCriteria "c1" "Kualitas Kerja" "Kinerja Inti" Benefit "1-5" in
  let extra := mkCriteria "c2" "Kehadiran Rapat" "Tambahan" Benefit "1-5" in
  let member := mkCriteria "c3" "constructor" "Tambahan" Benefit "1-5" in
  let memberKey := fun _ : string => "function Object() { [native code] }" in
  let ts := [ mkTuple "E" "Budi" "Kualitas Kerja" 4;
              mkTuple "E" "Budi" "Kehadiran Rapat" 3;
              mkTuple "E" "Budi" "constructor" 5 ] in
  let record :=
    write_tuple
      (write_tuple
         (write_tuple (EmployeeForm.initialEmployee "E" "Budi")
                      (mkTuple "E" "Budi" "Kualitas Kerja" 4))
         (mkTuple "E" "Budi" "Kehadiran Rapat" 3))
      (mkTuple "E" "Budi" "constructor" 5) in
  let form :=
    EditEmployeeDialog.newFormData memberKey record [core; extra; member] in
  record_from None "E" ts = Some record
  /\ record !! "Kehadiran Rapat" = Some (JS.JNum 3)
  /\ record !! "constructor" = Some (JS.JNum 5)
  /\ form !! "kualitas_kerja" = Some (JS.Own (JS.JNum 4))
  /\ form !! "kehadiran_rapat" = Some (JS.Own (JS.JNum 0))
  /\ form !! "constructor" = Some (JS.Own (JS.JNum 0)).
Proof.
  intros core extra member memberKey ts record form.
  assert (record_from None "E" ts = Some record) as Hrec by reflexivity.
  split; [exact Hrec|].
  split; [vm_compute; reflexivity|]. split; [vm_compute; reflexivity|].
  split; [|split].
  - apply (proj1 (dialog_reads_mapped_property memberKey record
                    [core; extra; member] core (or_introl eq_refl))).
    + vm_compute. reflexivity.
    + reflexivity.
  - apply (proj2 (proj2 (dialog_reads_mapped_property memberKey record
                           [core; extra; member] extra
                           (or_intror (or_introl eq_refl))))
                 "E" ts Hrec).
    + vm_compute. intros H.
      repeat (destruct H as [H|H]; [discriminate H|]). exact H.
    + reflexivity.
    + intros t [<-|[<-|[<-|[]]]] _; discriminate.
  - apply (proj2 (proj2 (dialog_reads_mapped_property memberKey record
                           [core; extra; member] member
                           (or_intror (or_intror (or_introl eq_refl)))))
                 "E" ts Hrec).
    + vm_compute. intros H.
      repeat (destruct H as [H|H]; [discriminate H|]). exact H.
    + reflexivity.
    + intros t [<-|[<-|[<-|[]]]] _; discriminate.
Defined.

Lemma updatedEmployee_other (employee : Employee) (formData : gmap string Z)
      (k : string) :
  ~ In k (map (fun slot : string * (string * Z) => fst (snd slot)) LEGACY_SLOTS) ->
  EditEmployeeDialog.updatedEmployee employee formData !! k = employee !! k.
Proof.
  intros Hk. unfold EditEmployeeDialog.updatedEmployee.
  exact (fold_write_untouched
           (fun slot : string * (string * Z) => fst (snd slot))
           (fun slot =>
              JS.or_else
                (JS.JNum <$> formData !! EditEmployeeDialog.createFieldName (fst slot))
                (employee !! fst (snd slot)))
           LEGACY_SLOTS employee k Hk).
Qed.

(** X19. The record the edit dialog hands over after a save differs from the
    employee it was opened with in the thirteen legacy properties at most: a
    legacy property holds the form's value when that is not 0, and the
    employee's previous value when the form has none, and every other
    property (id, name, the scores of extension criteria) is the
    employee's.  The upsert payload nevertheless carries an entry for every
    criterion of the dialog, extension criteria included, with the form's
    value or 0. *)
Theorem dialog_record_changes_legacy_slots_only
        (st : EditEmployeeDialog.State) (s : Supabase.Server)
        (employee e : Employee) :
  let result := EditEmployeeDialog.handleSubmit st s in
  let formData := EditEmployeeDialog.formData st in
  EditEmployeeDialog.employee st = Some employee ->
  handed_over (fst result) = Some e ->
  (forall k,
      ~ In k (map (fun slot : string * (string * Z) => fst (snd slot))
                  LEGACY_SLOTS) ->
      e !! k = employee !! k)
  /\ (forall n p d v,
         In (n, (p, d)) LEGACY_SLOTS ->
         formData !! EditEmployeeDialog.createFieldName n = Some v -> v <> 0 ->
         e !! p = Some (JS.JNum v))
  /\ (forall n p d,
         In (n, (p, d)) LEGACY_SLOTS ->
         formData !! EditEmployeeDialog.createFieldName n = None ->
         e !! p = employee !! p)
  /\ map (fun sent => (Supabase.criteria_id sent, Supabase.score sent))
         (dialog_plan employee st s)
     = map (fun c =>
              (id c,
               JS.num_or (formData !! EditEmployeeDialog.createFieldName (name c))
                         0))
           (EditEmployeeDialog.criteria st)
  /\ In (Supabase.Upsert (dialog_plan employee st s))
        (Supabase.requests (snd result)).
Proof.
  intros result formData Hemp Hsaved. subst result formData.
  destruct (dialog_submit_cases st s)
    as [[Hnone _]|(e' & He' & He & _ & _ & _ & Hreq)];
    [congruence|].
  assert (e' = employee) as -> by congruence.
  rewrite He in Hsaved. injection Hsaved as <-.
  split; [intros k Hk; now apply updatedEmployee_other|].
  split; [|split; [|split; [|exact Hreq]]].
  - intros n p d v Hslot Hv Hnz.
    rewrite (updatedEmployee_slot employee _ n p d Hslot), Hv.
    unfold JS.or_else. cbn.
    destruct (Z.eqb_spec v 0); [contradiction|reflexivity].
  - intros n p d Hslot Hv.
    rewrite (updatedEmployee_slot employee _ n p d Hslot), Hv. reflexivity.
  - unfold dialog_plan, evaluationScoresData. rewrite map_map. reflexivity.
Qed.

Lemma dialog_record_changes_legacy_slots_only_witness :
  let core := mkCriteria "c1" "Kualitas Kerja" "Kinerja Inti" Benefit "1-5" in
  let extra := mkCriteria "c2" "Kehadiran Rapat" "Tambahan" Benefit "1-5" in
  let employee : Employee :=
    {[ "id" := JS.JStr "E"; "kualitasKerja" := JS.JNum 2;
       "Kehadiran Rapat" := JS.JNum 3 ]} in
  let s :=
    Supabase.mkServer (Supabase.mkDatabase [] [core; extra] [])
                      (fun _ => false) (fun _ => "s1") [] in
  let st :=
    EditEmployeeDialog.mkState (Some employee) [core; extra]
      {[ "kualitas_kerja" := 5; "kehadiran_rapat" := 4 ]} in
  let e :=
    EditEmployeeDialog.updatedEmployee employee
      {[ "kualitas_kerja" := 5; "kehadiran_rapat" := 4 ]} in
  handed_over (fst (EditEmployeeDialog.handleSubmit st s)) = Some e
  /\ e !! "Kehadiran Rapat" = Some (JS.JNum 3)
  /\ e !! "kualitasKerja" = Some (JS.JNum 5)
  /\ map (fun sent => (Supabase.criteria_id sent, Supabase.score sent))
         (dialog_plan employee st s)
     = [("c1", 5); ("c2", 4)].
Proof.
  intros core extra employee s st e.
  assert (handed_over (fst (EditEmployeeDialog.handleSubmit st s)) = Some e)
    as Hsaved by reflexivity.
  destruct (dialog_record_changes_legacy_slots_only st s employee e
              eq_refl Hsaved) as (Hother & Hset & _ & Hplan & _).
  split; [exact Hsaved|]. split; [|split].
  - rewrite Hother; [vm_compute; reflexivity|].
    vm_compute. intros H.
    repeat (destruct H as [H|H]; [discriminate H|]). exact H.
  - apply (Hset "Kualitas Kerja" "kualitasKerja" 1 5);
      [left; reflexivity|vm_compute; reflexivity|discriminate].
  - rewrite Hplan. vm_compute. reflexivity.
Defined.

(* ===================================================================== *)
(** * Further properties: the shape of a projected record *)
(* ===================================================================== *)

Lemma Map_values_get {V : Type} (m : list (string * V)) (v : V) :
  NoDup (map fst m) -> In v (map snd m) ->
  exists k, JS.Map_get m k = Some v.
Proof.
  induction m as [|[k0 v0] m IH]; [intros _ []|].
  cbn [map fst snd]. intros [Hk Hnd]%NoDup_cons [<-|Hv].
  - exists k0. simpl. now rewrite String.eqb_refl.
  - destruct (IH Hnd Hv) as (k & Hget). exists k. simpl.
    destruct (String.eqb_spec k0 k) as [->|_]; [|exact Hget].
    exfalso. apply Hk. rewrite list_elem_of_In. apply Map_has_keys.
    unfold JS.Map_has. now rewrite Hget.
Qed.

Lemma record_from_invariant (P : Employee -> Prop) (e : string)
      (ts : list Tuple) :
  (forall employeeName, P (EmployeeForm.initialEmployee e employeeName)) ->
  (forall r t, In t ts -> P r -> P (write_tuple r t)) ->
  forall o r, (forall r0, o = Some r0 -> P r0) ->
              record_from o e ts = Some r -> P r.
Proof.
  intros Hinit. induction ts as [|t ts IH]; intros Hstep o r Ho Hr.
  - now apply Ho.
  - unfold record_from in Hr. cbn [fold_left] in Hr.
    eapply IH; [intros; apply Hstep; [now right|assumption]| |exact Hr].
    destruct (String.eqb (t_employeeId t) e); [|exact Ho].
    intros r0 [= <-]. apply Hstep; [now left|].
    destruct o as [r1|]; cbn [default]; [now apply Ho|apply Hinit].
Qed.

Lemma written_field_cases (t : Tuple) :
  In (written_field t) initial_properties
  \/ written_field t = t_criterionName t.
Proof.
  unfold written_field.
  destruct (in_dec string_dec (t_criterionName t) CANONICAL_CRITERIA_ORDER)
    as [Hin|Hout]; [left|right; now apply employeeField_other].
  destruct (legacy_slot_of _ Hin) as (p & d & Hs & _).
  rewrite (employeeField_slot _ p d Hs). right. right.
  apply (in_map (fun slot => fst (snd slot))) in Hs. exact Hs.
Qed.

Lemma initialEmployee_strings (employeeId employeeName k v : string) :
  EmployeeForm.initialEmployee employeeId employeeName !! k = Some (JS.JStr v) ->
  k = "id" \/ k = "name".
Proof.
  destruct (in_dec string_dec k initial_properties) as [Hin|Hout].
  - destruct Hin as [<-|[<-|Hin]]; [now left|now right|].
    apply in_map_iff in Hin as ([n [p d]] & <- & Hs).
    rewrite (initialEmployee_slot _ _ n p d Hs). discriminate.
  - rewrite initialEmployee_absent by exact Hout. discriminate.
Qed.

(** X20. Every record of the projection has the properties id and name and
    all thirteen legacy properties, each legacy property holding a number;
    a string is held by id or name only; and a record has no property
    besides these fifteen and the names of criteria among the scores. *)
Theorem projected_record_shape (st : EmployeeForm.State) (record : Employee) :
  In record (EmployeeForm.convertEvaluationScoresToEmployees st) ->
  (forall n p d, In (n, (p, d)) LEGACY_SLOTS ->
                 exists v, record !! p = Some (JS.JNum v))
  /\ is_Some (record !! "id")
  /\ is_Some (record !! "name")
  /\ (forall k v, record !! k = Some (JS.JStr v) -> k = "id" \/ k = "name")
  /\ (forall k, is_Some (record !! k) ->
                In k initial_properties
                \/ In k (map t_criterionName
                             (tuples (EmployeeForm.evaluationScores st)))).
Proof.
  unfold EmployeeForm.convertEvaluationScoresToEmployees, JS.Map_values.
  intros Hin. apply Map_values_get in Hin as (e & Hget).
  2:{ rewrite employeeMap_keys_first_seen. apply first_seen_NoDup. }
  unfold EmployeeForm.employeeMap in Hget.
  rewrite employeeMap_from, employeeMap_get in Hget. cbn [JS.Map_get] in Hget.
  set (ts := tuples (EmployeeForm.evaluationScores st)) in *.
  revert Hget.
  apply (record_from_invariant
           (fun r =>
              (forall n p d, In (n, (p, d)) LEGACY_SLOTS ->
                             exists v, r !! p = Some (JS.JNum v))
              /\ is_Some (r !! "id")
              /\ is_Some (r !! "name")
              /\ (forall k v, r !! k = Some (JS.JStr v) -> k = "id" \/ k = "name")
              /\ (forall k, is_Some (r !! k) ->
                            In k initial_properties
                            \/ In k (map t_criterionName ts)))
           e ts).
  - intros employeeName. split; [|split; [|split; [|split]]].
    + intros n p d Hs. exists d. now apply initialEmployee_slot with n.
    + exists (JS.JStr e). apply object_of_lookup;
        [exact LEGACY_SLOTS_properties_NoDup|now left].
    + exists (JS.JStr employeeName). apply object_of_lookup;
        [exact LEGACY_SLOTS_properties_NoDup|right; now left].
    + intros k v. apply initialEmployee_strings.
    + intros k Hk. left.
      destruct (in_dec string_dec k initial_properties) as [Hi|Ho];
        [exact Hi|].
      rewrite initialEmployee_absent in Hk by exact Ho.
      destruct Hk as [x Hx]. discriminate Hx.
  - intros r t Ht (Hslots & Hid & Hname & Hstr & Hkeys).
    unfold write_tuple, JS.assign.
    destruct (String.eqb (written_field t) "__proto__"); [now repeat split|].
    split; [|split; [|split; [|split]]].
    + intros n p d Hs.
      destruct (String.eqb_spec (written_field t) p) as [<-|Hne].
      * eexists. apply lookup_insert_eq.
      * rewrite lookup_insert_ne by exact Hne. now apply Hslots with n d.
    + apply lookup_insert_is_Some'. now right.
    + apply lookup_insert_is_Some'. now right.
    + intros k v.
      destruct (String.eqb_spec (written_field t) k) as [<-|Hne].
      * rewrite lookup_insert_eq. discriminate.
      * rewrite lookup_insert_ne by exact Hne. apply Hstr.
    + intros k.
      destruct (String.eqb_spec (written_field t) k) as [<-|Hne].
      * intros _. destruct (written_field_cases t) as [H|H]; [now left|].
        right. rewrite H. now apply in_map.
      * rewrite lookup_insert_ne by exact Hne. apply Hkeys.
  - discriminate.
Qed.

Lemma projected_record_shape_witness :
  let budi := Supabase.mkDBEmployee "E" "Budi" in
  let extra := mkCriteria "c2" "Kehadiran Rapat" "Tambahan" Benefit "1-5" in
  let scores :=
    [ Supabase.mkEvaluationScore (Supabase.mkScoreRow "s1" "E" "c2" 3)
                                 (Some budi) (Some extra) ] in
  let st := EmployeeForm.mkState [budi] scores [extra] "" ∅ in
  let record :=
    write_tuple (EmployeeForm.initialEmployee "E" "Budi")
                (mkTuple "E" "Budi" "Kehadiran Rapat" 3) in
  EmployeeForm.convertEvaluationScoresToEmployees st = [record]
  /\ (exists v, record !! "prestasi" = Some (JS.JNum v))
  /\ is_Some (record !! "name").
Proof.
  intros budi extra scores st record.
  assert (EmployeeForm.convertEvaluationScoresToEmployees st = [record])
    as Hrec by reflexivity.
  split; [exact Hrec|].
  destruct (projected_record_shape st record) as (Hslots & _ & Hname & _).
  { rewrite Hrec. now left. }
  split; [|exact Hname].
  apply (Hslots "Prestasi" "prestasi" 0). do 11 right. left. reflexivity.
Defined.
